(** * Rtab2csv: delimiter detection and two-path CSV conversion

    A shallow embedding of [src/Rtab2csv.py].  Python [str] values are lists
    of Unicode code points, files are lists of bytes, the file system is a
    finite map from paths to nodes, and the statements of [main] run in a
    small state-and-exception monad. *)

From Stdlib Require Import ZArith NArith QArith Lia.
From Stdlib Require Import Strings.String Strings.Ascii DecimalString.
From Stdlib Require Import Floats.PrimFloat Numbers.Cyclic.Int63.Uint63.
From Stdlib Require Import Floats.SpecFloat Floats.FloatOps Floats.FloatAxioms.
From stdpp Require Import base option list gmap.

Local Open Scope Z_scope.
Local Open Scope list_scope.

(** ** Python strings *)

(** A code point; a [str] is a list of them. *)
Definition char := N.
Definition text := list char.

Module Ch.
Definition tab : char := 9%N.
Definition lf : char := 10%N.
Definition cr : char := 13%N.
Definition space : char := 32%N.
Definition dquote : char := 34%N.
Definition hash : char := 35%N.
Definition comma : char := 44%N.
Definition semicolon : char := 59%N.
Definition backslash : char := 92%N.
Definition pipe : char := 124%N.
End Ch.

(** String literals of this file: [py] reads a Rocq string as ASCII text,
    with the escapes [\t], [\n], [\r], [\\] and [\q] (a double quote). *)
Fixpoint py_from (esc : bool) (s : string) : text :=
  match s with
  | EmptyString => []
  | String a s' =>
      let c := N_of_ascii a in
      if esc then
        (if N.eqb c 116 then Ch.tab
         else if N.eqb c 110 then Ch.lf
         else if N.eqb c 114 then Ch.cr
         else if N.eqb c 113 then Ch.dquote
         else c) :: py_from false s'
      else if N.eqb c Ch.backslash then py_from true s'
      else c :: py_from false s'
  end.
Definition py (s : string) : text := py_from false s.

(** [str.isspace] on one character (CPython's [_PyUnicode_IsWhitespace]). *)
Definition is_space (c : char) : bool :=
  ((9 <=? c) && (c <=? 13) || (28 <=? c) && (c <=? 32)
   || (c =? 133) || (c =? 160) || (c =? 5760)
   || (8192 <=? c) && (c <=? 8202)
   || (c =? 8232) || (c =? 8233) || (c =? 8239) || (c =? 8287)
   || (c =? 12288))%N.

(** [str.splitlines] boundaries (CPython's [Py_UNICODE_ISLINEBREAK]). *)
Definition is_linebreak (c : char) : bool :=
  ((10 <=? c) && (c <=? 13) || (28 <=? c) && (c <=? 30)
   || (c =? 133) || (c =? 8232) || (c =? 8233))%N.

Fixpoint drop_while {A} (p : A -> bool) (l : list A) : list A :=
  match l with
  | [] => []
  | x :: l' => if p x then drop_while p l' else l
  end.

(** [s.lstrip()], [s.rstrip()], [s.strip()] with no argument. *)
Definition lstrip (s : text) : text := drop_while is_space s.
Definition rstrip (s : text) : text := rev (drop_while is_space (rev s)).
Definition strip (s : text) : text := rstrip (lstrip s).

(** Truth value of a [str] or a [list]: non-empty. *)
Definition truthy {A} (l : list A) : bool :=
  match l with [] => false | _ => true end.

(** [s.startswith(c)] for a one-character prefix. *)
Definition startswith_char (c : char) (s : text) : bool :=
  match s with
  | x :: _ => N.eqb x c
  | [] => false
  end.

Fixpoint is_prefix (p s : text) : bool :=
  match p, s with
  | [], _ => true
  | a :: p', b :: s' => N.eqb a b && is_prefix p' s'
  | _ :: _, [] => false
  end.

(** [s.endswith(suffix)]. *)
Definition endswith (suffix s : text) : bool := is_prefix (rev suffix) (rev s).

(** [s.count(d)] for a one-character [d]. *)
Fixpoint str_count (d : char) (s : text) : Z :=
  match s with
  | [] => 0
  | c :: s' => (if N.eqb c d then 1 else 0) + str_count d s'
  end.

(** [s.splitlines()]: [cur] is the line being read, [after_cr] tells that the
    previous character was a carriage return, so that a line feed right after
    it belongs to the same boundary. *)
Fixpoint splitlines_from (after_cr : bool) (cur : text) (s : text) : list text :=
  match s with
  | [] => match cur with [] => [] | _ => [cur] end
  | c :: s' =>
      if after_cr && N.eqb c Ch.lf then splitlines_from false cur s'
      else if is_linebreak c then cur :: splitlines_from (N.eqb c Ch.cr) [] s'
      else splitlines_from false (cur ++ [c]) s'
  end.
Definition splitlines (s : text) : list text := splitlines_from false [] s.

(** ** Numbers of the score

    [detect_delimiter] computes its score in Python floats, that is in IEEE
    binary64.  The embedding is written over the operations the source
    uses, so that the loop can be studied for every arithmetic whose
    comparison behaves as that of binary64 does ([PyNumLaws] below). *)
Class PyNum (F : Type) := {
  of_int : Z -> F;            (* an [int] used where a float is, as [-1] or [len(counts)] *)
  num_add : F -> F -> F;
  num_sub : F -> F -> F;
  num_div : F -> F -> F;      (* true division; the source never divides by zero *)
  num_sqr : F -> F;           (* [x ** 2] *)
  num_gt : F -> F -> bool     (* [x > y] *)
}.

(** Exact rationals, kept in lowest terms.  This is not the arithmetic of the
    source, which rounds: it is used in C1 only, beside binary64, to show
    that the outcome there owes nothing to rounding. *)
#[export] Instance Q_num : PyNum Q := {
  of_int z := inject_Z z;
  num_add a b := Qred (a + b);
  num_sub a b := Qred (a - b);
  num_div a b := Qred (a / b);
  num_sqr a := Qred (a * a);
  num_gt a b := match Qcompare a b with Gt => true | _ => false end
}.

(** IEEE binary64, as CPython floats are.  Exact on the integers below 2^53,
    far above any count of characters in twenty lines.

    CPython computes [x ** 2] by libm's [pow(x, 2.0)].  [float_num] takes
    the correctly rounded product for it.  The two agree on the closed runs
    of this file, whose squares are binary64 numbers, and may differ in the
    last bit elsewhere.  The statements about all samples are therefore
    proved for [float_with], which leaves the squaring function open. *)
Definition float_of_Z (z : Z) : float :=
  if (z <? 0)%Z then PrimFloat.opp (PrimFloat.of_uint63 (Uint63.of_Z (- z)))
  else PrimFloat.of_uint63 (Uint63.of_Z z).

#[export] Instance float_num : PyNum float := {
  of_int := float_of_Z;
  num_add := PrimFloat.add;
  num_sub := PrimFloat.sub;
  num_div := PrimFloat.div;
  num_sqr a := PrimFloat.mul a a;
  num_gt a b := PrimFloat.ltb b a
}.

(** binary64 with the platform's [pow(x, 2.0)] as a parameter [sqr];
    [float_num] is [float_with (fun a => a * a)]. *)
Definition float_with (sqr : float -> float) : PyNum float := {|
  of_int := float_of_Z;
  num_add := PrimFloat.add;
  num_sub := PrimFloat.sub;
  num_div := PrimFloat.div;
  num_sqr := sqr;
  num_gt a b := PrimFloat.ltb b a
|}.

(** Whether a number is a NaN, which compares with nothing.  A score is one
    only when a sum of counts has left the range of binary64. *)
Class PyNan (F : Type) := { is_nan : F -> bool }.

#[export] Instance float_nan : PyNan float := {| is_nan := PrimFloat.is_nan |}.

(** ** [detect_delimiter] *)

Definition delims : list char :=
  [Ch.tab; Ch.semicolon; Ch.comma; Ch.pipe; Ch.space].

Definition sum_Z (l : list Z) : Z := fold_left Z.add l 0.
Definition len {A} (l : list A) : Z := Z.of_nat (length l).

Section Detect.
Context {F : Type} `{PyNum F}.

(** [line] is kept by the comprehension when [line.strip()] is non-empty. *)
Definition nonblank (line : text) : bool := truthy (strip line).

(** [[line.count(d) for line in lines if line.strip()]] *)
Definition counts_of (d : char) (lines : list text) : list Z :=
  map (str_count d) (List.filter nonblank lines).

Definition mean_of (counts : list Z) : F :=
  num_div (of_int (sum_Z counts)) (of_int (len counts)).

Definition var_of (counts : list Z) (mean : F) : F :=
  num_div
    (fold_left (fun acc c => num_add acc (num_sqr (num_sub (of_int c) mean)))
               counts (of_int 0))
    (of_int (len counts)).

Definition score_of (counts : list Z) : F :=
  let mean := mean_of counts in
  let var := var_of counts mean in
  num_sub mean var.

(** One turn of the loop over [delims]; the state is [(best, best_score)]. *)
Definition detect_step (lines : list text) (st : char * F) (d : char) : char * F :=
  let counts := counts_of d lines in
  match counts with
  | [] => st
  | _ =>
      let score := score_of counts in
      if num_gt score (snd st) then (d, score) else st
  end.

Definition detect_loop (lines : list text) : char * F :=
  fold_left (detect_step lines) delims (Ch.tab, of_int (-1)).

Definition detect_delimiter (sample : text) : char :=
  fst (detect_loop (splitlines (strip sample))).
End Detect.

(** The lines [detect_delimiter] looks at, and whether [d] occurs in one of
    those that are not blank. *)
Definition sample_lines (sample : text) : list text := splitlines (strip sample).
Definition has_nonblank_line (sample : text) : bool :=
  existsb nonblank (sample_lines sample).
Definition occurs_in_sample (d : char) (sample : text) : bool :=
  existsb (fun line => 0 <? str_count d line)
          (List.filter nonblank (sample_lines sample)).

(** The score the loop gives candidate [d] on [sample]. *)
Definition candidate_score {F} `{PyNum F} (d : char) (sample : text) : F :=
  score_of (counts_of d (sample_lines sample)).

(** What the proofs about the loop use of the arithmetic, all of it true of
    binary64 ([float_with_laws]): [>] is a strict order; a value that is no
    NaN is above or below every pair it does not lie between, and a NaN
    compares with nothing; counts that are all zero, fewer than 2^53 of
    them, score zero; and 0 is above the initial [best_score]. *)
Class PyNumLaws (F : Type) `{PyNum F} `{PyNan F} : Prop := {
  gt_irrefl : forall x : F, num_gt x x = false;
  gt_trans : forall x y z : F,
    num_gt x y = true -> num_gt y z = true -> num_gt x z = true;
  gt_cotrans : forall x y z : F,
    num_gt x z = true -> is_nan y = false ->
    num_gt x y = true \/ num_gt y z = true;
  gt_nan : forall x y : F,
    is_nan x = true -> num_gt x y = false /\ num_gt y x = false;
  zero_score : forall n : nat,
    Z.of_nat (S n) < 2 ^ 53 -> score_of (repeat 0 (S n)) = of_int 0;
  zero_above_init : num_gt (of_int (F:=F) 0) (of_int (-1)) = true
}.

(** ** Bytes and text files *)

(** The bytes of a file, each below 256. *)
Definition bytes := list N.

Definition replacement_char : char := 65533%N.

(** State of the UTF-8 decoder between two bytes: [u_need] continuation
    bytes are still expected, the next one within [u_lo .. u_hi]. *)
Record utf8_state := {
  u_need : nat;
  u_acc : N;
  u_lo : N;
  u_hi : N
}.
Definition utf8_idle : utf8_state :=
  {| u_need := 0; u_acc := 0; u_lo := 128; u_hi := 191 |}.

(** A byte read while no sequence is open: the characters to emit and the
    next state (well-formed lead bytes of Unicode's table 3-7). *)
Definition utf8_lead (b : N) : text * utf8_state :=
  let seq n acc lo hi := ([], {| u_need := n; u_acc := acc; u_lo := lo; u_hi := hi |}) in
  (if b <? 128 then ([b], utf8_idle)
   else if (194 <=? b) && (b <=? 223) then seq 1%nat (N.land b 31) 128 191
   else if b =? 224 then seq 2%nat (N.land b 15) 160 191
   else if b =? 237 then seq 2%nat (N.land b 15) 128 159
   else if (225 <=? b) && (b <=? 239) then seq 2%nat (N.land b 15) 128 191
   else if b =? 240 then seq 3%nat (N.land b 7) 144 191
   else if b =? 244 then seq 3%nat (N.land b 7) 128 143
   else if (241 <=? b) && (b <=? 243) then seq 3%nat (N.land b 7) 128 191
   else ([replacement_char], utf8_idle))%N.

(** [bytes.decode("utf-8", errors="replace")]: every maximal ill-formed
    subsequence becomes one U+FFFD. *)
Fixpoint utf8_decode_from (st : utf8_state) (bs : bytes) : text :=
  match bs with
  | [] => match u_need st with O => [] | S _ => [replacement_char] end
  | b :: bs' =>
      match u_need st with
      | O => let '(out, st') := utf8_lead b in out ++ utf8_decode_from st' bs'
      | S n =>
          if ((u_lo st <=? b) && (b <=? u_hi st))%N then
            let acc := N.lor (N.shiftl (u_acc st) 6) (N.land b 63) in
            match n with
            | O => acc :: utf8_decode_from utf8_idle bs'
            | S _ =>
                utf8_decode_from
                  {| u_need := n; u_acc := acc; u_lo := 128; u_hi := 191 |} bs'
            end
          else
            let '(out, st') := utf8_lead b in
            replacement_char :: out ++ utf8_decode_from st' bs'
      end
  end.
Definition utf8_decode (bs : bytes) : text := utf8_decode_from utf8_idle bs.

(** One character in UTF-8; [None] where the strict encoder raises
    (surrogates, and values that are no code point). *)
Definition utf8_encode_char (c : char) : option bytes :=
  let cont k := N.lor 128 (N.land (N.shiftr c k) 63) in
  (if c <? 128 then Some [c]
   else if c <? 2048 then Some [N.lor 192 (N.shiftr c 6); cont 0]
   else if (55296 <=? c) && (c <=? 57343) then None
   else if c <? 65536 then Some [N.lor 224 (N.shiftr c 12); cont 6; cont 0]
   else if c <? 1114112 then
     Some [N.lor 240 (N.shiftr c 18); cont 12; cont 6; cont 0]
   else None)%N.

Fixpoint utf8_encode (s : text) : option bytes :=
  match s with
  | [] => Some []
  | c :: s' =>
      match utf8_encode_char c, utf8_encode s' with
      | Some b, Some bs => Some (b ++ bs)
      | _, _ => None
      end
  end.

(** Reading in text mode with the default [newline=None]: [\r\n] and a lone
    [\r] are handed to the program as [\n]. *)
Fixpoint universal_newlines (s : text) : text :=
  match s with
  | [] => []
  | c :: s' =>
      if N.eqb c Ch.cr then
        Ch.lf :: match s' with
                 | c' :: s'' => if N.eqb c' Ch.lf then universal_newlines s''
                                else universal_newlines s'
                 | [] => []
                 end
      else c :: universal_newlines s'
  end.

(** The lines a text file object yields when iterated or read with
    [readline]: each keeps its [\n]; only the last may lack one. *)
Fixpoint file_lines_from (cur : text) (s : text) : list text :=
  match s with
  | [] => match cur with [] => [] | _ => [cur] end
  | c :: s' =>
      if N.eqb c Ch.lf then (cur ++ [c]) :: file_lines_from [] s'
      else file_lines_from (cur ++ [c]) s'
  end.
Definition file_lines (s : text) : list text := file_lines_from [] s.

(** ** The world: file system, console, exceptions *)

Definition path := text.

Inductive node :=
  | File (content : bytes)
  | Dir.

(** The classes of [Exception] the program can meet. *)
Inductive exn_class :=
  | FileNotFoundError
  | IsADirectoryError
  | PermissionError
  | BadGzipFile
  | UnicodeEncodeError
  | ImportError
  | CsvError
  | LibraryError.

Record exn := Exn { exn_cls : exn_class; exn_msg : text }.

(** The two conversion paths; [calls] below is a ghost trace of the attempts
    [main] makes and whether each returned, kept to state properties only. *)
Inductive conv_path := Structured | Fallback.

Abbreviation fsmap := (gmap (list N) node).

Record world := World {
  fs : fsmap;
  stdout : list text;              (* one entry per [print] call *)
  calls : list (conv_path * bool)
}.

Inductive outcome (A : Type) :=
  | Ret (a : A)
  | Raise (e : exn)                (* an [Exception] on its way up *)
  | Exit (code : Z).               (* [sys.exit(code)] *)
Arguments Ret {A} a.
Arguments Raise {A} e.
Arguments Exit {A} code.

(** Statements over a state [S]: the file system alone for the functions
    that only touch files, the whole world for [main]. *)
Definition ST (S A : Type) : Type := S -> outcome A * S.
Abbreviation FS := (ST fsmap).
Abbreviation M := (ST world).

Definition ret {S A} (a : A) : ST S A := fun s => (Ret a, s).
Definition bind {S A B} (m : ST S A) (k : A -> ST S B) : ST S B :=
  fun s =>
    match m s with
    | (Ret a, s') => k a s'
    | (Raise e, s') => (Raise e, s')
    | (Exit c, s') => (Exit c, s')
    end.
Definition raise {S A} (e : exn) : ST S A := fun s => (Raise e, s).
Definition sys_exit {S A} (code : Z) : ST S A := fun s => (Exit code, s).
Definition get_state {S} : ST S S := fun s => (Ret s, s).
Definition put_state {S} (s : S) : ST S unit := fun _ => (Ret tt, s).

(** [try: body  except Exception as e: handler e].  [sys.exit] raises
    [SystemExit], which is no [Exception] and passes through. *)
Definition try_except {S A} (body : ST S A) (handler : exn -> ST S A) : ST S A :=
  fun s =>
    match body s with
    | (Raise e, s') => handler e s'
    | r => r
    end.

(** The monad is used through stdpp's notations [x ← m; k] and [m;; k]. *)
#[export] Instance ST_ret {S} : MRet (ST S) := fun A => ret.
#[export] Instance ST_bind {S} : MBind (ST S) := fun A B k m => bind m k.

(** A file operation as a step of [main]. *)
Definition lift_fs {A} (c : FS A) : M A :=
  fun w =>
    let '(r, m) := c (fs w) in
    (r, {| fs := m; stdout := stdout w; calls := calls w |}).

(** [print(a, b, ...)]: the arguments separated by one space. *)
Fixpoint join_with (sep : text) (parts : list text) : text :=
  match parts with
  | [] => []
  | [p] => p
  | p :: ps => p ++ sep ++ join_with sep ps
  end.
Definition print (args : list text) : M unit :=
  fun w => (Ret tt, {| fs := fs w;
                       stdout := stdout w ++ [join_with [Ch.space] args];
                       calls := calls w |}).

(** Ghost: run [m] and note on the trace whether it returned. *)
Definition attempt {A} (p : conv_path) (m : M A) : M A :=
  fun w =>
    let '(r, w') := m w in
    let ok := match r with Ret _ => true | _ => false end in
    (r, {| fs := fs w'; stdout := stdout w'; calls := calls w' ++ [(p, ok)] |}).

(** What the process reports to its parent: 0 when [main] returns, the code
    of [sys.exit], 1 when an exception reaches the top level. *)
Definition exit_status {A} (r : outcome A) : Z :=
  match r with
  | Ret _ => 0
  | Exit c => c
  | Raise _ => 1
  end.

(** ** Libraries outside the repository

    [gzip] and [pandas] are taken as parameters of a run. *)

Inductive label :=
  | LStr (s : text)
  | LOther (n : Z).                (* a column label that is no [str] *)

Record dataframe := {
  df_columns : list label;
  df_rows : list (list text)
}.

Record pandas_lib := {
  (* contents of the input, separator, comment character *)
  read_csv : bytes -> char -> char -> exn + dataframe;
  (* [df.to_csv(index=False)] as text *)
  to_csv : dataframe -> text
}.

Record runtime := {
  (* the bytes a gzip file decompresses to; [None]: the content is no gzip
     stream, and the first read of it raises.  A stream that breaks off
     part-way, which yields some lines and then raises, is not modelled. *)
  gunzip : bytes -> option bytes;
  (* [None]: [import pandas] fails *)
  pandas : option pandas_lib;
  (* whether [open(path, "w")] is allowed to create or truncate [path] *)
  writable : path -> bool
}.

Definition gz_suffix : text := py ".gz".

(** ** Opening files *)

(** An open input file: reading it sees the file as it is when read. *)
Record reader := { r_path : path; r_gzip : bool }.

Definition open_read (p : path) (gz : bool) : FS reader :=
  m ← get_state;
  match m !! p with
  | Some (File _) => ret {| r_path := p; r_gzip := gz |}
  | Some Dir => raise (Exn IsADirectoryError p)
  | None => raise (Exn FileNotFoundError p)
  end.

Definition open_maybe_gzip (p : path) : FS reader :=
  if endswith gz_suffix p then open_read p true
  else open_read p false.

Section Run.
Variable rt : runtime.

(** The raw bytes behind an open file, gunzipped when opened so.  The source
    reads a stream line by line; it is modelled by its whole content, which
    is the same for a file that reads to its end, and content that is no
    gzip stream fails at the first read, as it does in the source. *)
Definition read_bytes (f : reader) : FS bytes :=
  m ← get_state;
  match m !! r_path f with
  | Some (File b) =>
      if r_gzip f then
        match gunzip rt b with
        | Some b' => ret b'
        | None => raise (Exn BadGzipFile (r_path f))
        end
      else ret b
  | _ => ret []
  end.

(** All the text of a file opened by [open_maybe_gzip]
    ([encoding="utf-8", errors="replace"], universal newlines). *)
Definition read_text (f : reader) : FS text :=
  b ← read_bytes f;
  ret (universal_newlines (utf8_decode b)).

(** [open(outpath, "w", newline="", encoding="utf-8")]: the file is
    created or emptied at once. *)
Definition open_write (p : path) : FS path :=
  m ← get_state;
  match m !! p with
  | Some Dir => raise (Exn IsADirectoryError p)
  | _ =>
      if writable rt p then put_state (<[p := File []]> m);; ret p
      else raise (Exn PermissionError p)
  end.

(** Text written to an open output file and flushed. *)
Definition write_text (p : path) (s : text) : FS unit :=
  match utf8_encode s with
  | Some b => m ← get_state; put_state (<[p := File b]> m)
  | None => raise (Exn UnicodeEncodeError p)
  end.

Definition read_preview (p : path) (n : nat) : FS text :=
  f ← open_maybe_gzip p;
  t ← read_text f;
  ret (concat (take n (file_lines t))).
End Run.

(** ** The [csv] module

    [csv.reader(fin, delimiter=d)] and [csv.writer(fout)] under the default
    [excel] dialect: the double quote as quote character, doubled, no escape
    character, no skipping of initial spaces, not strict, minimal quoting,
    line terminator [\r\n].  The reader is CPython's state machine
    ([Modules/_csv.c]); its two escape states cannot be entered without an
    escape character and are left out. *)
Module Csv.

Inductive parser_state :=
  | START_RECORD
  | START_FIELD
  | IN_FIELD
  | IN_QUOTED_FIELD
  | QUOTE_IN_QUOTED_FIELD
  | EAT_CRNL.

Record reader_state := {
  state : parser_state;
  fields : list text;            (* the fields of the record so far *)
  field : text;                  (* the field being read *)
  field_len : N
}.

(** [csv.field_size_limit()] *)
Definition field_limit : N := 131072%N.

Definition field_too_large : exn :=
  Exn CsvError (py "field larger than field limit (131072)").
Definition stray_newline : exn :=
  Exn CsvError (py "new-line character seen in unquoted field").

Definition parse_reset : reader_state :=
  {| state := START_RECORD; fields := []; field := []; field_len := 0 |}.

Definition set_state (st : parser_state) (rs : reader_state) : reader_state :=
  {| state := st; fields := fields rs; field := field rs;
     field_len := field_len rs |}.

Definition parse_save_field (rs : reader_state) : reader_state :=
  {| state := state rs; fields := fields rs ++ [field rs]; field := [];
     field_len := 0 |}.

Definition parse_add_char (rs : reader_state) (c : char) : exn + reader_state :=
  if (field_limit <=? field_len rs)%N then inl field_too_large
  else inr {| state := state rs; fields := fields rs;
              field := field rs ++ [c]; field_len := N.succ (field_len rs) |}.

Definition is_newline (c : char) : bool := N.eqb c Ch.lf || N.eqb c Ch.cr.

(** [parse_process_char]; [None] is the end-of-line mark the reader feeds
    after the characters of each line. *)
Definition parse_process_char (d : char) (rs : reader_state) (c : option char)
  : exn + reader_state :=
  let start_field (rs : reader_state) : exn + reader_state :=
    match c with
    | None => inr (set_state START_RECORD (parse_save_field rs))
    | Some x =>
        if is_newline x then inr (set_state EAT_CRNL (parse_save_field rs))
        else if N.eqb x Ch.dquote then inr (set_state IN_QUOTED_FIELD rs)
        else if N.eqb x d then inr (parse_save_field rs)
        else
          match parse_add_char rs x with
          | inl e => inl e
          | inr rs' => inr (set_state IN_FIELD rs')
          end
    end in
  match state rs with
  | START_RECORD =>
      match c with
      | None => inr rs
      | Some x =>
          if is_newline x then inr (set_state EAT_CRNL rs)
          else start_field (set_state START_FIELD rs)
      end
  | START_FIELD => start_field rs
  | IN_FIELD =>
      match c with
      | None => inr (set_state START_RECORD (parse_save_field rs))
      | Some x =>
          if is_newline x then inr (set_state EAT_CRNL (parse_save_field rs))
          else if N.eqb x d then inr (set_state START_FIELD (parse_save_field rs))
          else parse_add_char rs x
      end
  | IN_QUOTED_FIELD =>
      match c with
      | None => inr rs
      | Some x =>
          if N.eqb x Ch.dquote then inr (set_state QUOTE_IN_QUOTED_FIELD rs)
          else parse_add_char rs x
      end
  | QUOTE_IN_QUOTED_FIELD =>
      match c with
      | None => inr (set_state START_RECORD (parse_save_field rs))
      | Some x =>
          if N.eqb x Ch.dquote then
            match parse_add_char rs x with
            | inl e => inl e
            | inr rs' => inr (set_state IN_QUOTED_FIELD rs')
            end
          else if N.eqb x d then inr (set_state START_FIELD (parse_save_field rs))
          else if is_newline x then inr (set_state EAT_CRNL (parse_save_field rs))
          else
            match parse_add_char rs x with
            | inl e => inl e
            | inr rs' => inr (set_state IN_FIELD rs')
            end
      end
  | EAT_CRNL =>
      match c with
      | None => inr (set_state START_RECORD rs)
      | Some x => if is_newline x then inr rs else inl stray_newline
      end
  end.

(** The characters of one line, in order. *)
Fixpoint feed_chars (d : char) (rs : reader_state) (line : text)
  : exn + reader_state :=
  match line with
  | [] => inr rs
  | c :: line' =>
      match parse_process_char d rs (Some c) with
      | inl e => inl e
      | inr rs' => feed_chars d rs' line'
      end
  end.

(** One line, then the end-of-line mark. *)
Definition feed_line (d : char) (rs : reader_state) (line : text)
  : exn + reader_state :=
  match feed_chars d rs line with
  | inl e => inl e
  | inr rs' => parse_process_char d rs' None
  end.

(** The rows the reader yields over [lines], and the error that ends the
    iteration if one does.  A record is complete when a line leaves the
    machine in [START_RECORD]; at the end of the input an open quoted field
    or a non-empty field is yielded as it stands. *)
Fixpoint reader_from (d : char) (rs : reader_state) (lines : list text)
  : list (list text) * option exn :=
  match lines with
  | [] =>
      match state rs with
      | IN_QUOTED_FIELD => ([fields (parse_save_field rs)], None)
      | _ =>
          if (field_len rs =? 0)%N then ([], None)
          else ([fields (parse_save_field rs)], None)
      end
  | line :: rest =>
      match feed_line d rs line with
      | inl e => ([], Some e)
      | inr rs' =>
          match state rs' with
          | START_RECORD =>
              let '(rows, err) := reader_from d parse_reset rest in
              (fields rs' :: rows, err)
          | _ => reader_from d rs' rest
          end
      end
  end.

Definition reader (d : char) (lines : list text) : list (list text) * option exn :=
  reader_from d parse_reset lines.

(** *** Writer *)

Definition needs_quotes (s : text) : bool :=
  existsb (fun c => N.eqb c Ch.comma || N.eqb c Ch.dquote
                    || N.eqb c Ch.cr || N.eqb c Ch.lf) s.

Fixpoint double_quotes (s : text) : text :=
  match s with
  | [] => []
  | c :: s' =>
      if N.eqb c Ch.dquote then Ch.dquote :: Ch.dquote :: double_quotes s'
      else c :: double_quotes s'
  end.

(** [join_append] on one field. *)
Definition write_field (s : text) : text :=
  if needs_quotes s then [Ch.dquote] ++ double_quotes s ++ [Ch.dquote]
  else s.

Definition lineterminator : text := [Ch.cr; Ch.lf].

(** The text [writer.writerow(row)] hands to [fout.write].  A record made
    of one empty field is written as a pair of quotes. *)
Definition writerow (row : list text) : text :=
  let rec := join_with [Ch.comma] (map write_field row) in
  match row, rec with
  | _ :: _, [] => [Ch.dquote; Ch.dquote] ++ lineterminator
  | _, _ => rec ++ lineterminator
  end.

End Csv.

(** ** [convert_fallback] *)

(** The test of the loop body: [row and row[0].lstrip().startswith(comment)]
    (every field the reader yields is a [str]). *)
Definition is_comment_row (comment : char) (row : list text) : bool :=
  match row with
  | [] => false
  | first :: _ => startswith_char comment (lstrip first)
  end.

(** The rows handed to [writer.writerow], in order. *)
Definition retained_rows (comment : char) (rows : list (list text)) : list (list text) :=
  List.filter (fun row => negb (is_comment_row comment row)) rows.

Definition strip_label (c : label) : label :=
  match c with
  | LStr s => LStr (strip s)
  | LOther n => LOther n
  end.

(** The loop of [convert_fallback] over the lines of the input: the text
    handed to [fout], and the error that stops the reader if one does. *)
Definition copy_rows (delimiter comment : char) (lines : list text)
  : text * option exn :=
  let '(rows, err) := Csv.reader delimiter lines in
  (concat (map Csv.writerow (retained_rows comment rows)), err).

Section Convert.
Variable rt : runtime.

Definition import_pandas : FS pandas_lib :=
  match pandas rt with
  | Some pd => ret pd
  | None => raise (Exn ImportError (py "No module named 'pandas'"))
  end.

(** Modelled from the spec: how [pandas.read_csv] opens the path it is
    given is library code outside [src/].  Section 4.2 has both paths open
    the Source Stream the same way, decompression by the [.gz] suffix being
    part of the opening; the parser then sees the logical bytes only. *)
Definition pandas_open (inpath : path) : FS bytes :=
  f ← open_maybe_gzip inpath;
  read_bytes rt f.

Definition convert_with_pandas (inpath outpath : path) (delimiter comment : char)
  : FS dataframe :=
  pd ← import_pandas;
  b ← pandas_open inpath;
  df ← match read_csv pd b delimiter comment with
       | inl e => raise e
       | inr df => ret df
       end;
  let df := {| df_columns := map strip_label (df_columns df);
               df_rows := df_rows df |} in
  fout ← open_write rt outpath;
  write_text fout (to_csv pd df);;
  ret df.

Definition convert_fallback (inpath outpath : path) (delimiter comment : char)
  : FS unit :=
  fin ← open_maybe_gzip inpath;
  fout ← open_write rt outpath;
  t ← read_text rt fin;
  let '(out, err) := copy_rows delimiter comment (file_lines t) in
  write_text fout out;;
  match err with
  | Some e => raise e
  | None => ret tt
  end.
End Convert.

(** ** [main] *)

(** [str(n)] for an [int]. *)
Definition str_of_Z (n : Z) : text :=
  map N_of_ascii (list_ascii_of_string (DecimalString.NilZero.string_of_int (Z.to_int n))).

(** [repr] of a one-character string, for the characters [detect_delimiter]
    can return and the other printable ASCII ones. *)
Definition repr_char (c : char) : text :=
  let q := 39%N in
  if N.eqb c Ch.tab then [q; Ch.backslash; 116%N; q]
  else if N.eqb c Ch.lf then [q; Ch.backslash; 110%N; q]
  else if N.eqb c Ch.cr then [q; Ch.backslash; 114%N; q]
  else if N.eqb c Ch.backslash then [q; Ch.backslash; Ch.backslash; q]
  else if N.eqb c q then [Ch.dquote; q; Ch.dquote]
  else [q; c; q].

Definition os_path_exists (p : path) : FS bool :=
  m ← get_state;
  ret (match m !! p with Some _ => true | None => false end).

Module Msg.
Definition usage := py "Usage: python rtab_to_csv.py input.rtab output.csv".
Definition not_found := py "Input file not found:".
Definition preview := py "=== file preview ===".
Definition file_empty := py "(file empty)".
Definition detected := py "Detected delimiter: ".
Definition trying := py "Trying to convert with pandas...".
Definition pandas_failed :=
  py "Pandas conversion failed (or pandas not installed). Falling back to csv module. Error:".
Definition wrote := py "Wrote".
Definition fallback_failed := py "Fallback conversion also failed:".
Definition wrote_frame (outpath : path) (df : dataframe) : text :=
  py "Wrote " ++ outpath ++ py " with " ++ str_of_Z (len (df_rows df))
    ++ py " rows and " ++ str_of_Z (len (df_columns df)) ++ py " columns.".
End Msg.

Section Main.
Context {F : Type} `{PyNum F}.
Variable rt : runtime.

Definition comment_char : char := Ch.hash.

(** The [try] statement of [main], from the detected delimiter on. *)
Definition convert (inpath outpath : path) (delim : char) : M unit :=
  try_except
    (print [Msg.trying];;
     df ← attempt Structured
           (lift_fs (convert_with_pandas rt inpath outpath delim comment_char));
     print [Msg.wrote_frame outpath df])
    (fun e =>
       print [Msg.pandas_failed; exn_msg e];;
       try_except
         (attempt Fallback
           (lift_fs (convert_fallback rt inpath outpath delim comment_char));;
          print [Msg.wrote; outpath])
         (fun e2 =>
            print [Msg.fallback_failed; exn_msg e2];;
            sys_exit 3)).

Definition main (argv : list text) : M unit :=
  if len argv <? 3 then
    print [Msg.usage];;
    sys_exit 1
  else
    let inpath := nth 1 argv [] in
    let outpath := nth 2 argv [] in
    ex ← lift_fs (os_path_exists inpath);
    if negb ex then
      print [Msg.not_found; inpath];;
      sys_exit 2
    else
      sample ← lift_fs (read_preview rt inpath 20);
      print [Msg.preview];;
      print [if truthy sample then sample else Msg.file_empty];;
      let delim := detect_delimiter (F:=F) sample in
      print [Msg.detected ++ repr_char delim];;
      convert inpath outpath delim.
End Main.

(** The initial world of a run over the file system [m]. *)
Definition boot (m : fsmap) : world :=
  {| fs := m; stdout := []; calls := [] |}.

(** ** The structured path, as the specification describes it *)

Fixpoint split_on_from (d : char) (cur : text) (s : text) : list text :=
  match s with
  | [] => [cur]
  | c :: s' =>
      if N.eqb c d then cur :: split_on_from d [] s'
      else split_on_from d (cur ++ [c]) s'
  end.
(** The fields of [s] between the occurrences of [d]. *)
Definition split_on (d : char) (s : text) : list text := split_on_from d [] s.

(** A line without the line feed that ends it. *)
Definition chomp (line : text) : text :=
  match rev line with
  | c :: r => if N.eqb c Ch.lf then rev r else line
  | [] => line
  end.

Module SpecPandas.

(** Modelled from the spec: [pandas.read_csv] is library code outside
    [src/].  Section 4.2: the whole input is parsed as a delimited table
    with the chosen delimiter, lines whose first non-whitespace content is
    the comment marker being excluded before parsing, every cell read as
    raw text; section 3: the result is a grid with a header row, every row
    with as many fields as the header.  Input that has no header row or is
    not rectangular is the malformed table of section 7. *)
Definition parse_table (b : bytes) (sep comment : char) : exn + dataframe :=
  let lines := map chomp (file_lines (universal_newlines (utf8_decode b))) in
  let kept :=
    List.filter (fun l => negb (startswith_char comment (lstrip l))) lines in
  match map (split_on sep) kept with
  | [] => inl (Exn LibraryError (py "no header row"))
  | header :: rows =>
      if forallb (fun r => Nat.eqb (length r) (length header)) rows then
        inr {| df_columns := map LStr header; df_rows := rows |}
      else inl (Exn LibraryError (py "malformed table"))
  end.

Definition label_text (c : label) : text :=
  match c with
  | LStr s => s
  | LOther n => str_of_Z n
  end.

(** Modelled from the spec: [DataFrame.to_csv] is library code outside
    [src/].  Section 4.2: the full table as comma-separated text with a
    header line; a field that holds a comma, a quote or a newline is
    quoted, its quotes doubled.  Lines end in a line feed, as in the
    scenario of section 8. *)
Definition render_table (df : dataframe) : text :=
  concat (map (fun r => join_with [Ch.comma] (map Csv.write_field r) ++ [Ch.lf])
              (map label_text (df_columns df) :: df_rows df)).

Definition lib : pandas_lib := {| read_csv := parse_table; to_csv := render_table |}.

End SpecPandas.

(** ** Runtimes used in the examples *)

(** A stand-in for the gzip codec, enough to run examples: two magic bytes
    in front of the data.  An empty file reads as empty, as with [gzip]. *)
Module Codec.
Definition compress (b : bytes) : bytes := 31%N :: 139%N :: b.
Definition decompress (b : bytes) : option bytes :=
  match b with
  | [] => Some []
  | 31%N :: 139%N :: b' => Some b'
  | _ => None
  end.
End Codec.

(** pandas as modelled from the specification, every path writable. *)
Definition rt_pandas : runtime :=
  {| gunzip := Codec.decompress; pandas := Some SpecPandas.lib;
     writable := fun _ => true |}.

(** pandas not installed. *)
Definition rt_bare : runtime :=
  {| gunzip := Codec.decompress; pandas := None; writable := fun _ => true |}.

(** ASCII text as the bytes of a file. *)
Definition ascii_bytes (s : string) : bytes := py s.

(** ** Notions used in the statements *)

(** The bytes the program sees behind [p]: gunzipped if the name says so. *)
Definition logical (rt : runtime) (p : path) (b : bytes) : option bytes :=
  if endswith gz_suffix p then gunzip rt b else Some b.

(** File operations that only read. *)
Definition keeps_state {S A} (c : ST S A) : Prop := forall s, (c s).2 = s.

(** The row the reader yields for a line without quotes. *)
Definition line_fields (d : char) (line : text) : list text :=
  match chomp line with
  | [] => []
  | body => split_on d body
  end.

(** A line whose first non-whitespace character is the comment marker. *)
Definition comment_line (comment : char) (line : text) : bool :=
  startswith_char comment (lstrip line).

(** A character that the reader copies or splits at when it is outside
    quotes: no quote and no line end. *)
Definition is_plain (c : char) : bool :=
  negb (Csv.is_newline c) && negb (N.eqb c Ch.dquote).

(** A line as a file yields it, with no quote and a body within the field
    limit. *)
Definition simple_line (line : text) : bool :=
  truthy line && forallb is_plain (chomp line)
  && (N.of_nat (length (chomp line)) <=? Csv.field_limit)%N.

(** The reader is inside a record, between two characters of an unquoted
    field or right after a delimiter. *)
Definition in_record (rs : Csv.reader_state) : Prop :=
  (Csv.state rs = Csv.START_FIELD /\ Csv.field rs = [] \/ Csv.state rs = Csv.IN_FIELD)
  /\ Csv.field_len rs = N.of_nat (length (Csv.field rs)).

(** The reader after a complete record [row]. *)
Definition record_done (row : list text) : Csv.reader_state :=
  {| Csv.state := Csv.START_RECORD; Csv.fields := row; Csv.field := [];
     Csv.field_len := 0 |}.

(** ** Shapes of a run

    The outcomes of [main] and the attempts each one goes with. *)
Inductive run_shape : outcome unit -> list (conv_path * bool) -> Prop :=
  | shape_usage : run_shape (Exit 1) []
  | shape_missing : run_shape (Exit 2) []
  | shape_preview_error (e : exn) : run_shape (Raise e) []
  | shape_structured : run_shape (Ret tt) [(Structured, true)]
  | shape_fallback : run_shape (Ret tt) [(Structured, false); (Fallback, true)]
  | shape_failure : run_shape (Exit 3) [(Structured, false); (Fallback, false)].

(** A computation that never calls [sys.exit]. *)
Definition no_exit {S A} (c : ST S A) : Prop :=
  forall s code, (c s).1 <> Exit code.

(** ** More notions used in the statements *)

(** The order of two finite binary64 numbers of the same sign: by exponent,
    then by mantissa. *)
Definition lex_cmp (e1 : Z) (m1 : positive) (e2 : Z) (m2 : positive) : comparison :=
  match Z.compare e1 e2 with
  | Lt => Lt
  | Gt => Gt
  | Eq => Pos.compare_cont Eq m1 m2
  end.

(** A binary64 number above zero. *)
Definition positive_sf (x : spec_float) : Prop :=
  match x with
  | S754_finite false _ _ | S754_infinity false => True
  | _ => False
  end.

(** Whether a call returned. *)
Definition is_ret {A} (r : outcome A) : bool :=
  match r with Ret _ => true | _ => false end.

(** A text with no whitespace at either end. *)
Definition edge_free (s : text) : Prop :=
  match s with [] => True | c :: _ => is_space c = false end
  /\ match rev s with [] => True | c :: _ => is_space c = false end.

(** [l] is the label [l0] as [convert_with_pandas] leaves it: a string
    without the whitespace at its two ends, any other label unchanged. *)
Definition stripped_of (l0 l : label) : Prop :=
  match l0, l with
  | LStr s0, LStr s =>
      (exists pre post,
         s0 = pre ++ s ++ post
         /\ forallb is_space pre = true /\ forallb is_space post = true)
      /\ edge_free s
  | LOther n0, LOther n => n0 = n
  | _, _ => False
  end.

(** A Unicode scalar value: a code point that is no surrogate. *)
Definition is_scalar (c : char) : bool :=
  ((c <? 55296) || (57344 <=? c) && (c <? 1114112))%N.

(** What the UTF-8 decoder has promised of the character it is building:
    whatever continuation bytes it still accepts, the result is a scalar
    value. *)
Definition utf8_open (st : utf8_state) : Prop :=
  let next acc b := (acc * 64 + b mod 64)%N in
  let cont b := (128 <= b <= 191)%N in
  match u_need st with
  | 0%nat => True
  | 1%nat => forall b, (u_lo st <= b <= u_hi st)%N ->
             is_scalar (next (u_acc st) b) = true
  | 2%nat => forall b b2, (u_lo st <= b <= u_hi st)%N -> cont b2 ->
             is_scalar (next (next (u_acc st) b) b2) = true
  | 3%nat => forall b b2 b3, (u_lo st <= b <= u_hi st)%N -> cont b2 -> cont b3 ->
             is_scalar (next (next (next (u_acc st) b) b2) b3) = true
  | _ => False
  end.

(** Every character the reader holds satisfies [P]. *)
Definition chars_ok (P : char -> Prop) (rs : Csv.reader_state) : Prop :=
  Forall (Forall P) (Csv.fields rs) /\ Forall P (Csv.field rs).

(** A line as a file yields it: no line end but a final line feed. *)
Definition file_line (l : text) : Prop :=
  Forall (fun c => Csv.is_newline c = false) (chomp l).

(** The character the fallback path writes for [c] of an unquoted line. *)
Definition to_comma (d : char) (c : char) : char := if N.eqb c d then Ch.comma else c.

(** A character that the writer copies as it is. *)
Definition is_bare (c : char) : bool :=
  negb (N.eqb c Ch.comma) && negb (N.eqb c Ch.dquote)
  && negb (N.eqb c Ch.cr) && negb (N.eqb c Ch.lf).

(** * Properties *)

(** ** Stripping *)

Lemma lstrip_all_space (s : text) :
  forallb is_space s = true -> lstrip s = [].
Proof.
  unfold lstrip. induction s as [|c s IH]; simpl; [done|].
  intros [Hc Hs]%andb_prop. rewrite Hc. auto.
Qed.

Lemma strip_all_space (s : text) :
  forallb is_space s = true -> strip s = [].
Proof. intros Hs. unfold strip. by rewrite lstrip_all_space. Qed.

(** ** The loop of [detect_delimiter] *)

Section Loop.
Context {F : Type} `{PyNum F}.

Lemma counts_of_nil (d : char) (lines : list text) :
  List.filter nonblank lines = [] -> counts_of d lines = [].
Proof. unfold counts_of. by intros ->. Qed.

Lemma detect_step_skip (lines : list text) (st : char * F) (d : char) :
  List.filter nonblank lines = [] -> detect_step lines st d = st.
Proof. intros Hl. unfold detect_step. by rewrite counts_of_nil. Qed.

Lemma detect_step_scored (lines : list text) (st : char * F) (d : char) :
  List.filter nonblank lines <> [] ->
  detect_step lines st d =
    if num_gt (score_of (counts_of d lines)) (snd st)
    then (d, score_of (counts_of d lines)) else st.
Proof.
  intros Hl. unfold detect_step, counts_of.
  destruct (List.filter nonblank lines); [done|]. reflexivity.
Qed.

Lemma fold_skip (lines : list text) (ds : list char) (st : char * F) :
  List.filter nonblank lines = [] ->
  fold_left (detect_step lines) ds st = st.
Proof.
  intros Hl. revert st. induction ds as [|d ds IH]; intros st; simpl; [done|].
  by rewrite detect_step_skip, IH.
Qed.

Lemma filter_nonblank_exists (lines : list text) :
  existsb nonblank lines = true -> List.filter nonblank lines <> [].
Proof.
  induction lines as [|l lines IH]; simpl; [done|].
  destruct (nonblank l); [done|]. simpl. auto.
Qed.
End Loop.

(** C7: on a sample that is empty or made of whitespace only,
    [detect_delimiter] returns the first candidate, the tab; the function is
    total, so no error is raised. *)
Theorem detect_delimiter_blank_sample {F : Type} `{PyNum F} (sample : text) :
  forallb is_space sample = true ->
  detect_delimiter (F:=F) sample = Ch.tab.
Proof.
  intros Hs. unfold detect_delimiter, detect_loop.
  rewrite (strip_all_space _ Hs). by rewrite fold_skip.
Qed.

Lemma detect_delimiter_blank_sample_witness :
  forallb is_space (py " \t\n \r\n") = true
  /\ detect_delimiter (F:=float) (py " \t\n \r\n") = Ch.tab.
Proof.
  split; [reflexivity | apply detect_delimiter_blank_sample; reflexivity].
Defined.

(** The loop as a search for the first best score above its initial value. *)
Section Argmax.
Context {F : Type} `{PyNumLaws F}.
Variable sc : char -> F.

Definition pick (st : char * F) (d : char) : char * F :=
  if num_gt (sc d) (snd st) then (d, sc d) else st.

Lemma gt_not_nan (x y : F) : num_gt x y = true -> is_nan x = false /\ is_nan y = false.
Proof.
  intros Hxy. split.
  - destruct (is_nan x) eqn:Hx; [| done].
    destruct (gt_nan x y Hx) as [Hbad _]. congruence.
  - destruct (is_nan y) eqn:Hy; [| done].
    destruct (gt_nan y x Hy) as [_ Hbad]. congruence.
Qed.

Lemma gt_asym (x y : F) : num_gt x y = true -> num_gt y x = false.
Proof.
  intros Hxy. destruct (num_gt y x) eqn:Hyx; [| done].
  pose proof (gt_trans _ _ _ Hxy Hyx) as Hbad. by rewrite gt_irrefl in Hbad.
Qed.

Lemma pick_loop (ds : list char) (b0 : char) (s0 : F) (r : char * F) :
  fold_left pick ds (b0, s0) = r ->
  (r = (b0, s0) /\ forall e, e ∈ ds -> num_gt (sc e) s0 = false)
  \/ (exists pre post,
        ds = pre ++ fst r :: post
        /\ snd r = sc (fst r)
        /\ num_gt (sc (fst r)) s0 = true
        /\ (forall e, e ∈ pre -> is_nan (sc e) = false ->
               num_gt (sc (fst r)) (sc e) = true)
        /\ (forall e, e ∈ post -> num_gt (sc e) (sc (fst r)) = false)).
Proof.
  revert b0 s0. induction ds as [|d ds IH]; intros b0 s0 Hr.
  - left. split; [done|]. intros e He. by apply elem_of_nil in He.
  - cbn [fold_left] in Hr. unfold pick at 2 in Hr. cbn [snd] in Hr.
    destruct (num_gt (sc d) s0) eqn:Hd.
    + destruct (IH _ _ Hr) as [[-> Hall] | (pre & post & Hds & Hs & Hgt & Hpre & Hpost)].
      * right. exists [], ds. repeat split; try done.
        intros e He. by apply elem_of_nil in He.
      * right. exists (d :: pre), post. repeat split; try done.
        -- simpl. by f_equal.
        -- eapply gt_trans; eassumption.
        -- intros e [-> | He]%elem_of_cons Hn; auto.
    + destruct (IH _ _ Hr) as [[-> Hall] | (pre & post & Hds & Hs & Hgt & Hpre & Hpost)].
      * left. split; [done|]. intros e [-> | He]%elem_of_cons; auto.
      * right. exists (d :: pre), post. repeat split; try done.
        -- simpl. by f_equal.
        -- intros e [-> | He]%elem_of_cons Hn; auto.
           destruct (gt_cotrans _ (sc d) _ Hgt Hn) as [Hx | Hx]; [done | congruence].
Qed.
End Argmax.

Lemma detect_loop_pick {F : Type} `{PyNum F} (lines : list text) (ds : list char)
    (st : char * F) :
  List.filter nonblank lines <> [] ->
  fold_left (detect_step lines) ds st
  = fold_left (pick (fun d => score_of (counts_of d lines))) ds st.
Proof.
  intros Hl. revert st. induction ds as [|d ds IH]; intros st; simpl; [done|].
  rewrite IH. f_equal. by apply detect_step_scored.
Qed.

(** When some line is not blank, [detect_delimiter] returns the first
    candidate of highest score if that score is above -1, and the tab if no
    score is; a candidate whose score is a NaN is passed over. *)
Lemma detect_delimiter_first_best {F : Type} `{PyNumLaws F} (sample : text) :
  has_nonblank_line sample = true ->
  let d := detect_delimiter (F:=F) sample in
  (d = Ch.tab /\
   forall e, e ∈ delims -> num_gt (candidate_score e sample) (of_int (-1)) = false)
  \/ (exists pre post,
        delims = pre ++ d :: post
        /\ num_gt (candidate_score d sample) (of_int (-1)) = true
        /\ (forall e, e ∈ pre -> is_nan (candidate_score e sample) = false ->
              num_gt (candidate_score d sample) (candidate_score e sample) = true)
        /\ (forall e, e ∈ post ->
              num_gt (candidate_score e sample) (candidate_score d sample) = false)).
Proof.
  intros Hnb d. subst d.
  unfold detect_delimiter, detect_loop, candidate_score.
  fold (sample_lines sample).
  rewrite detect_loop_pick by (by apply filter_nonblank_exists).
  destruct (pick_loop (fun d => score_of (counts_of d (sample_lines sample)))
              delims Ch.tab (of_int (-1)) _ eq_refl)
    as [[Hr Hall] | (pre & post & Hds & Hs & Hgt & Hpre & Hpost)].
  - left. by rewrite Hr.
  - right. exists pre, post. repeat split; done.
Qed.

(** The counts of a candidate that occurs in no kept line are all zero. *)
Lemma str_count_nonneg (d : char) (s : text) : 0 <= str_count d s.
Proof. induction s as [|c s IH]; simpl; [lia|]. destruct (N.eqb c d); lia. Qed.

Lemma counts_of_absent (d : char) (lines : list text) :
  existsb (fun line => 0 <? str_count d line) (List.filter nonblank lines) = false ->
  counts_of d lines = repeat 0 (length (List.filter nonblank lines)).
Proof.
  unfold counts_of. induction (List.filter nonblank lines) as [|l ls IH]; simpl; [done|].
  intros [Hl Hls]%orb_false_elim. rewrite IH by done. f_equal.
  pose proof (str_count_nonneg d l). lia.
Qed.

(** ** The order of binary64 *)

Lemma lex_cmp_Lt e1 m1 e2 m2 :
  lex_cmp e1 m1 e2 m2 = Lt <-> e1 < e2 \/ (e1 = e2 /\ (m1 < m2)%positive).
Proof.
  unfold lex_cmp. change (Pos.compare_cont Eq m1 m2) with (Pos.compare m1 m2).
  destruct (Z.compare_spec e1 e2); destruct (Pos.compare_spec m1 m2); split;
    try discriminate; try lia; intros; reflexivity.
Qed.

Lemma lex_cmp_Gt e1 m1 e2 m2 :
  lex_cmp e1 m1 e2 m2 = Gt <-> e2 < e1 \/ (e1 = e2 /\ (m2 < m1)%positive).
Proof.
  unfold lex_cmp. change (Pos.compare_cont Eq m1 m2) with (Pos.compare m1 m2).
  destruct (Z.compare_spec e1 e2); destruct (Pos.compare_spec m1 m2); split;
    try discriminate; try lia; intros; reflexivity.
Qed.

Lemma lex_cmp_opp_Lt e1 m1 e2 m2 :
  match Z.compare e1 e2 with
  | Lt => Gt
  | Gt => Lt
  | Eq => CompOpp (Pos.compare_cont Eq m1 m2)
  end = Lt <-> e2 < e1 \/ (e1 = e2 /\ (m2 < m1)%positive).
Proof.
  change (Pos.compare_cont Eq m1 m2) with (Pos.compare m1 m2).
  destruct (Z.compare_spec e1 e2); destruct (Pos.compare_spec m1 m2); cbn; split;
    try discriminate; try lia; intros; reflexivity.
Qed.

(** [SFltb] on two finite numbers, by their signs. *)
Lemma SFltb_finite s1 m1 e1 s2 m2 e2 :
  SFltb (S754_finite s1 m1 e1) (S754_finite s2 m2 e2) = true <->
  match s1, s2 with
  | true, false => True
  | false, true => False
  | false, false => e1 < e2 \/ (e1 = e2 /\ (m1 < m2)%positive)
  | true, true => e2 < e1 \/ (e1 = e2 /\ (m2 < m1)%positive)
  end.
Proof.
  unfold SFltb, SFcompare. destruct s1, s2.
  - rewrite <- lex_cmp_opp_Lt.
    destruct (match e1 ?= e2 with Lt => Gt | Gt => Lt | Eq => _ end); split; congruence.
  - split; auto.
  - split; [discriminate | tauto].
  - rewrite <- lex_cmp_Lt. fold (lex_cmp e1 m1 e2 m2).
    destruct (lex_cmp e1 m1 e2 m2); split; congruence.
Qed.

Lemma SFltb_irrefl x : SFltb x x = false.
Proof.
  destruct x as [[]|[]| |s m e]; try reflexivity.
  destruct (SFltb (S754_finite s m e) (S754_finite s m e)) eqn:H; [| reflexivity].
  apply SFltb_finite in H. destruct s; lia.
Qed.

Lemma SFltb_trans x y z :
  SFltb x y = true -> SFltb y z = true -> SFltb x z = true.
Proof.
  destruct x as [[]|[]| |sx mx ex], y as [[]|[]| |sy my ey], z as [[]|[]| |sz mz ez];
    try (cbn; congruence); try (destruct sx; cbn; congruence);
    try (destruct sy; cbn; congruence); try (destruct sz; cbn; congruence);
    try (destruct sx, sy; cbn; congruence); try (destruct sy, sz; cbn; congruence);
    try (destruct sx, sz; cbn; congruence).
  rewrite !SFltb_finite. destruct sx, sy, sz; lia.
Qed.

Lemma SFltb_cotrans x y z :
  y <> S754_nan ->
  SFltb z x = true -> SFltb y x = true \/ SFltb z y = true.
Proof.
  destruct x as [[]|[]| |sx mx ex], y as [[]|[]| |sy my ey], z as [[]|[]| |sz mz ez];
    intros Hy; try congruence;
    try (cbn; intuition congruence);
    try (destruct sx; cbn; intuition congruence);
    try (destruct sy; cbn; intuition congruence);
    try (destruct sz; cbn; intuition congruence);
    try (destruct sx, sy; cbn; intuition congruence);
    try (destruct sy, sz; cbn; intuition congruence);
    try (destruct sx, sz; cbn; intuition congruence).
  rewrite !SFltb_finite. destruct sx, sy, sz; lia.
Qed.

(** ** The conversion of a positive integer *)

Lemma digits2_pos_bounds (m : positive) :
  2 ^ (Zpos (digits2_pos m) - 1) <= Zpos m < 2 ^ Zpos (digits2_pos m).
Proof.
  induction m as [m IH | m IH |]; cbn [digits2_pos].
  - rewrite Pos2Z.inj_succ. replace (Z.succ (Zpos (digits2_pos m)) - 1)
      with (Z.succ (Zpos (digits2_pos m) - 1)) by lia.
    rewrite !Z.pow_succ_r by lia. lia.
  - rewrite Pos2Z.inj_succ. replace (Z.succ (Zpos (digits2_pos m)) - 1)
      with (Z.succ (Zpos (digits2_pos m) - 1)) by lia.
    rewrite !Z.pow_succ_r by lia. lia.
  - cbn. lia.
Qed.

Lemma shr_1_m (r : shr_record) :
  0 <= shr_m r -> shr_m (shr_1 r) = shr_m r / 2.
Proof.
  destruct r as [m r s]. cbn [shr_m]. intros Hm.
  destruct m as [|[p|p|]|p]; cbn [shr_1 shr_m].
  - reflexivity.
  - rewrite Pos2Z.inj_xI. apply Z.div_unique with (r := 1); lia.
  - rewrite Pos2Z.inj_xO. apply Z.div_unique with (r := 0); lia.
  - reflexivity.
  - lia.
Qed.

Lemma iter_pos_shr_m (k : positive) (r : shr_record) :
  0 <= shr_m r -> shr_m (SpecFloat.iter_pos shr_1 k r) = shr_m r / 2 ^ Zpos k.
Proof.
  revert r. induction k as [k IH | k IH |]; intros r Hr; cbn [SpecFloat.iter_pos].
  - assert (H1 : 0 <= shr_m (shr_1 r)) by (rewrite shr_1_m by lia; apply Z.div_pos; lia).
    assert (H2 : 0 <= shr_m (SpecFloat.iter_pos shr_1 k (shr_1 r)))
      by (rewrite IH by lia; apply Z.div_pos; lia).
    assert (Ha : 0 < 2 ^ Zpos k) by (apply Z.pow_pos_nonneg; lia).
    assert (Hp : 2 ^ Zpos k~1 = 2 * (2 ^ Zpos k * 2 ^ Zpos k)).
    { assert (Hk : Zpos k~1 = Zpos k + Zpos k + 1) by lia.
      rewrite Hk, !Z.pow_add_r by lia. change (2 ^ 1) with 2. ring. }
    rewrite IH, IH, shr_1_m, Hp by lia.
    rewrite !Z.div_div by lia. reflexivity.
  - assert (H2 : 0 <= shr_m (SpecFloat.iter_pos shr_1 k r))
      by (rewrite IH by lia; apply Z.div_pos; lia).
    assert (Ha : 0 < 2 ^ Zpos k) by (apply Z.pow_pos_nonneg; lia).
    assert (Hp : 2 ^ Zpos k~0 = 2 ^ Zpos k * 2 ^ Zpos k).
    { assert (Hk : Zpos k~0 = Zpos k + Zpos k) by lia.
      rewrite Hk, Z.pow_add_r by lia. ring. }
    rewrite IH, IH, Hp by lia. rewrite Z.div_div by lia. reflexivity.
  - rewrite shr_1_m by lia. reflexivity.
Qed.

Lemma digits2_iter_xO (m : positive) (p : positive) :
  digits2_pos (Pos.iter xO m p) = (digits2_pos m + p)%positive.
Proof.
  revert m. induction p using Pos.peano_ind; intros m.
  - change (Pos.iter xO m 1) with (m~0)%positive. cbn [digits2_pos]. lia.
  - rewrite Pos.iter_succ. cbn [digits2_pos]. rewrite IHp. lia.
Qed.

(** Rounding a mantissa of 53 or 54 bits at a non-negative exponent keeps it
    positive. *)
Lemma shr_fexp_small (q : positive) (e : Z) :
  - 52 <= e ->
  53 <= Zpos (digits2_pos q) <= 54 ->
  0 < shr_m (fst (shr_fexp prec emax (Zpos q) e loc_Exact)).
Proof.
  intros He Hd. unfold shr_fexp, shr, fexp, emin. cbn [Zdigits2 shr_record_of_loc].
  change prec with 53. change emax with 1024.
  replace (Z.max (Zpos (digits2_pos q) + e - 53) (3 - 1024 - 53) - e)
    with (Zpos (digits2_pos q) - 53) by lia.
  destruct (Zpos (digits2_pos q) - 53) as [|k|k] eqn:Hk; cbn [fst shr_m]; try lia.
  assert (k = 1%positive) by lia. subst k. cbn [SpecFloat.iter_pos].
  rewrite shr_1_m by (cbn; lia). cbn [shr_m].
  pose proof (digits2_pos_bounds q) as Hq.
  assert (Hpow : 2 ^ 52 <= 2 ^ (Zpos (digits2_pos q) - 1))
    by (apply Z.pow_le_mono_r; lia).
  apply Z.div_str_pos. change (2 ^ 52) with 4503599627370496 in Hpow. lia.
Qed.

Lemma binary_round_aux_pos (q : positive) (e : Z) (l : location) :
  - 52 <= e ->
  Zpos (digits2_pos q) = 53 \/ (0 <= e /\ 53 <= Zpos (digits2_pos q)) ->
  positive_sf (binary_round_aux prec emax false (Zpos q) e l).
Proof.
  intros He Hd. unfold binary_round_aux.
  (* the first shift *)
  assert (Hfirst : exists r1 e1,
             shr_fexp prec emax (Zpos q) e l = (r1, e1)
             /\ - 52 <= e1
             /\ 2 ^ 52 <= shr_m r1 < 2 ^ 53).
  { unfold shr_fexp, shr, fexp, emin. cbn [Zdigits2].
    change prec with 53. change emax with 1024.
    replace (Z.max (Zpos (digits2_pos q) + e - 53) (3 - 1024 - 53) - e)
      with (Zpos (digits2_pos q) - 53) by lia.
    pose proof (digits2_pos_bounds q) as Hq.
    destruct (Zpos (digits2_pos q) - 53) as [|k|k] eqn:Hk.
    - eexists _, _. split; [reflexivity |]. split; [lia |].
      replace (Zpos (digits2_pos q)) with 53 in Hq by lia.
      change (53 - 1) with 52 in Hq. destruct l as [|[]]; cbn [shr_record_of_loc shr_m]; lia.
    - eexists _, _. split; [reflexivity |]. split; [lia |].
      rewrite iter_pos_shr_m by (destruct l as [|[]]; cbn; lia).
      assert (Hm : shr_m (shr_record_of_loc (Zpos q) l) = Zpos q)
        by (destruct l as [|[]]; reflexivity).
      rewrite Hm.
      replace (Zpos (digits2_pos q)) with (Zpos k + 53) in Hq by lia.
      replace (Zpos k + 53 - 1) with (52 + Zpos k) in Hq by lia.
      replace (Zpos k + 53) with (53 + Zpos k) in Hq by lia.
      rewrite !Z.pow_add_r in Hq by lia.
      assert (0 < 2 ^ Zpos k) by (apply Z.pow_pos_nonneg; lia).
      split.
      + apply Z.div_le_lower_bound; lia.
      + apply Z.div_lt_upper_bound; lia.
    - lia. }
  destruct Hfirst as (r1 & e1 & -> & He1 & Hr1).
  (* rounding to nearest *)
  set (m2 := round_nearest_even (shr_m r1) (loc_of_shr_record r1)).
  assert (Hm2 : 2 ^ 52 <= m2 <= 2 ^ 53).
  { unfold m2, round_nearest_even.
    destruct (loc_of_shr_record r1) as [|[]]; try destruct (Z.even (shr_m r1)); lia. }
  destruct m2 as [|q2|q2] eqn:Hq2; [change (2 ^ 52) with 4503599627370496 in Hm2; lia | | lia].
  assert (Hd2 : 53 <= Zpos (digits2_pos q2) <= 54).
  { pose proof (digits2_pos_bounds q2) as Hb. split.
    - destruct (Z.lt_ge_cases (Zpos (digits2_pos q2)) 53) as [Hlt | Hge]; [| lia].
      assert (2 ^ Zpos (digits2_pos q2) <= 2 ^ 52) by (apply Z.pow_le_mono_r; lia). lia.
    - destruct (Z.lt_ge_cases 54 (Zpos (digits2_pos q2))) as [Hlt | Hge]; [| lia].
      assert (2 ^ 54 <= 2 ^ (Zpos (digits2_pos q2) - 1)) by (apply Z.pow_le_mono_r; lia).
      change (2 ^ 54) with (2 * 2 ^ 53) in H. lia. }
  pose proof (shr_fexp_small q2 e1 He1 Hd2) as Hpos.
  destruct (shr_fexp prec emax (Zpos q2) e1 loc_Exact) as [r3 e3]. cbn [fst] in Hpos.
  destruct (shr_m r3) as [|q3|q3]; try lia.
  destruct (e3 <=? emax - prec); exact I.
Qed.

Lemma binary_round_pos (m : positive) :
  positive_sf (binary_round prec emax false m 0).
Proof.
  unfold binary_round, shl_align, fexp, emin.
  change prec with 53. change emax with 1024.
  replace (Z.max (Zpos (digits2_pos m) + 0 - 53) (3 - 1024 - 53) - 0)
    with (Zpos (digits2_pos m) - 53) by lia.
  destruct (Zpos (digits2_pos m) - 53) as [|k|k] eqn:Hk.
  - apply (binary_round_aux_pos m 0); lia.
  - apply (binary_round_aux_pos m 0); lia.
  - replace (Z.max (Zpos (digits2_pos m) + 0 - 53) (3 - 1024 - 53))
      with (Zpos (digits2_pos m) - 53) by lia.
    apply binary_round_aux_pos; [lia |]. left.
    rewrite digits2_iter_xO. lia.
Qed.

Lemma of_uint63_pos (n : int) :
  0 < to_Z n -> positive_sf (Prim2SF (of_uint63 n)).
Proof.
  intros Hn. rewrite of_uint63_spec. destruct (to_Z n) as [|m|m]; try lia.
  apply binary_round_pos.
Qed.

(** Zero divided by a positive number is zero. *)
Lemma zero_div_pos (y : float) :
  positive_sf (Prim2SF y) -> (0 / y)%float = 0%float.
Proof.
  intros Hy. apply Prim2SF_inj. rewrite FloatAxioms.div_spec.
  change (Prim2SF 0) with (S754_zero false).
  destruct (Prim2SF y) as [[]|[]| |[] ? ?]; try (destruct Hy; fail); reflexivity.
Qed.

(** ** binary64 satisfies the laws *)

Lemma sum_Z_zeros (n : nat) : sum_Z (repeat 0 n) = 0.
Proof. unfold sum_Z. induction n as [|n IH]; simpl; [done|]. exact IH. Qed.

Lemma float_of_Z_pos (z : Z) :
  0 < z < 2 ^ 53 -> positive_sf (Prim2SF (float_of_Z z)).
Proof.
  intros Hz. unfold float_of_Z.
  assert (Hneg : (z <? 0) = false) by (apply Z.ltb_ge; lia). rewrite Hneg.
  apply of_uint63_pos. rewrite Uint63.of_Z_spec.
  assert (Hw : 2 ^ 53 < wB) by reflexivity.
  rewrite Z.mod_small; lia.
Qed.

Lemma float_is_nan_spec (x : float) :
  PrimFloat.is_nan x = true <-> Prim2SF x = S754_nan.
Proof.
  unfold PrimFloat.is_nan. rewrite negb_true_iff, FloatAxioms.eqb_spec.
  unfold SFeqb. destruct (Prim2SF x) as [[]|[]| |s m e]; cbn; try (split; congruence).
  destruct s; rewrite Z.compare_refl; change (Pos.compare_cont Eq m m) with (Pos.compare m m);
    rewrite Pos.compare_refl; cbn; split; congruence.
Qed.

Lemma float_var_zeros (sqr : float -> float) (n : nat) :
  sqr 0%float = 0%float ->
  fold_left (fun acc c => PrimFloat.add acc (sqr (PrimFloat.sub (float_of_Z c) 0%float)))
            (repeat 0 n) 0%float = 0%float.
Proof.
  intros Hsqr. induction n as [|n IH]; cbn [repeat fold_left]; [done |].
  change (PrimFloat.sub (float_of_Z 0) 0%float) with 0%float. rewrite Hsqr.
  change (PrimFloat.add 0%float 0%float) with 0%float. exact IH.
Qed.

(** The laws hold of binary64 whatever [pow(x, 2.0)] gives off zero; that
    [pow(0, 2.0)] is 0 is required of every libm by C's Annex F. *)
Lemma float_with_laws (sqr : float -> float) :
  sqr 0%float = 0%float -> @PyNumLaws float (float_with sqr) float_nan.
Proof.
  intros Hsqr. split.
  - intros x. cbn [num_gt float_with]. rewrite FloatAxioms.ltb_spec. apply SFltb_irrefl.
  - intros x y z. cbn [num_gt float_with]. rewrite !FloatAxioms.ltb_spec.
    intros Hxy Hyz. by apply (SFltb_trans _ _ _ Hyz Hxy).
  - intros x y z. cbn [num_gt float_with is_nan float_nan].
    rewrite !FloatAxioms.ltb_spec. intros Hxz Hy.
    apply SFltb_cotrans; [| done].
    intros Hnan%float_is_nan_spec. congruence.
  - intros x y Hx. cbn [num_gt float_with is_nan float_nan] in *.
    apply float_is_nan_spec in Hx. rewrite !FloatAxioms.ltb_spec, Hx.
    split; [| reflexivity]. unfold SFltb, SFcompare. by destruct (Prim2SF y).
  - intros n Hn. unfold score_of, var_of, mean_of. rewrite sum_Z_zeros.
    unfold len. rewrite repeat_length.
    cbn [of_int num_div num_sub num_add num_sqr float_with].
    change (float_of_Z 0) with 0%float.
    rewrite (zero_div_pos (float_of_Z (Z.of_nat (S n)))) by (apply float_of_Z_pos; lia).
    pose proof (float_var_zeros sqr (S n) Hsqr) as Hvar.
    change (float_of_Z 0) with 0%float in Hvar. rewrite Hvar.
    rewrite (zero_div_pos (float_of_Z (Z.of_nat (S n)))) by (apply float_of_Z_pos; lia).
    reflexivity.
  - reflexivity.
Qed.

#[export] Instance float_laws : PyNumLaws float := float_with_laws _ eq_refl.

(** ** Claims about [detect_delimiter] *)

(** C1: the claim is that, on a sample with a non-blank line, the candidate of
    strictly highest score is returned.  On the sample below every score is
    at most -1, the initial [best_score]: the tab (score -6) is returned
    although the semicolon scores -2.  Evaluated in binary64 and in exact
    rationals. *)
Theorem detect_delimiter_keeps_default_below_minus_one :
  let s := py "x\t\t\t\t\t\t;;;;,,,,||||    y\nz" in
  has_nonblank_line s = true
  /\ detect_delimiter (F:=float) s = Ch.tab
  /\ map (fun d => candidate_score (F:=float) d s) delims
     = [(-6)%float; (-2)%float; (-2)%float; (-2)%float; (-2)%float]
  /\ num_gt (candidate_score (F:=float) Ch.semicolon s)
            (candidate_score (F:=float) Ch.tab s) = true
  /\ detect_delimiter (F:=Q) s = Ch.tab
  /\ map (fun d => candidate_score (F:=Q) d s) delims
     = [(-6)%Q; (-2)%Q; (-2)%Q; (-2)%Q; (-2)%Q].
Proof. vm_compute. repeat split; reflexivity. Qed.

(** C2, as stated, fails: on this sample the semicolon is returned although
    it occurs in no line (the tab scores -3/4, the semicolon 0). *)
Lemma detect_delimiter_returns_absent_semicolon :
  let s := py "a\t\t\tb\nc" in
  ~ (has_nonblank_line s = true ->
     occurs_in_sample (detect_delimiter (F:=float) s) s = true
     \/ detect_delimiter (F:=float) s = Ch.tab).
Proof.
  cbv zeta. intros Hc.
  destruct (Hc eq_refl) as [Ho | Ht].
  - vm_compute in Ho. discriminate.
  - vm_compute in Ht. discriminate.
Qed.

(** C2, amended: when the sample has a non-blank line, no candidate is
    skipped; with fewer than 2^53 non-blank lines, the delimiter returned
    occurs in a non-blank line, or is the tab, or scores 0 while every
    candidate tried before it scores below 0 or has a NaN for its score.
    Holds of binary64 ([float_with_laws]). *)
Theorem detect_delimiter_absent_candidate {F : Type} `{PyNumLaws F} (sample : text) :
  has_nonblank_line sample = true ->
  len (List.filter nonblank (sample_lines sample)) < 2 ^ 53 ->
  let d := detect_delimiter (F:=F) sample in
  (forall e, counts_of e (sample_lines sample) <> [])
  /\ (occurs_in_sample d sample = true
      \/ d = Ch.tab
      \/ (candidate_score (F:=F) d sample = of_int 0
          /\ exists pre post,
               delims = pre ++ d :: post
               /\ forall e, e ∈ pre ->
                    is_nan (candidate_score (F:=F) e sample) = false ->
                    num_gt (of_int 0) (candidate_score (F:=F) e sample) = true)).
Proof.
  intros Hnb Hsize d. pose proof (filter_nonblank_exists _ Hnb) as Hne. split.
  - intros e. unfold counts_of.
    destruct (List.filter nonblank (sample_lines sample)); done.
  - destruct (occurs_in_sample d sample) eqn:Hocc; [by left | right].
    destruct (detect_delimiter_first_best sample Hnb)
      as [[Ht _] | (pre & post & Hds & _ & Hpre & _)]; [by left | right].
    fold d in Hds, Hpre.
    assert (Hz : candidate_score (F:=F) d sample = of_int 0).
    { unfold candidate_score. rewrite (counts_of_absent _ _ Hocc).
      unfold len in Hsize.
      destruct (List.filter nonblank (sample_lines sample)); [done|].
      by apply zero_score. }
    split; [done|]. exists pre, post. split; [done|].
    intros e He Hn. rewrite <- Hz. by apply Hpre.
Qed.

Lemma detect_delimiter_absent_candidate_witness :
  let s := py "a\t\t\tb\nc" in
  (has_nonblank_line s = true
   /\ len (List.filter nonblank (sample_lines s)) < 2 ^ 53)
  /\ ((forall e, counts_of e (sample_lines s) <> [])
      /\ (occurs_in_sample (detect_delimiter (F:=float) s) s = true
          \/ detect_delimiter (F:=float) s = Ch.tab
          \/ (candidate_score (F:=float) (detect_delimiter (F:=float) s) s = of_int 0
              /\ exists pre post,
                   delims = pre ++ detect_delimiter (F:=float) s :: post
                   /\ forall e, e ∈ pre ->
                        is_nan (candidate_score (F:=float) e s) = false ->
                        num_gt (of_int 0) (candidate_score (F:=float) e s) = true))).
Proof.
  cbv zeta. split; [split; [reflexivity | by vm_compute] |].
  apply (detect_delimiter_absent_candidate (F:=float)); [reflexivity | by vm_compute].
Defined.

(** ** Running the monad *)

Lemma bind_run {S A B} (m : ST S A) (k : A -> ST S B) (s : S) :
  (m ≫= k) s =
    match m s with
    | (Ret a, s') => k a s'
    | (Raise e, s') => (Raise e, s')
    | (Exit c, s') => (Exit c, s')
    end.
Proof. reflexivity. Qed.

Lemma pair_eq_inv {A B} (a a' : A) (b b' : B) :
  (a, b) = (a', b') -> a = a' /\ b = b'.
Proof. by intros [= -> ->]. Qed.

Lemma print_run (args : list text) (w : world) :
  print args w = (Ret tt, {| fs := fs w; stdout := stdout w ++ [join_with [Ch.space] args];
                             calls := calls w |}).
Proof. reflexivity. Qed.

Lemma sys_exit_run {S A} (c : Z) (s : S) : sys_exit (A:=A) c s = (Exit c, s).
Proof. reflexivity. Qed.

Lemma lift_fs_run {A} (c : FS A) (w : world) :
  lift_fs c w = ((c (fs w)).1,
                 {| fs := (c (fs w)).2; stdout := stdout w; calls := calls w |}).
Proof. unfold lift_fs. by destruct (c (fs w)). Qed.

Lemma os_path_exists_run (p : path) (m : fsmap) :
  os_path_exists p m = (Ret (match m !! p with Some _ => true | None => false end), m).
Proof. reflexivity. Qed.

Lemma no_exit_ret {S A} (a : A) : no_exit (ret (S:=S) a).
Proof. by intros s c. Qed.

Lemma no_exit_raise {S A} (e : exn) : no_exit (raise (S:=S) (A:=A) e).
Proof. by intros s c. Qed.

Lemma no_exit_get {S} : no_exit (get_state (S:=S)).
Proof. by intros s c. Qed.

Lemma no_exit_put {S} (s0 : S) : no_exit (put_state s0).
Proof. by intros s c. Qed.

Lemma no_exit_bind {S A B} (m : ST S A) (k : A -> ST S B) :
  no_exit m -> (forall a, no_exit (k a)) -> no_exit (m ≫= k).
Proof.
  intros Hm Hk s c. rewrite bind_run. specialize (Hm s).
  destruct (m s) as [[a | e | c'] s1]; simpl in *; [apply Hk | done | by destruct (Hm c')].
Qed.

Ltac no_exit_step :=
  match goal with
  | |- no_exit (_ ≫= _) => apply no_exit_bind; [| intros ?]
  | |- no_exit (ret _) => apply no_exit_ret
  | |- no_exit (raise _) => apply no_exit_raise
  | |- no_exit get_state => apply no_exit_get
  | |- no_exit (put_state _) => apply no_exit_put
  | |- no_exit (match ?x with _ => _ end) => destruct x
  end.

Lemma no_exit_open_maybe_gzip p : no_exit (open_maybe_gzip p).
Proof. unfold open_maybe_gzip, open_read. repeat no_exit_step. Qed.

Lemma no_exit_read_bytes rt f : no_exit (read_bytes rt f).
Proof. unfold read_bytes. repeat no_exit_step. Qed.

Lemma no_exit_read_text rt f : no_exit (read_text rt f).
Proof.
  unfold read_text. apply no_exit_bind; [apply no_exit_read_bytes | intros; apply no_exit_ret].
Qed.

Lemma no_exit_open_write rt p : no_exit (open_write rt p).
Proof. unfold open_write. repeat no_exit_step. Qed.

Lemma no_exit_write_text p s : no_exit (write_text p s).
Proof. unfold write_text. repeat no_exit_step. Qed.

Lemma no_exit_read_preview rt p n : no_exit (read_preview rt p n).
Proof.
  unfold read_preview. apply no_exit_bind; [apply no_exit_open_maybe_gzip | intros f].
  apply no_exit_bind; [apply no_exit_read_text | intros; apply no_exit_ret].
Qed.

Lemma no_exit_convert_with_pandas rt i o d c : no_exit (convert_with_pandas rt i o d c).
Proof.
  unfold convert_with_pandas, import_pandas, pandas_open.
  apply no_exit_bind; [repeat no_exit_step | intros pd].
  apply no_exit_bind.
  { apply no_exit_bind; [apply no_exit_open_maybe_gzip | intros; apply no_exit_read_bytes]. }
  intros b. apply no_exit_bind; [repeat no_exit_step | intros df].
  apply no_exit_bind; [apply no_exit_open_write | intros fout].
  apply no_exit_bind; [apply no_exit_write_text | intros; apply no_exit_ret].
Qed.

Lemma no_exit_convert_fallback rt i o d c : no_exit (convert_fallback rt i o d c).
Proof.
  unfold convert_fallback.
  apply no_exit_bind; [apply no_exit_open_maybe_gzip | intros fin].
  apply no_exit_bind; [apply no_exit_open_write | intros fout].
  apply no_exit_bind; [apply no_exit_read_text | intros t].
  destruct (copy_rows d c (file_lines t)) as [out err].
  apply no_exit_bind; [apply no_exit_write_text | intros _].
  destruct err; [apply no_exit_raise | apply no_exit_ret].
Qed.

Lemma ret_run {S A} (a : A) (s : S) : ret a s = (Ret a, s).
Proof. reflexivity. Qed.

Lemma raise_run {S A} (e : exn) (s : S) : raise (A:=A) e s = (Raise e, s).
Proof. reflexivity. Qed.

(** ** File operations, step by step *)

Lemma open_maybe_gzip_run (p : path) (b : bytes) (m : fsmap) :
  m !! p = Some (File b) ->
  open_maybe_gzip p m = (Ret {| r_path := p; r_gzip := endswith gz_suffix p |}, m).
Proof.
  intros Hp. unfold open_maybe_gzip.
  destruct (endswith gz_suffix p); unfold open_read; rewrite bind_run;
    unfold get_state; cbv beta iota; by rewrite Hp.
Qed.


Lemma read_bytes_run (rt : runtime) (p : path) (b : bytes) (m : fsmap) :
  m !! p = Some (File b) ->
  read_bytes rt {| r_path := p; r_gzip := endswith gz_suffix p |} m =
    (match logical rt p b with
     | Some b' => Ret b'
     | None => Raise (Exn BadGzipFile p)
     end, m).
Proof.
  intros Hp. unfold read_bytes, logical. rewrite bind_run. unfold get_state. cbv beta iota.
  cbn [r_path r_gzip]. rewrite Hp.
  destruct (endswith gz_suffix p); [| done]. by destruct (gunzip rt b).
Qed.

Lemma read_text_run (rt : runtime) (p : path) (b : bytes) (m : fsmap) :
  m !! p = Some (File b) ->
  read_text rt {| r_path := p; r_gzip := endswith gz_suffix p |} m =
    (match logical rt p b with
     | Some b' => Ret (universal_newlines (utf8_decode b'))
     | None => Raise (Exn BadGzipFile p)
     end, m).
Proof.
  intros Hp. unfold read_text. rewrite bind_run, (read_bytes_run _ _ _ _ Hp).
  by destruct (logical rt p b).
Qed.

Lemma read_preview_run (rt : runtime) (p : path) (n : nat) (b : bytes) (m : fsmap) :
  m !! p = Some (File b) ->
  read_preview rt p n m =
    (match logical rt p b with
     | Some b' => Ret (concat (take n (file_lines (universal_newlines (utf8_decode b')))))
     | None => Raise (Exn BadGzipFile p)
     end, m).
Proof.
  intros Hp. unfold read_preview.
  rewrite bind_run, (open_maybe_gzip_run _ _ _ Hp), bind_run, (read_text_run _ _ _ _ Hp).
  by destruct (logical rt p b).
Qed.

Lemma open_write_run (rt : runtime) (p : path) (m : fsmap) :
  m !! p <> Some Dir -> writable rt p = true ->
  open_write rt p m = (Ret p, <[p := File []]> m).
Proof.
  intros Hd Hw. unfold open_write. rewrite bind_run. unfold get_state. cbv beta iota.
  destruct (m !! p) as [[b|]|]; try done; by rewrite Hw.
Qed.

Lemma write_text_run (p : path) (s : text) (b : bytes) (m : fsmap) :
  utf8_encode s = Some b ->
  write_text p s m = (Ret tt, <[p := File b]> m).
Proof. intros Hs. unfold write_text. by rewrite Hs. Qed.

(** [convert_fallback] on an input that is not the output: the output file
    holds what the loop wrote, also when the reader stops on an error. *)
Lemma convert_fallback_run (rt : runtime) (inp out : path) (d c : char)
    (b bs : bytes) (m : fsmap) :
  m !! inp = Some (File b) -> inp <> out ->
  m !! out <> Some Dir -> writable rt out = true ->
  logical rt inp b = Some bs ->
  convert_fallback rt inp out d c m =
    let '(txt, err) := copy_rows d c (file_lines (universal_newlines (utf8_decode bs))) in
    match utf8_encode txt with
    | Some ob =>
        (match err with Some e => Raise e | None => Ret tt end,
         <[out := File ob]> (<[out := File []]> m))
    | None => (Raise (Exn UnicodeEncodeError out), <[out := File []]> m)
    end.
Proof.
  intros Hin Hne Hout Hw Hlog. unfold convert_fallback.
  rewrite bind_run, (open_maybe_gzip_run _ _ _ Hin).
  rewrite bind_run, (open_write_run _ _ _ Hout Hw).
  assert (Hin' : <[out := File []]> m !! inp = Some (File b))
    by (by rewrite lookup_insert_ne).
  rewrite bind_run, (read_text_run _ _ _ _ Hin'), Hlog.
  destruct (copy_rows d c (file_lines (universal_newlines (utf8_decode bs))))
    as [txt err].
  rewrite bind_run. unfold write_text.
  destruct (utf8_encode txt) as [ob|]; [| done].
  rewrite bind_run. unfold get_state, put_state. cbv beta iota.
  by destruct err.
Qed.

Lemma open_write_cases (rt : runtime) (p : path) (m : fsmap) :
  open_write rt p m = (Ret p, <[p := File []]> m)
  \/ exists e, open_write rt p m = (Raise e, m).
Proof.
  unfold open_write. rewrite bind_run. unfold get_state. cbv beta iota.
  repeat case_match; first [left; reflexivity | right; eexists; reflexivity].
Qed.


Lemma keeps_ret {S A} (a : A) : keeps_state (ret (S:=S) a).
Proof. by intros s. Qed.

Lemma keeps_raise {S A} (e : exn) : keeps_state (raise (S:=S) (A:=A) e).
Proof. by intros s. Qed.

Lemma keeps_get {S} : keeps_state (get_state (S:=S)).
Proof. by intros s. Qed.

Lemma keeps_bind {S A B} (m : ST S A) (k : A -> ST S B) :
  keeps_state m -> (forall a, keeps_state (k a)) -> keeps_state (m ≫= k).
Proof.
  intros Hm Hk s. rewrite bind_run. specialize (Hm s).
  destruct (m s) as [[a | e | c'] s1]; simpl in *; subst; [apply Hk | done | done].
Qed.

Ltac keeps_step :=
  match goal with
  | |- keeps_state (_ ≫= _) => apply keeps_bind; [| intros ?]
  | |- keeps_state (ret _) => apply keeps_ret
  | |- keeps_state (raise _) => apply keeps_raise
  | |- keeps_state get_state => apply keeps_get
  | |- keeps_state (match ?x with _ => _ end) => destruct x
  end.

Lemma keeps_open_maybe_gzip p : keeps_state (open_maybe_gzip p).
Proof. unfold open_maybe_gzip, open_read. repeat keeps_step. Qed.

Lemma keeps_read_bytes rt f : keeps_state (read_bytes rt f).
Proof. unfold read_bytes. repeat keeps_step. Qed.

Lemma keeps_pandas_open rt i : keeps_state (pandas_open rt i).
Proof.
  unfold pandas_open.
  apply keeps_bind; [apply keeps_open_maybe_gzip | intros; apply keeps_read_bytes].
Qed.

Lemma keeps_import_pandas rt : keeps_state (import_pandas rt).
Proof. unfold import_pandas. repeat keeps_step. Qed.



Lemma keeps_read_text rt f : keeps_state (read_text rt f).
Proof.
  unfold read_text. apply keeps_bind; [apply keeps_read_bytes | intros; apply keeps_ret].
Qed.

Lemma keeps_read_preview rt p n : keeps_state (read_preview rt p n).
Proof.
  unfold read_preview. apply keeps_bind; [apply keeps_open_maybe_gzip | intros f].
  apply keeps_bind; [apply keeps_read_text | intros; apply keeps_ret].
Qed.

(** ** The control flow of [main] *)

(** What [convert] does, by the outcomes of the two conversion functions:
    [m1] is the file system after the structured path, [m2] after the
    fallback path. *)
Lemma convert_run (rt : runtime) (inpath outpath : path) (delim : char) (w : world) :
  let cwp := convert_with_pandas rt inpath outpath delim comment_char (fs w) in
  let cfb := convert_fallback rt inpath outpath delim comment_char cwp.2 in
  convert rt inpath outpath delim w =
    match cwp.1 with
    | Ret df =>
        (Ret tt,
         {| fs := cwp.2;
            stdout := stdout w ++ [Msg.trying; Msg.wrote_frame outpath df];
            calls := calls w ++ [(Structured, true)] |})
    | Exit c =>
        (Exit c,
         {| fs := cwp.2; stdout := stdout w ++ [Msg.trying];
            calls := calls w ++ [(Structured, false)] |})
    | Raise e =>
        match cfb.1 with
        | Ret _ =>
            (Ret tt,
             {| fs := cfb.2;
                stdout := stdout w ++ [Msg.trying;
                            join_with [Ch.space] [Msg.pandas_failed; exn_msg e];
                            join_with [Ch.space] [Msg.wrote; outpath]];
                calls := calls w ++ [(Structured, false); (Fallback, true)] |})
        | Raise e2 =>
            (Exit 3,
             {| fs := cfb.2;
                stdout := stdout w ++ [Msg.trying;
                            join_with [Ch.space] [Msg.pandas_failed; exn_msg e];
                            join_with [Ch.space] [Msg.fallback_failed; exn_msg e2]];
                calls := calls w ++ [(Structured, false); (Fallback, false)] |})
        | Exit c =>
            (Exit c,
             {| fs := cfb.2;
                stdout := stdout w ++ [Msg.trying;
                            join_with [Ch.space] [Msg.pandas_failed; exn_msg e]];
                calls := calls w ++ [(Structured, false); (Fallback, false)] |})
        end
    end.
Proof.
  cbv zeta. unfold convert, try_except.
  rewrite bind_run, print_run, bind_run. unfold attempt at 1.
  rewrite lift_fs_run. cbn [fs stdout calls].
  destruct (convert_with_pandas rt inpath outpath delim comment_char (fs w))
    as [[df | e | c] m1]; cbn [fst snd].
  - rewrite print_run. cbn [fs stdout calls]. by rewrite <- app_assoc.
  - rewrite bind_run, print_run, bind_run. unfold attempt.
    rewrite lift_fs_run. cbn [fs stdout calls].
    destruct (convert_fallback rt inpath outpath delim comment_char m1)
      as [[[] | e2 | c2] m2]; cbn [fst snd].
    + rewrite print_run. cbn [fs stdout calls]. by rewrite <- !app_assoc.
    + rewrite bind_run, print_run, sys_exit_run. cbn [fs stdout calls].
      by rewrite <- !app_assoc.
    + by rewrite <- !app_assoc.
  - reflexivity.
Qed.

Lemma convert_shape (rt : runtime) (inpath outpath : path) (delim : char) (w : world)
    (r : outcome unit) (w' : world) :
  calls w = [] ->
  convert rt inpath outpath delim w = (r, w') ->
  run_shape r (calls w').
Proof.
  intros Hw. rewrite convert_run. cbv zeta.
  pose proof (no_exit_convert_with_pandas rt inpath outpath delim comment_char (fs w)) as Hx1.
  destruct (convert_with_pandas rt inpath outpath delim comment_char (fs w))
    as [[df | e | c] m1]; cbn [fst snd] in *.
  - intros [<- <-]%pair_eq_inv. cbn [calls]. rewrite Hw. constructor.
  - pose proof (no_exit_convert_fallback rt inpath outpath delim comment_char m1) as Hx2.
    destruct (convert_fallback rt inpath outpath delim comment_char m1)
      as [[[] | e2 | c2] m2]; cbn [fst snd] in *.
    + intros [<- <-]%pair_eq_inv. cbn [calls]. rewrite Hw. constructor.
    + intros [<- <-]%pair_eq_inv. cbn [calls]. rewrite Hw. constructor.
    + by destruct (Hx2 c2).
  - by destruct (Hx1 c).
Qed.

(** What [main] does once the arguments are there and the input exists. *)
Lemma main_run {F : Type} `{PyNum F} (rt : runtime) (argv : list text) (m : fsmap) :
  (len argv <? 3) = false ->
  is_Some (m !! nth 1 argv []) ->
  main (F:=F) rt argv (boot m) =
    match read_preview rt (nth 1 argv []) 20 m with
    | (Ret sample, m1) =>
        convert rt (nth 1 argv []) (nth 2 argv []) (detect_delimiter (F:=F) sample)
          {| fs := m1;
             stdout := [Msg.preview;
                        if truthy sample then sample else Msg.file_empty;
                        Msg.detected ++ repr_char (detect_delimiter (F:=F) sample)];
             calls := [] |}
    | (Raise e, m1) => (Raise e, {| fs := m1; stdout := []; calls := [] |})
    | (Exit c, m1) => (Exit c, {| fs := m1; stdout := []; calls := [] |})
    end.
Proof.
  intros Hlen [nd Hnd]. unfold main. rewrite Hlen. cbv zeta.
  rewrite bind_run, lift_fs_run, os_path_exists_run. cbn [fst snd boot fs stdout calls].
  match goal with
  | |- context [negb (match ?x with Some _ => true | None => false end)] =>
      replace x with (Some nd) by (symmetry; exact Hnd)
  end.
  unfold negb. cbv iota.
  rewrite bind_run, lift_fs_run. cbn [fs stdout calls].
  destruct (read_preview rt (nth 1 argv []) 20 m) as [[sample | e | c] m1];
    cbn [fst snd]; [| done | done].
  rewrite bind_run, print_run. rewrite bind_run, print_run. rewrite bind_run, print_run.
  reflexivity.
Qed.

Lemma main_shape {F : Type} `{PyNum F} (rt : runtime) (argv : list text)
    (m : fsmap) (r : outcome unit) (w' : world) :
  main (F:=F) rt argv (boot m) = (r, w') ->
  run_shape r (calls w').
Proof.
  destruct (len argv <? 3) eqn:Hlen.
  { unfold main. rewrite Hlen, bind_run, print_run, sys_exit_run.
    intros [<- <-]%pair_eq_inv. constructor. }
  destruct (m !! nth 1 argv []) as [nd|] eqn:Hnd.
  2: { unfold main. rewrite Hlen. cbv zeta.
       rewrite bind_run, lift_fs_run, os_path_exists_run. cbn [fst snd boot fs].
       match goal with
       | |- context [negb (match ?x with Some _ => true | None => false end)] =>
           replace x with (@None node) by (symmetry; exact Hnd)
       end.
       unfold negb. cbv iota. rewrite bind_run, print_run, sys_exit_run.
       intros [<- <-]%pair_eq_inv. constructor. }
  rewrite main_run by (done || by eexists).
  pose proof (no_exit_read_preview rt (nth 1 argv []) 20 m) as Hx.
  destruct (read_preview rt (nth 1 argv []) 20 m) as [[sample | e | c] m1];
    cbn [fst snd] in Hx.
  - by apply convert_shape.
  - intros [<- <-]%pair_eq_inv. constructor.
  - by destruct (Hx c).
Qed.

Lemma len_three {A} (a b c : A) (rest : list A) : (len (a :: b :: c :: rest) <? 3) = false.
Proof. apply Z.ltb_ge. unfold len. cbn [length]. lia. Qed.

Lemma main_run3 {F : Type} `{PyNum F} (rt : runtime) (prog inp out : path)
    (rest : list text) (nd : node) (m : fsmap) :
  m !! inp = Some nd ->
  main (F:=F) rt (prog :: inp :: out :: rest) (boot m) =
    match read_preview rt inp 20 m with
    | (Ret sample, m1) =>
        convert rt inp out (detect_delimiter (F:=F) sample)
          {| fs := m1;
             stdout := [Msg.preview;
                        if truthy sample then sample else Msg.file_empty;
                        Msg.detected ++ repr_char (detect_delimiter (F:=F) sample)];
             calls := [] |}
    | (Raise e, m1) => (Raise e, {| fs := m1; stdout := []; calls := [] |})
    | (Exit c, m1) => (Exit c, {| fs := m1; stdout := []; calls := [] |})
    end.
Proof.
  intros Hnd. rewrite main_run; [done | apply len_three | by exists nd].
Qed.


(** C4: once [main] has read the preview, it runs the structured path.  If
    that returns, the fallback path is not run.  If it raises, the exception
    does not leave [main]: its message is printed and [convert_fallback] is
    run once, on the file system the failed attempt left; [main] then
    returns if the fallback returned and ends with [sys.exit(3)] if it
    raised.  So the exit status is 3 exactly when both conversion functions
    raise; a run that stops before the conversions never ends with 3. *)
Theorem main_falls_back_once {F : Type} `{PyNum F} (rt : runtime) (argv : list text)
    (m : fsmap) :
  let inp := nth 1 argv [] in
  let out := nth 2 argv [] in
  let '(r, w') := main (F:=F) rt argv (boot m) in
  match (len argv <? 3), m !! inp, read_preview rt inp 20 m with
  | false, Some _, (Ret sample, _) =>
      let d := detect_delimiter (F:=F) sample in
      let '(r1, m1) := convert_with_pandas rt inp out d comment_char m in
      let '(r2, m2) := convert_fallback rt inp out d comment_char m1 in
      match r1 with
      | Ret _ =>
          r = Ret tt /\ fs w' = m1 /\ calls w' = [(Structured, true)]
      | Raise e =>
          join_with [Ch.space] [Msg.pandas_failed; exn_msg e] ∈ stdout w'
          /\ fs w' = m2
          /\ match r2 with
             | Ret _ => r = Ret tt /\ calls w' = [(Structured, false); (Fallback, true)]
             | _ => r = Exit 3 /\ calls w' = [(Structured, false); (Fallback, false)]
             end
      | Exit _ => False
      end
      /\ (exit_status r = 3 <-> is_ret r1 = false /\ is_ret r2 = false)
  | _, _, _ => calls w' = [] /\ fs w' = m /\ exit_status r <> 3
  end.
Proof.
  cbv zeta. destruct (len argv <? 3) eqn:Hlen.
  { unfold main. rewrite Hlen, bind_run, print_run, sys_exit_run. by cbn. }
  destruct (m !! nth 1 argv []) as [nd|] eqn:Hnd.
  2: { unfold main. rewrite Hlen. cbv zeta.
       rewrite bind_run, lift_fs_run, os_path_exists_run. cbn [fst snd boot fs].
       match goal with
       | |- context [negb (match ?x with Some _ => true | None => false end)] =>
           replace x with (@None node) by (symmetry; exact Hnd)
       end.
       unfold negb. cbv iota. rewrite bind_run, print_run, sys_exit_run. by cbn. }
  rewrite main_run by (done || by eexists).
  pose proof (keeps_read_preview rt (nth 1 argv []) 20 m) as Hk.
  pose proof (no_exit_read_preview rt (nth 1 argv []) 20 m) as Hx.
  destruct (read_preview rt (nth 1 argv []) 20 m) as [[sample | e | c] m0];
    cbn [fst snd] in Hk, Hx; subst m0; [| by cbn | by destruct (Hx c)].
  rewrite convert_run. cbv zeta. cbn [fs calls stdout].
  set (d := detect_delimiter sample).
  pose proof (no_exit_convert_with_pandas rt (nth 1 argv []) (nth 2 argv []) d comment_char m)
    as Hx1.
  destruct (convert_with_pandas rt (nth 1 argv []) (nth 2 argv []) d comment_char m)
    as [[df | e | c] m1]; cbn [fst snd] in *; [| | by destruct (Hx1 c)].
  - destruct (convert_fallback rt (nth 1 argv []) (nth 2 argv []) d comment_char m1)
      as [r2 m2].
    cbn [fs calls exit_status is_ret]. split; [done |]. split; [done | by intros []].
  - pose proof (no_exit_convert_fallback rt (nth 1 argv []) (nth 2 argv []) d comment_char m1)
      as Hx2.
    destruct (convert_fallback rt (nth 1 argv []) (nth 2 argv []) d comment_char m1)
      as [[[] | e2 | c2] m2]; cbn [fst snd] in *; [| | by destruct (Hx2 c2)];
      cbn [fs calls stdout exit_status is_ret].
    + split; [| split; [done | by intros []]].
      split; [| done]. apply elem_of_app. right.
      apply list_elem_of_further, list_elem_of_here.
    + split; [| done].
      split; [| done]. apply elem_of_app. right.
      apply list_elem_of_further, list_elem_of_here.
Qed.

(** C9, as stated, fails: with a third positional argument the argument
    count is wrong, yet the run goes on and ends with status 0. *)
Lemma main_accepts_extra_argument :
  let argv := [py "rtab_to_csv.py"; py "in.rtab"; py "out.csv"; py "extra"] in
  let m : fsmap := {[ py "in.rtab" := File (ascii_bytes "a\tb\n1\t2\n") ]} in
  ~ (len argv - 1 <> 2 -> exit_status (main (F:=float) rt_pandas argv (boot m)).1 = 1).
Proof.
  cbv zeta. intros Hc.
  assert (Hn : len [py "rtab_to_csv.py"; py "in.rtab"; py "out.csv"; py "extra"] - 1 <> 2)
    by (vm_compute; discriminate).
  specialize (Hc Hn). vm_compute in Hc. discriminate.
Qed.

(** C9, amended: the exit status is 1 when fewer than two positional
    arguments are given (further ones are ignored), 2 when the input path
    does not exist, and 0 whenever one of the two conversion paths
    returned. *)
Theorem main_exit_status {F : Type} `{PyNum F} (rt : runtime) (argv : list text)
    (m : fsmap) :
  let '(r, w') := main (F:=F) rt argv (boot m) in
  (len argv < 3 -> exit_status r = 1)
  /\ (3 <= len argv -> m !! nth 1 argv [] = None -> exit_status r = 2)
  /\ (forall p, (p, true) ∈ calls w' -> exit_status r = 0).
Proof.
  destruct (main (F:=F) rt argv (boot m)) as [r w'] eqn:Hrun.
  split; [| split].
  - intros Hlt. unfold main in Hrun.
    destruct (len argv <? 3) eqn:Hb; [| lia].
    rewrite bind_run, print_run, sys_exit_run in Hrun.
    by apply pair_eq_inv in Hrun as [<- _].
  - intros Hge Hnone. unfold main in Hrun.
    destruct (len argv <? 3) eqn:Hb; [lia |].
    cbv zeta in Hrun. rewrite bind_run, lift_fs_run, os_path_exists_run in Hrun.
    cbn [fst snd boot fs] in Hrun.
    match type of Hrun with
    | context [negb (match ?x with Some _ => true | None => false end)] =>
        destruct x as [nd|] eqn:Hx
    end.
    { assert (Habs : Some nd = None) by (etrans; [symmetry; exact Hx | exact Hnone]).
      discriminate. }
    unfold negb in Hrun. cbv iota in Hrun.
    rewrite bind_run, print_run, sys_exit_run in Hrun.
    by apply pair_eq_inv in Hrun as [<- _].
  - intros p Hin. apply main_shape in Hrun.
    destruct Hrun; try done;
      repeat (apply elem_of_cons in Hin as [[=] | Hin]); by apply elem_of_nil in Hin.
Qed.

Lemma main_exit_status_witness :
  let argv := [py "rtab_to_csv.py"; py "in.rtab"] in
  len argv < 3 /\ exit_status (main (F:=float) rt_pandas argv (boot ∅)).1 = 1.
Proof.
  cbv zeta. split; [vm_compute; reflexivity |].
  pose proof (main_exit_status (F:=float) rt_pandas [py "rtab_to_csv.py"; py "in.rtab"] ∅) as Hm.
  destruct (main (F:=float) rt_pandas [py "rtab_to_csv.py"; py "in.rtab"] (boot ∅)) as [r w'].
  destruct Hm as [H1 _]. apply H1. vm_compute. reflexivity.
Defined.

(** ** Gzip transparency *)

Section Gzip.
Variable rt : runtime.
Variables (p pgz out : path) (b z : bytes).
Hypothesis Hplain : endswith gz_suffix p = false.
Hypothesis Hgz : endswith gz_suffix pgz = true.
Hypothesis Hcopy : gunzip rt z = Some b.

Lemma logical_plain : logical rt p b = Some b.
Proof. unfold logical. by rewrite Hplain. Qed.

Lemma logical_gz : logical rt pgz z = Some b.
Proof. unfold logical. by rewrite Hgz. Qed.

Lemma read_preview_gz (n : nat) (m : fsmap) :
  m !! p = Some (File b) -> m !! pgz = Some (File z) ->
  read_preview rt p n m = read_preview rt pgz n m.
Proof.
  intros Hp Hz.
  by rewrite (read_preview_run _ _ _ _ _ Hp), (read_preview_run _ _ _ _ _ Hz),
    logical_plain, logical_gz.
Qed.

Lemma pandas_open_gz (m : fsmap) :
  m !! p = Some (File b) -> m !! pgz = Some (File z) ->
  pandas_open rt p m = pandas_open rt pgz m.
Proof.
  intros Hp Hz. unfold pandas_open.
  by rewrite !bind_run, (open_maybe_gzip_run _ _ _ Hp), (open_maybe_gzip_run _ _ _ Hz),
    (read_bytes_run _ _ _ _ Hp), (read_bytes_run _ _ _ _ Hz), logical_plain, logical_gz.
Qed.

Lemma convert_with_pandas_gz (d c : char) (m : fsmap) :
  m !! p = Some (File b) -> m !! pgz = Some (File z) ->
  convert_with_pandas rt p out d c m = convert_with_pandas rt pgz out d c m.
Proof.
  intros Hp Hz. unfold convert_with_pandas. rewrite !bind_run.
  destruct (import_pandas rt m) as [[pd | e | code] m0] eqn:Himp; [| done | done].
  assert (m0 = m) as ->.
  { unfold import_pandas in Himp. destruct (pandas rt); by inversion Himp. }
  rewrite !bind_run. by rewrite (pandas_open_gz _ Hp Hz).
Qed.

Lemma convert_fallback_gz (d c : char) (m : fsmap) :
  out <> p -> out <> pgz ->
  m !! p = Some (File b) -> m !! pgz = Some (File z) ->
  convert_fallback rt p out d c m = convert_fallback rt pgz out d c m.
Proof.
  intros Hop Hoz Hp Hz. unfold convert_fallback.
  rewrite !bind_run, (open_maybe_gzip_run _ _ _ Hp), (open_maybe_gzip_run _ _ _ Hz).
  rewrite !bind_run.
  destruct (open_write_cases rt out m) as [-> | [e ->]]; [| done].
  rewrite !bind_run.
  rewrite (read_text_run rt p b), (read_text_run rt pgz z)
    by (by rewrite lookup_insert_ne).
  by rewrite logical_plain, logical_gz.
Qed.

(** The conversion functions write to [out] and nowhere else. *)
Lemma convert_with_pandas_frame (i : path) (d c : char) (m : fsmap) (q : path) :
  q <> out -> (convert_with_pandas rt i out d c m).2 !! q = m !! q.
Proof.
  intros Hq. unfold convert_with_pandas. rewrite bind_run.
  pose proof (keeps_import_pandas rt m) as Himp.
  destruct (import_pandas rt m) as [[pd | e | code] m0]; cbn [snd] in Himp; subst m0;
    [| done | done].
  rewrite bind_run.
  pose proof (keeps_pandas_open rt i m) as Hopen.
  destruct (pandas_open rt i m) as [[bi | e | code] m0]; cbn [snd] in Hopen; subst m0;
    [| done | done].
  rewrite bind_run. destruct (read_csv pd bi d c) as [e | df]; [done |].
  unfold ret at 1. cbv beta iota. rewrite bind_run.
  destruct (open_write_cases rt out m) as [-> | [e ->]]; [| done].
  rewrite bind_run. unfold write_text.
  destruct (utf8_encode _) as [ob|].
  - rewrite bind_run. unfold get_state, put_state. cbv beta iota. cbn [snd ret].
    by rewrite !lookup_insert_ne.
  - cbn [snd raise]. by rewrite lookup_insert_ne.
Qed.
End Gzip.

(** C5, as stated, fails when the output path is the plain input itself:
    without pandas, the fallback path empties the file before it reads it, so
    converting the plain file leaves an empty output while converting the
    gzip copy to the same path writes the two records. *)
Lemma gzip_copy_differs_when_output_is_input :
  let content := ascii_bytes "a\tb\n1\t2\n" in
  let m : fsmap := {[ py "t.rtab" := File content;
                      py "t.rtab.gz" := File (Codec.compress content) ]} in
  let run inp := main (F:=float) rt_bare [py "rtab_to_csv.py"; inp; py "t.rtab"] (boot m) in
  gunzip rt_bare (Codec.compress content) = Some content
  /\ read_preview rt_bare (py "t.rtab") 20 m = read_preview rt_bare (py "t.rtab.gz") 20 m
  /\ fs (run (py "t.rtab")).2 !! py "t.rtab" = Some (File [])
  /\ fs (run (py "t.rtab.gz")).2 !! py "t.rtab" = Some (File (ascii_bytes "a,b\r\n1,2\r\n"))
  /\ fs (run (py "t.rtab")).2 !! py "t.rtab" <> fs (run (py "t.rtab.gz")).2 !! py "t.rtab".
Proof. vm_compute. repeat split; try reflexivity. discriminate. Qed.

(** C5, amended: for a plain file and a gzip copy of it under a name that
    ends in [.gz], converted to an output path that is neither of the two,
    the runs of [main] end alike, with the same preview (hence the same
    delimiter), the same outcome and the same files. *)
Theorem gzip_transparent {F : Type} `{PyNum F} (rt : runtime)
    (prog p pgz out : path) (rest : list text) (b z : bytes) (m : fsmap) :
  endswith gz_suffix p = false ->
  endswith gz_suffix pgz = true ->
  m !! p = Some (File b) ->
  m !! pgz = Some (File z) ->
  gunzip rt z = Some b ->
  out <> p -> out <> pgz ->
  read_preview rt p 20 m = read_preview rt pgz 20 m
  /\ main (F:=F) rt (prog :: p :: out :: rest) (boot m)
     = main (F:=F) rt (prog :: pgz :: out :: rest) (boot m).
Proof.
  intros Hplain Hgz Hp Hz Hcopy Hop Hoz.
  pose proof (read_preview_gz rt p pgz b z Hplain Hgz Hcopy 20 m Hp Hz) as Hprev.
  split; [done |].
  rewrite (main_run3 rt prog p out rest _ m Hp), (main_run3 rt prog pgz out rest _ m Hz).
  rewrite <- Hprev.
  pose proof (keeps_read_preview rt p 20 m) as Hk.
  destruct (read_preview rt p 20 m) as [[sample | e | c] m1]; cbn [snd] in Hk; subst m1;
    [| done | done].
  rewrite !convert_run. cbv zeta. cbn [fs].
  rewrite <- (convert_with_pandas_gz rt p pgz out b z Hplain Hgz Hcopy _ _ m Hp Hz).
  pose proof (convert_with_pandas_frame rt out p (detect_delimiter sample) comment_char m) as Hfr.
  destruct (convert_with_pandas rt p out (detect_delimiter sample) comment_char m)
    as [[df | e | c] m1]; cbn [fst snd] in *; [done | | done].
  rewrite <- (convert_fallback_gz rt p pgz out b z Hplain Hgz Hcopy _ _ m1 Hop Hoz).
  - done.
  - rewrite Hfr by done. exact Hp.
  - rewrite Hfr by done. exact Hz.
Qed.

Lemma gzip_transparent_witness :
  let content := ascii_bytes "a\tb\n1\t2\n" in
  let m : fsmap := {[ py "t.rtab" := File content;
                      py "t.rtab.gz" := File (Codec.compress content) ]} in
  let argv inp := [py "rtab_to_csv.py"; inp; py "out.csv"] in
  (endswith gz_suffix (py "t.rtab") = false
   /\ endswith gz_suffix (py "t.rtab.gz") = true
   /\ py "out.csv" <> py "t.rtab" /\ py "out.csv" <> py "t.rtab.gz")
  /\ (read_preview rt_pandas (py "t.rtab") 20 m = read_preview rt_pandas (py "t.rtab.gz") 20 m
      /\ main (F:=float) rt_pandas (argv (py "t.rtab")) (boot m)
         = main (F:=float) rt_pandas (argv (py "t.rtab.gz")) (boot m)).
Proof.
  cbv zeta. split; [repeat split; by vm_compute |].
  apply (gzip_transparent (F:=float) rt_pandas _ _ _ _ []
           (ascii_bytes "a\tb\n1\t2\n") (Codec.compress (ascii_bytes "a\tb\n1\t2\n")));
    try reflexivity; by vm_compute.
Defined.

(** ** The empty input file *)


Section EmptyInput.
Variable rt : runtime.
Variables (inp out : path).
Hypothesis Hgunzip : endswith gz_suffix inp = true -> gunzip rt [] = Some [].
Hypothesis Hwritable : writable rt out = true.

Lemma logical_empty : logical rt inp [] = Some [].
Proof. unfold logical. destruct (endswith gz_suffix inp); auto. Qed.

Lemma convert_fallback_empty (d c : char) (m : fsmap) :
  m !! inp = Some (File []) -> m !! out <> Some Dir ->
  convert_fallback rt inp out d c m
  = (Ret tt, <[out := File []]> (<[out := File []]> m)).
Proof.
  intros Hin Hout. unfold convert_fallback.
  rewrite bind_run, (open_maybe_gzip_run _ _ _ Hin).
  rewrite bind_run, (open_write_run _ _ _ Hout Hwritable).
  assert (Hin' : <[out := File []]> m !! inp = Some (File [])).
  { destruct (decide (out = inp)) as [-> | Hne];
      [apply lookup_insert_eq | by rewrite lookup_insert_ne]. }
  rewrite bind_run, (read_text_run _ _ _ _ Hin'), logical_empty.
  reflexivity.
Qed.

Lemma convert_with_pandas_empty (d c : char) (m : fsmap) :
  m !! inp = Some (File []) -> m !! out <> Some Dir ->
  (exists pd df0 content,
      pandas rt = Some pd /\ read_csv pd [] d c = inr df0
      /\ utf8_encode (to_csv pd {| df_columns := map strip_label (df_columns df0);
                                   df_rows := df_rows df0 |}) = Some content
      /\ convert_with_pandas rt inp out d c m
         = (Ret {| df_columns := map strip_label (df_columns df0);
                   df_rows := df_rows df0 |},
            <[out := File content]> (<[out := File []]> m)))
  \/ (exists e, convert_with_pandas rt inp out d c m = (Raise e, m))
  \/ (exists e, convert_with_pandas rt inp out d c m = (Raise e, <[out := File []]> m)).
Proof.
  intros Hin Hout. unfold convert_with_pandas, import_pandas.
  destruct (pandas rt) as [pd|] eqn:Hpd.
  2: { right. left. eexists. reflexivity. }
  rewrite bind_run, ret_run. unfold pandas_open.
  rewrite !bind_run, (open_maybe_gzip_run _ _ _ Hin), (read_bytes_run _ _ _ _ Hin),
    logical_empty.
  destruct (read_csv pd [] d c) as [e | df0] eqn:Hread.
  { right. left. exists e. by rewrite bind_run, raise_run. }
  rewrite bind_run, ret_run.
  rewrite bind_run, (open_write_run _ _ _ Hout Hwritable).
  rewrite bind_run. unfold write_text.
  destruct (utf8_encode _) as [content|] eqn:Henc.
  - left. exists pd, df0, content. repeat split; try done.
  - right. right. eexists. reflexivity.
Qed.
End EmptyInput.

(** C8: on an empty input file the run ends with status 0 whatever pandas
    does: the preview prints "(file empty)", the tab is detected, and the
    output file is written, either empty by the fallback path or, when the
    structured path returns, as the rendering of a frame without rows.
    Assumed of the runtime: the output can be written, an empty file named
    [.gz] reads as empty, pandas finds no row in no data. *)
Theorem main_empty_input {F : Type} `{PyNum F} (rt : runtime)
    (prog inp out : path) (rest : list text) (m : fsmap) :
  m !! inp = Some (File []) ->
  (endswith gz_suffix inp = true -> gunzip rt [] = Some []) ->
  m !! out <> Some Dir ->
  writable rt out = true ->
  (forall pd df, pandas rt = Some pd ->
                 read_csv pd [] Ch.tab comment_char = inr df -> df_rows df = []) ->
  let '(r, w') := main (F:=F) rt (prog :: inp :: out :: rest) (boot m) in
  exit_status r = 0
  /\ take 3 (stdout w')
     = [Msg.preview; Msg.file_empty; Msg.detected ++ repr_char Ch.tab]
  /\ exists content,
       fs w' !! out = Some (File content)
       /\ (content = []
           \/ exists pd df,
                pandas rt = Some pd /\ df_rows df = []
                /\ utf8_encode (to_csv pd df) = Some content).
Proof.
  intros Hin Hgunzip Hout Hwritable Hrows.
  rewrite (main_run3 rt prog inp out rest _ m Hin).
  rewrite (read_preview_run _ _ _ _ _ Hin), (logical_empty rt inp Hgunzip).
  change (concat (take 20 (file_lines (universal_newlines (utf8_decode []))))) with (@nil char).
  change (detect_delimiter (F:=F) []) with Ch.tab.
  cbn [truthy]. rewrite convert_run. cbv zeta. cbn [fs stdout calls].
  assert (Hfb : forall m1, m1 = m \/ m1 = <[out := File []]> m ->
     convert_fallback rt inp out Ch.tab comment_char m1
     = (Ret tt, <[out := File []]> (<[out := File []]> m1))).
  { intros m1 [-> | ->]; apply convert_fallback_empty; try done.
    - destruct (decide (out = inp)) as [-> | Hne];
        [apply lookup_insert_eq | by rewrite lookup_insert_ne].
    - by rewrite lookup_insert_eq. }
  destruct (convert_with_pandas_empty rt inp out Hgunzip Hwritable Ch.tab comment_char m Hin Hout)
    as [(pd & df0 & content & Hpd & Hread & Henc & ->) | [[e ->] | [e ->]]];
    cbn [fst snd].
  - split; [done |]. split; [done |]. exists content. cbn [fs].
    split; [apply lookup_insert_eq |]. right.
    exists pd, {| df_columns := map strip_label (df_columns df0); df_rows := df_rows df0 |}.
    repeat split; try done. cbn [df_rows]. by eapply Hrows.
  - rewrite Hfb by auto. cbn [fst snd]. split; [done |]. split; [done |].
    exists []. cbn [fs]. split; [apply lookup_insert_eq | by left].
  - rewrite Hfb by auto. cbn [fst snd]. split; [done |]. split; [done |].
    exists []. cbn [fs]. split; [apply lookup_insert_eq | by left].
Qed.

Lemma main_empty_input_witness :
  let m : fsmap := {[ py "in.rtab" := File [] ]} in
  (m !! py "in.rtab" = Some (File [])
   /\ m !! py "out.csv" <> Some Dir
   /\ writable rt_pandas (py "out.csv") = true)
  /\ let '(r, w') := main (F:=float) rt_pandas
                       [py "rtab_to_csv.py"; py "in.rtab"; py "out.csv"] (boot m) in
     exit_status r = 0
     /\ take 3 (stdout w')
        = [Msg.preview; Msg.file_empty; Msg.detected ++ repr_char Ch.tab]
     /\ exists content,
          fs w' !! py "out.csv" = Some (File content)
          /\ (content = []
              \/ exists pd df,
                   pandas rt_pandas = Some pd /\ df_rows df = []
                   /\ utf8_encode (to_csv pd df) = Some content).
Proof.
  cbv zeta. split; [repeat split; vm_compute; congruence |].
  apply (main_empty_input (F:=float) rt_pandas).
  - reflexivity.
  - reflexivity.
  - vm_compute. congruence.
  - reflexivity.
  - intros pd df [= <-]. vm_compute. discriminate.
Defined.

(** C3: the claim is that a line whose first non-whitespace character is
    [#] gives no record.  With the tab as delimiter the line [\t#c] is read
    as the row of an empty field and [#c]; the test looks at the first
    field only, so the fallback path writes the record [,#c]. *)
Theorem fallback_keeps_comment_behind_delimiter :
  let line := py "\t#c\n" in
  let m : fsmap := {[ py "in.rtab" := File (ascii_bytes "a\tb\n\t#c\n") ]} in
  let '(r, w') := main (F:=float) rt_bare
                    [py "rtab_to_csv.py"; py "in.rtab"; py "out.csv"] (boot m) in
  startswith_char comment_char (lstrip line) = true
  /\ file_lines (py "a\tb\n\t#c\n") = [py "a\tb\n"; line]
  /\ detect_delimiter (F:=float) (py "a\tb\n\t#c\n") = Ch.tab
  /\ Csv.reader Ch.tab [line] = ([[ []; py "#c" ]], None)
  /\ calls w' = [(Structured, false); (Fallback, true)]
  /\ exit_status r = 0
  /\ fs w' !! py "out.csv" = Some (File (ascii_bytes "a,b\r\n,#c\r\n")).
Proof. vm_compute. repeat split; reflexivity. Qed.

(** C6: on the input of the scenario the tab is detected, the structured
    path (pandas as the specification describes it) writes
    [a,b,c / 1,2,3 / 4,5,6] with line-feed ends, and [main] reports 2 rows
    and 3 columns. *)
Theorem tab_table_scenario :
  let input := "a\tb\tc\n1\t2\t3\n4\t5\t6\n"%string in
  let m : fsmap := {[ py "in.rtab" := File (ascii_bytes input) ]} in
  let '(r, w') := main (F:=float) rt_pandas
                    [py "rtab_to_csv.py"; py "in.rtab"; py "out.csv"] (boot m) in
  detect_delimiter (F:=float) (py input) = Ch.tab
  /\ fs w' !! py "out.csv" = Some (File (ascii_bytes "a,b,c\n1,2,3\n4,5,6\n"))
  /\ stdout w' = [Msg.preview; py input; py "Detected delimiter: '\\t'"; Msg.trying;
                  py "Wrote out.csv with 2 rows and 3 columns."]
  /\ calls w' = [(Structured, true)]
  /\ exit_status r = 0.
Proof. vm_compute. repeat split; reflexivity. Qed.

(** ** The reader on lines without quotes *)



Section Reader.
Variable d : char.


Lemma process_plain (rs : Csv.reader_state) (c : char) :
  in_record rs -> is_plain c = true ->
  (N.of_nat (length (Csv.field rs)) < Csv.field_limit)%N ->
  exists rs',
    Csv.parse_process_char d rs (Some c) = inr rs'
    /\ in_record rs'
    /\ (forall s, Csv.fields rs' ++ split_on_from d (Csv.field rs') s
                  = Csv.fields rs ++ split_on_from d (Csv.field rs) (c :: s))
    /\ (length (Csv.field rs') <= S (length (Csv.field rs)))%nat.
Proof.
  intros [Hst Hlen] Hc Hlim. unfold is_plain in Hc.
  apply andb_prop in Hc as [Hnl Hq]. apply negb_true_iff in Hnl, Hq.
  destruct rs as [st fl f n]. cbn [Csv.state Csv.field Csv.fields Csv.field_len] in *. subst n.
  assert (Hadd : (Csv.field_limit <=? N.of_nat (length f))%N = false) by (apply N.leb_gt; lia).
  unfold Csv.parse_process_char. cbn [Csv.state].
  destruct Hst as [[-> ->] | ->]; cbn [split_on_from]; rewrite Hnl.
  - rewrite Hq. destruct (N.eqb c d) eqn:Hcd.
    + eexists. split; [reflexivity |]. unfold in_record, Csv.parse_save_field.
      cbn [Csv.state Csv.field Csv.fields Csv.field_len length]. repeat split; auto.
      intros s. by rewrite <- app_assoc.
    + unfold Csv.parse_add_char. cbn [Csv.field_len Csv.field Csv.fields Csv.state]. rewrite Hadd.
      eexists. split; [reflexivity |]. unfold in_record, Csv.set_state.
      cbn [Csv.state Csv.field Csv.fields Csv.field_len length app]. repeat split; auto.
  - destruct (N.eqb c d) eqn:Hcd.
    + eexists. split; [reflexivity |]. unfold in_record, Csv.set_state, Csv.parse_save_field.
      cbn [Csv.state Csv.field Csv.fields Csv.field_len length]. repeat split; auto; try lia.
      intros s. by rewrite <- app_assoc.
    + unfold Csv.parse_add_char. cbn [Csv.field_len Csv.field Csv.fields Csv.state]. rewrite Hadd.
      eexists. split; [reflexivity |]. unfold in_record.
      cbn [Csv.state Csv.field Csv.fields Csv.field_len]. rewrite length_app. cbn [length].
      repeat split; auto; lia.
Qed.

Lemma feed_chars_plain (body : text) (rs : Csv.reader_state) :
  in_record rs -> forallb is_plain body = true ->
  (N.of_nat (length (Csv.field rs) + length body) <= Csv.field_limit)%N ->
  exists rs',
    Csv.feed_chars d rs body = inr rs'
    /\ in_record rs'
    /\ Csv.fields rs' ++ [Csv.field rs'] = Csv.fields rs ++ split_on_from d (Csv.field rs) body.
Proof.
  revert rs. induction body as [|c body IH]; intros rs Hrs Hbody Hlim.
  - exists rs. split; [done | split; [done | reflexivity]].
  - cbn [forallb] in Hbody. apply andb_prop in Hbody as [Hc Hbody].
    cbn [length] in Hlim.
    destruct (process_plain rs c Hrs Hc) as (rs1 & Hstep & Hrs1 & Hsplit & Hlen); [lia |].
    destruct (IH rs1 Hrs1 Hbody) as (rs' & Hfeed & Hrs' & Hfields); [lia |].
    exists rs'. cbn [Csv.feed_chars]. rewrite Hstep. split; [done | split; [done |]].
    by rewrite Hfields, Hsplit.
Qed.

Lemma feed_chars_app (rs : Csv.reader_state) (a b : text) :
  Csv.feed_chars d rs (a ++ b) =
    match Csv.feed_chars d rs a with
    | inl e => inl e
    | inr rs' => Csv.feed_chars d rs' b
    end.
Proof.
  revert rs. induction a as [|c a IH]; intros rs; cbn [app Csv.feed_chars]; [done |].
  destruct (Csv.parse_process_char d rs (Some c)); [done | apply IH].
Qed.


(** The end of a line, with or without its line feed, closes the record. *)
Lemma end_of_record (rs : Csv.reader_state) :
  in_record rs ->
  Csv.feed_line d rs [Ch.lf] = inr (record_done (Csv.fields rs ++ [Csv.field rs]))
  /\ Csv.parse_process_char d rs None = inr (record_done (Csv.fields rs ++ [Csv.field rs])).
Proof.
  intros [Hst _]. destruct rs as [st fl f n]. cbn [Csv.state Csv.field Csv.fields] in *.
  destruct Hst as [[-> ->] | ->]; by split.
Qed.

(** From the start of a record, a plain first character opens a field. *)
Lemma start_record_plain (c : char) :
  is_plain c = true ->
  Csv.parse_process_char d Csv.parse_reset (Some c)
  = Csv.parse_process_char d (Csv.set_state Csv.START_FIELD Csv.parse_reset) (Some c).
Proof.
  intros Hc. unfold is_plain in Hc. apply andb_prop in Hc as [Hnl _].
  apply negb_true_iff in Hnl. unfold Csv.parse_process_char.
  cbn [Csv.state Csv.parse_reset Csv.set_state].
  by rewrite Hnl.
Qed.

Lemma feed_body (body : text) :
  body <> [] -> forallb is_plain body = true ->
  (N.of_nat (length body) <= Csv.field_limit)%N ->
  exists rs,
    Csv.feed_chars d Csv.parse_reset body = inr rs
    /\ in_record rs
    /\ Csv.fields rs ++ [Csv.field rs] = split_on d body.
Proof.
  intros Hne Hbody Hlim. destruct body as [|c body]; [done |].
  cbn [forallb] in Hbody. pose proof Hbody as [Hc _]%andb_prop.
  destruct (feed_chars_plain (c :: body) (Csv.set_state Csv.START_FIELD Csv.parse_reset))
    as (rs & Hfeed & Hrs & Hfields); try done.
  { split; [by left | done]. }
  exists rs. split; [| split; [done | done]].
  cbn [Csv.feed_chars] in *. by rewrite start_record_plain.
Qed.

Lemma chomp_snoc (body : text) : chomp (body ++ [Ch.lf]) = body.
Proof. unfold chomp. rewrite rev_app_distr. cbn. apply rev_involutive. Qed.

Lemma chomp_cases (l : text) : l = chomp l ++ [Ch.lf] \/ chomp l = l.
Proof.
  unfold chomp. destruct (rev l) as [|c r] eqn:Hrev; [by right |].
  destruct (N.eqb c Ch.lf) eqn:Hc; [left | by right].
  apply N.eqb_eq in Hc as ->.
  by rewrite <- (rev_involutive l), Hrev.
Qed.

Lemma feed_line_simple (l : text) :
  simple_line l = true ->
  Csv.feed_line d Csv.parse_reset l = inr (record_done (line_fields d l)).
Proof.
  unfold simple_line, line_fields.
  intros [[Hne Hplain]%andb_prop Hlim]%andb_prop. apply N.leb_le in Hlim.
  destruct (chomp_cases l) as [Hl | Hl].
  - destruct (chomp l) as [|c body] eqn:Hbody.
    + rewrite Hl. reflexivity.
    + destruct (feed_body (c :: body)) as (rs & Hfeed & Hrs & Hfields); try done.
      rewrite Hl. unfold Csv.feed_line. rewrite feed_chars_app, Hfeed.
      destruct (end_of_record rs Hrs) as [Hend _].
      unfold Csv.feed_line in Hend. by rewrite Hend, Hfields.
  - rewrite Hl in *. destruct l as [|c body]; [done |].
    destruct (feed_body (c :: body)) as (rs & Hfeed & Hrs & Hfields); try done.
    unfold Csv.feed_line. rewrite Hfeed.
    destruct (end_of_record rs Hrs) as [_ Hend]. by rewrite Hend, Hfields.
Qed.

(** On simple lines the reader yields one row per line. *)
Lemma reader_simple (lines : list text) :
  forallb simple_line lines = true ->
  Csv.reader d lines = (map (line_fields d) lines, None).
Proof.
  unfold Csv.reader. induction lines as [|l lines IH]; [done |].
  cbn [forallb]. intros [Hl Hlines]%andb_prop.
  cbn [Csv.reader_from map]. rewrite (feed_line_simple l Hl). cbn [Csv.state record_done].
  by rewrite (IH Hlines).
Qed.
End Reader.

(** ** The lines of a file *)

Lemma forallb_Forall {A} (f : A -> bool) (l : list A) :
  forallb f l = true <-> Forall (fun x => f x = true) l.
Proof.
  induction l as [|x l IH]; cbn [forallb]; [by split |].
  rewrite andb_true_iff, Forall_cons. by rewrite IH.
Qed.

Lemma chomp_Forall (P : char -> Prop) (l : text) : Forall P l -> Forall P (chomp l).
Proof.
  intros Hl. destruct (chomp_cases l) as [Heq | ->]; [| done].
  rewrite Heq in Hl. by apply Forall_app in Hl as [? _].
Qed.

Lemma chomp_length (l : text) : (length (chomp l) <= length l)%nat.
Proof.
  destruct (chomp_cases l) as [Heq | ->]; [| done].
  rewrite Heq at 2. rewrite length_app. lia.
Qed.

Lemma chomp_no_lf (l : text) :
  Forall (fun c => c <> Ch.lf) l -> chomp l = l.
Proof.
  intros Hl. destruct (chomp_cases l) as [Heq | Heq]; [| done].
  rewrite Heq in Hl. apply Forall_app in Hl as [_ Hlf].
  by apply Forall_cons in Hlf as [Hlf _].
Qed.

Lemma file_lines_from_chars (P : char -> Prop) (cur s : text) :
  Forall P cur -> Forall P s -> Forall (Forall P) (file_lines_from cur s).
Proof.
  revert cur. induction s as [|c s IH]; intros cur Hcur Hs; cbn [file_lines_from].
  - destruct cur; [constructor | constructor; [done | constructor]].
  - apply Forall_cons in Hs as [Hc Hs].
    assert (Hcur' : Forall P (cur ++ [c])) by (apply Forall_app; auto).
    destruct (N.eqb c Ch.lf); [constructor |]; auto.
Qed.

Lemma file_lines_from_shape (cur s : text) :
  Forall (fun c => c <> Ch.lf) cur ->
  Forall (fun l => l <> [] /\ Forall (fun c => c <> Ch.lf) (chomp l))
         (file_lines_from cur s).
Proof.
  revert cur. induction s as [|c s IH]; intros cur Hcur; cbn [file_lines_from].
  - destruct cur as [|x cur]; [constructor |].
    constructor; [| constructor]. split; [done | by rewrite chomp_no_lf].
  - destruct (N.eqb c Ch.lf) eqn:Hc.
    + apply N.eqb_eq in Hc as ->. constructor; [| by apply IH].
      split; [by destruct cur | by rewrite chomp_snoc].
    + apply N.eqb_neq in Hc. apply IH. apply Forall_app; auto.
Qed.

(** Universal newlines leave no carriage return, and bring in no character
    but the line feed. *)
Lemma universal_newlines_chars (P : char -> Prop) (s : text) :
  P Ch.lf -> Forall P s -> Forall P (universal_newlines s).
Proof.
  intros Hlf. assert (Hboth : forall s, (Forall P s -> Forall P (universal_newlines s))
                        /\ forall c, Forall P (c :: s) -> Forall P (universal_newlines (c :: s))).
  { clear s. induction s as [|c' s [IH1 IH2]]; split.
    - done.
    - intros c [Hc _]%Forall_cons. cbn. destruct (N.eqb c Ch.cr); by repeat constructor.
    - apply IH2.
    - intros c [Hc Hs]%Forall_cons. cbn [universal_newlines].
      destruct (N.eqb c Ch.cr).
      + constructor; [done |]. destruct (N.eqb c' Ch.lf); [| by apply IH2].
        apply Forall_cons in Hs as [_ Hs]. by apply IH1.
      + constructor; [done | by apply IH2]. }
  apply Hboth.
Qed.

Lemma universal_newlines_no_cr (s : text) :
  Forall (fun c => c <> Ch.cr) (universal_newlines s).
Proof.
  assert (Hboth : forall s, Forall (fun c => c <> Ch.cr) (universal_newlines s)
                  /\ forall c, Forall (fun c => c <> Ch.cr) (universal_newlines (c :: s))).
  { clear s. induction s as [|c' s [IH1 IH2]]; split.
    - constructor.
    - intros c. cbn. destruct (N.eqb c Ch.cr) eqn:Hc; repeat constructor; try done.
      by apply N.eqb_neq in Hc.
    - apply IH2.
    - intros c. cbn [universal_newlines]. destruct (N.eqb c Ch.cr) eqn:Hc.
      + constructor; [done |]. destruct (N.eqb c' Ch.lf); [apply IH1 | apply IH2].
      + constructor; [by apply N.eqb_neq in Hc | apply IH2]. }
  apply Hboth.
Qed.

(** The lines of a text without quotes are simple, if none is too long. *)
Lemma file_lines_simple (t0 : text) :
  forallb (fun c => negb (N.eqb c Ch.dquote)) t0 = true ->
  forallb (fun l => (N.of_nat (length l) <=? Csv.field_limit)%N)
          (file_lines (universal_newlines t0)) = true ->
  forallb simple_line (file_lines (universal_newlines t0)) = true.
Proof.
  intros Hq Hlen. apply forallb_Forall in Hq, Hlen. apply forallb_Forall.
  set (P := fun c : char => c <> Ch.cr /\ c <> Ch.dquote).
  assert (Hchars : Forall (Forall P) (file_lines (universal_newlines t0))).
  { apply file_lines_from_chars; [constructor |].
    apply Forall_and. split; [apply universal_newlines_no_cr |].
    apply universal_newlines_chars; [done |].
    eapply Forall_impl; [exact Hq |]. intros c Hc%negb_true_iff. by apply N.eqb_neq. }
  pose proof (file_lines_from_shape [] (universal_newlines t0) (List.Forall_nil _)) as Hshape.
  fold (file_lines (universal_newlines t0)) in Hshape.
  induction (file_lines (universal_newlines t0)) as [|l ls IH]; [constructor |].
  apply Forall_cons in Hlen as [Hl Hlen]. apply Forall_cons in Hchars as [Hc Hchars].
  apply Forall_cons in Hshape as [[Hne Hlf] Hshape].
  constructor; [| by apply IH].
  unfold simple_line. rewrite !andb_true_iff. split; [split |].
  - by destruct l.
  - apply forallb_Forall. apply (chomp_Forall P) in Hc.
    pose proof (conj Hc Hlf) as Hall%Forall_and.
    eapply Forall_impl; [exact Hall |]. intros c [[Hcr Hdq] Hnl]. unfold is_plain, Csv.is_newline.
    apply N.eqb_neq in Hcr, Hdq, Hnl. by rewrite Hcr, Hdq, Hnl.
  - apply N.leb_le in Hl. apply N.leb_le. pose proof (chomp_length l). lia.
Qed.

(** ** Comment lines and comment rows *)

Lemma split_on_from_head (d : char) (cur s : text) :
  exists f rest tail, split_on_from d cur s = f :: rest /\ cur ++ s = f ++ tail.
Proof.
  revert cur. induction s as [|c s IH]; intros cur; cbn [split_on_from].
  - exists cur, [], []. by split.
  - destruct (N.eqb c d).
    + by exists cur, (split_on_from d [] s), (c :: s).
    + destruct (IH (cur ++ [c])) as (f & rest & tail & Heq & Happ).
      exists f, rest, tail. split; [done |]. by rewrite <- Happ, <- app_assoc.
Qed.

Lemma drop_while_app {A} (p : A -> bool) (a b : list A) :
  drop_while p a <> [] -> drop_while p (a ++ b) = drop_while p a ++ b.
Proof.
  induction a as [|x a IH]; cbn [drop_while app]; [done |].
  by destruct (p x).
Qed.

(** A row that the loop takes for a comment comes from a comment line. *)
Lemma comment_row_line (comment d : char) (l : text) :
  is_comment_row comment (line_fields d l) = true -> comment_line comment l = true.
Proof.
  unfold line_fields, comment_line, lstrip.
  destruct (chomp l) as [|x body] eqn:Hbody; [done |].
  destruct (split_on_from_head d [] (x :: body)) as (f & rest & tail & Heq & Happ).
  unfold split_on. rewrite Heq. cbn [is_comment_row app] in *. intros Hf.
  assert (Hne : drop_while is_space f <> []).
  { unfold lstrip in Hf. by destruct (drop_while is_space f). }
  assert (Hl : exists tail', l = f ++ tail').
  { destruct (chomp_cases l) as [Hl | Hl]; rewrite Hbody in Hl.
    - exists (tail ++ [Ch.lf]). by rewrite Hl, Happ, <- app_assoc.
    - exists tail. by rewrite <- Hl. }
  destruct Hl as [tail' ->]. rewrite drop_while_app by done.
  unfold lstrip in Hf. by destruct (drop_while is_space f).
Qed.

Lemma retained_rows_lines (comment d : char) (lines : list text) :
  forallb (fun l => implb (comment_line comment l)
                          (is_comment_row comment (line_fields d l))) lines = true ->
  retained_rows comment (map (line_fields d) lines)
  = map (line_fields d) (List.filter (fun l => negb (comment_line comment l)) lines).
Proof.
  unfold retained_rows. induction lines as [|l lines IH]; [done |].
  cbn [forallb map List.filter]. intros [Hl Hlines]%andb_prop.
  rewrite (IH Hlines).
  assert (Heq : is_comment_row comment (line_fields d l) = comment_line comment l).
  { pose proof (comment_row_line comment d l) as Hrow.
    destruct (comment_line comment l), (is_comment_row comment (line_fields d l));
      cbn in Hl; try done. by specialize (Hrow eq_refl). }
  rewrite Heq. by destruct (comment_line comment l).
Qed.

Lemma retained_rows_map (comment d : char) (lines : list text) :
  retained_rows comment (map (line_fields d) lines)
  = map (line_fields d)
        (List.filter (fun l => negb (is_comment_row comment (line_fields d l))) lines).
Proof.
  unfold retained_rows. induction lines as [|l lines IH]; [done |].
  cbn [map List.filter]. rewrite IH. by destruct (is_comment_row _ _).
Qed.






(** ** More on [detect_delimiter] *)

Lemma detect_fold_in {F : Type} `{PyNum F} (lines : list text) (ds : list char)
    (st : char * F) :
  (fold_left (detect_step lines) ds st).1 = st.1
  \/ (fold_left (detect_step lines) ds st).1 ∈ ds.
Proof.
  revert st. induction ds as [|d ds IH]; intros st; cbn [fold_left]; [by left |].
  destruct (IH (detect_step lines st d)) as [Heq | Hin].
  - rewrite Heq. unfold detect_step.
    destruct (counts_of d lines); [by left |].
    destruct (num_gt _ _); [right; apply list_elem_of_here | by left].
  - right. by apply list_elem_of_further.
Qed.

(** X1: whatever the sample and the arithmetic, [detect_delimiter] returns
    one of its five candidates. *)
Theorem detect_delimiter_in_delims {F : Type} `{PyNum F} (sample : text) :
  detect_delimiter (F:=F) sample ∈ delims.
Proof.
  unfold detect_delimiter, detect_loop.
  destruct (detect_fold_in (splitlines (strip sample)) delims (Ch.tab, of_int (-1)))
    as [-> | Hin]; [apply list_elem_of_here | done].
Qed.


(** X3: when one candidate alone occurs in the non-blank lines of the
    sample (fewer than 2^53 of them) and its score is above 0, it is the
    one [detect_delimiter] returns, wherever it stands in the list: every
    other candidate scores 0.  Holds of binary64 ([float_with_laws]). *)
Theorem detect_delimiter_sole_candidate {F : Type} `{PyNumLaws F}
    (d : char) (sample : text) :
  d ∈ delims ->
  has_nonblank_line sample = true ->
  len (List.filter nonblank (sample_lines sample)) < 2 ^ 53 ->
  (forall e, e ∈ delims -> e <> d -> occurs_in_sample e sample = false) ->
  num_gt (candidate_score (F:=F) d sample) (of_int 0) = true ->
  detect_delimiter (F:=F) sample = d.
Proof.
  intros Hd Hnb Hsize Habsent Hpos.
  pose proof (filter_nonblank_exists _ Hnb) as Hne.
  assert (Hse : forall e, e ∈ delims -> e <> d ->
                          candidate_score (F:=F) e sample = of_int 0).
  { intros e He Hed. unfold candidate_score.
    rewrite (counts_of_absent _ _ (Habsent e He Hed)). unfold len in Hsize.
    destruct (List.filter nonblank (sample_lines sample)); [done |].
    by apply zero_score. }
  pose proof (gt_trans _ _ _ Hpos zero_above_init) as Hinit.
  destruct (gt_not_nan _ _ Hpos) as [Hnan _].
  destruct (detect_delimiter_first_best (F:=F) sample Hnb)
    as [[_ Hall] | (pre & post & Hds & _ & Hpre & Hpost)].
  { specialize (Hall d Hd). congruence. }
  set (r := detect_delimiter (F:=F) sample) in *.
  destruct (decide (r = d)) as [| Hrd]; [done | exfalso].
  assert (Hr : r ∈ delims).
  { rewrite Hds. apply elem_of_app. right. apply list_elem_of_here. }
  pose proof (Hse r Hr Hrd) as Hsr.
  rewrite Hds in Hd. apply elem_of_app in Hd as [Hd | Hd].
  - specialize (Hpre d Hd Hnan). rewrite Hsr in Hpre.
    pose proof (gt_asym _ _ Hpos). congruence.
  - apply elem_of_cons in Hd as [-> | Hd]; [done |].
    specialize (Hpost d Hd). rewrite Hsr in Hpost. congruence.
Qed.

Lemma detect_delimiter_sole_candidate_witness :
  let s := py "a;b;c\n1;2;3\n" in
  (Ch.semicolon ∈ delims
   /\ has_nonblank_line s = true
   /\ len (List.filter nonblank (sample_lines s)) < 2 ^ 53
   /\ num_gt (candidate_score (F:=float) Ch.semicolon s) (of_int 0) = true)
  /\ detect_delimiter (F:=float) s = Ch.semicolon.
Proof.
  cbv zeta. split.
  { split; [apply list_elem_of_further, list_elem_of_here |].
    split; [reflexivity |]. split; [by vm_compute | reflexivity]. }
  apply (detect_delimiter_sole_candidate (F:=float) Ch.semicolon).
  - apply list_elem_of_further, list_elem_of_here.
  - reflexivity.
  - by vm_compute.
  - intros e He Hne.
    repeat (apply elem_of_cons in He as [-> | He]); try done.
    by apply elem_of_nil in He.
  - reflexivity.
Defined.

(** X2: once some candidate scores above the initial -1, the loop is an
    arg-max with ties going to the earlier candidate: the candidate returned
    scores above -1, no candidate scores above it, and it scores above every
    candidate before it whose score is no NaN.  Holds of binary64
    ([float_with_laws]), whatever [pow] the platform has. *)
Theorem detect_delimiter_first_maximum {F : Type} `{PyNumLaws F} (sample : text) :
  has_nonblank_line sample = true ->
  (exists e, e ∈ delims /\ num_gt (candidate_score (F:=F) e sample) (of_int (-1)) = true) ->
  let d := detect_delimiter (F:=F) sample in
  num_gt (candidate_score (F:=F) d sample) (of_int (-1)) = true
  /\ (forall e, e ∈ delims ->
        num_gt (candidate_score (F:=F) e sample) (candidate_score d sample) = false)
  /\ exists pre post,
       delims = pre ++ d :: post
       /\ forall e, e ∈ pre ->
            is_nan (candidate_score (F:=F) e sample) = false ->
            num_gt (candidate_score (F:=F) d sample) (candidate_score e sample) = true.
Proof.
  intros Hnb [e0 [He0 Hgt0]] d.
  destruct (detect_delimiter_first_best (F:=F) sample Hnb)
    as [[_ Hall] | (pre & post & Hds & Hgt & Hpre & Hpost)].
  { rewrite (Hall e0 He0) in Hgt0. discriminate. }
  fold d in Hds, Hgt, Hpre, Hpost. split; [done |]. split; [| by exists pre, post].
  intros e He. rewrite Hds in He.
  apply elem_of_app in He as [He | [-> | He]%elem_of_cons];
    [| apply gt_irrefl | by apply Hpost].
  destruct (is_nan (candidate_score (F:=F) e sample)) eqn:Hn.
  - by destruct (gt_nan _ (candidate_score (F:=F) d sample) Hn).
  - apply gt_asym. by apply Hpre.
Qed.

Lemma detect_delimiter_first_maximum_witness :
  let s := py "a\tb;c;d\n1\t2;3;4\n" in
  (has_nonblank_line s = true
   /\ exists e, e ∈ delims
        /\ num_gt (candidate_score (F:=float) e s) (of_int (-1)) = true)
  /\ (num_gt (candidate_score (F:=float) (detect_delimiter (F:=float) s) s) (of_int (-1)) = true
      /\ (forall e, e ∈ delims ->
            num_gt (candidate_score (F:=float) e s)
                   (candidate_score (detect_delimiter (F:=float) s) s) = false)
      /\ exists pre post,
           delims = pre ++ detect_delimiter (F:=float) s :: post
           /\ forall e, e ∈ pre ->
                is_nan (candidate_score (F:=float) e s) = false ->
                num_gt (candidate_score (F:=float) (detect_delimiter (F:=float) s) s)
                       (candidate_score e s) = true).
Proof.
  cbv zeta.
  assert (Hsome : exists e, e ∈ delims
            /\ num_gt (candidate_score (F:=float) e (py "a\tb;c;d\n1\t2;3;4\n")) (of_int (-1))
               = true).
  { exists Ch.semicolon.
    split; [apply list_elem_of_further, list_elem_of_here | reflexivity]. }
  split; [split; [reflexivity | exact Hsome] |].
  apply (detect_delimiter_first_maximum (F:=float)); [reflexivity | exact Hsome].
Defined.

(** ** The preview *)

Lemma concat_file_lines_from (cur s : text) : concat (file_lines_from cur s) = cur ++ s.
Proof.
  revert cur. induction s as [|c s IH]; intros cur; cbn [file_lines_from].
  - destruct cur; [done |]. cbn [concat]. by rewrite !app_nil_r.
  - destruct (N.eqb c Ch.lf).
    + cbn [concat]. rewrite IH. by rewrite <- app_assoc.
    + rewrite IH. by rewrite <- app_assoc.
Qed.

Lemma concat_file_lines (t : text) : concat (file_lines t) = t.
Proof. apply concat_file_lines_from. Qed.

Lemma str_count_app (d : char) (a b : text) :
  str_count d (a ++ b) = str_count d a + str_count d b.
Proof. induction a as [|c a IH]; cbn [app str_count]; [done |]. rewrite IH. lia. Qed.

Lemma str_count_absent (d : char) (s : text) :
  Forall (fun c => c <> d) s -> str_count d s = 0.
Proof.
  induction s as [|c s IH]; [done |]. intros [Hc Hs]%Forall_cons. cbn [str_count].
  apply N.eqb_neq in Hc. rewrite Hc, IH; [done | done].
Qed.

Lemma file_line_one_lf (l : text) :
  Forall (fun c => c <> Ch.lf) (chomp l) -> str_count Ch.lf l <= 1.
Proof.
  intros Hl. destruct (chomp_cases l) as [Heq | Heq].
  - rewrite Heq, str_count_app, (str_count_absent _ _ Hl). cbn. lia.
  - rewrite Heq in Hl. rewrite (str_count_absent _ _ Hl). lia.
Qed.

Lemma preview_lf_count (n : nat) (lines : list text) :
  Forall (fun l => str_count Ch.lf l <= 1) lines ->
  str_count Ch.lf (concat (take n lines)) <= Z.of_nat n.
Proof.
  revert n. induction lines as [|l lines IH]; intros n Hl.
  - rewrite take_nil. cbn. lia.
  - destruct n as [|n]; [cbn; lia |].
    apply Forall_cons in Hl as [Hl Hls]. cbn [take concat].
    rewrite str_count_app. specialize (IH n Hls). lia.
Qed.

(** X4: [read_preview] returns a prefix of the text of the file that holds
    at most [n] line feeds, the whole text when the file has no more than
    [n] lines, and leaves the file system as it was. *)
Theorem read_preview_prefix (rt : runtime) (p : path) (n : nat) (b bs : bytes) (m : fsmap) :
  m !! p = Some (File b) ->
  logical rt p b = Some bs ->
  let t := universal_newlines (utf8_decode bs) in
  exists s,
    read_preview rt p n m = (Ret s, m)
    /\ (exists rest, t = s ++ rest)
    /\ str_count Ch.lf s <= Z.of_nat n
    /\ ((length (file_lines t) <= n)%nat -> s = t).
Proof.
  intros Hp Hlog t. rewrite (read_preview_run _ _ _ _ _ Hp), Hlog. fold t.
  exists (concat (take n (file_lines t))). split; [done |]. split; [| split].
  - exists (concat (drop n (file_lines t))).
    by rewrite <- concat_app, take_drop, concat_file_lines.
  - apply preview_lf_count.
    pose proof (file_lines_from_shape [] t (List.Forall_nil _)) as Hshape.
    eapply Forall_impl; [exact Hshape |]. intros l [_ Hl]. by apply file_line_one_lf.
  - intros Hlen. by rewrite take_ge, concat_file_lines.
Qed.

Lemma read_preview_prefix_witness :
  let m : fsmap := {[ py "in.rtab" := File (ascii_bytes "a\tb\n1\t2\n3\t4\n") ]} in
  let t := py "a\tb\n1\t2\n3\t4\n" in
  (m !! py "in.rtab" = Some (File (ascii_bytes "a\tb\n1\t2\n3\t4\n"))
   /\ logical rt_bare (py "in.rtab") (ascii_bytes "a\tb\n1\t2\n3\t4\n")
      = Some (ascii_bytes "a\tb\n1\t2\n3\t4\n"))
  /\ exists s,
       read_preview rt_bare (py "in.rtab") 2 m = (Ret s, m)
       /\ (exists rest, universal_newlines (utf8_decode (ascii_bytes "a\tb\n1\t2\n3\t4\n"))
                        = s ++ rest)
       /\ str_count Ch.lf s <= Z.of_nat 2
       /\ ((length (file_lines (universal_newlines
                       (utf8_decode (ascii_bytes "a\tb\n1\t2\n3\t4\n")))) <= 2)%nat ->
           s = universal_newlines (utf8_decode (ascii_bytes "a\tb\n1\t2\n3\t4\n"))).
Proof.
  cbv zeta. split; [split; reflexivity |].
  apply (read_preview_prefix rt_bare (py "in.rtab") 2
           (ascii_bytes "a\tb\n1\t2\n3\t4\n") (ascii_bytes "a\tb\n1\t2\n3\t4\n"));
    reflexivity.
Defined.

(** ** What the conversion functions write *)

Lemma open_write_fails (rt : runtime) (p : path) (m : fsmap) :
  writable rt p = false \/ m !! p = Some Dir ->
  exists e, open_write rt p m = (Raise e, m).
Proof.
  intros Hw. unfold open_write. rewrite bind_run. unfold get_state. cbv beta iota.
  destruct (m !! p) as [[b|]|] eqn:Hp; destruct (writable rt p) eqn:Hwp;
    try (eexists; reflexivity); by destruct Hw.
Qed.

Lemma write_text_frame (p : path) (s : text) (m : fsmap) (q : path) :
  q <> p -> (write_text p s m).2 !! q = m !! q.
Proof.
  intros Hq. unfold write_text. destruct (utf8_encode s); [| done].
  rewrite bind_run. unfold get_state, put_state. cbv beta iota. cbn [snd].
  by rewrite lookup_insert_ne.
Qed.

Lemma convert_fallback_frame (rt : runtime) (i out : path) (d c : char) (m : fsmap)
    (q : path) :
  q <> out -> (convert_fallback rt i out d c m).2 !! q = m !! q.
Proof.
  intros Hq. unfold convert_fallback. rewrite bind_run.
  pose proof (keeps_open_maybe_gzip i m) as Hk.
  destruct (open_maybe_gzip i m) as [[f | e | code] m0]; cbn [snd] in Hk; subst m0;
    [| done | done].
  rewrite bind_run. destruct (open_write_cases rt out m) as [-> | [e ->]]; [| done].
  rewrite bind_run.
  pose proof (keeps_read_text rt f (<[out:=File []]> m)) as Hk.
  destruct (read_text rt f (<[out:=File []]> m)) as [[t | e | code] m0];
    cbn [snd] in Hk; subst m0; try (cbn [snd]; by rewrite lookup_insert_ne).
  destruct (copy_rows d c (file_lines t)) as [txt err]. rewrite bind_run.
  pose proof (write_text_frame out txt (<[out:=File []]> m) q Hq) as Hwr.
  destruct (write_text out txt (<[out:=File []]> m)) as [[[] | e | code] m1];
    cbv beta iota; cbn [snd] in *.
  - destruct err; rewrite ?ret_run, ?raise_run; cbn [snd];
      by rewrite Hwr, lookup_insert_ne.
  - by rewrite Hwr, lookup_insert_ne.
  - by rewrite Hwr, lookup_insert_ne.
Qed.

Lemma write_text_writes (p : path) (s : text) (m m' : fsmap) (u : unit) :
  write_text p s m = (Ret u, m') -> exists ob, m' !! p = Some (File ob).
Proof.
  unfold write_text. destruct (utf8_encode s) as [ob|]; [| done].
  rewrite bind_run. unfold get_state, put_state. cbv beta iota.
  intros [_ <-]%pair_eq_inv. exists ob. apply lookup_insert_eq.
Qed.

Lemma convert_fallback_writes (rt : runtime) (i out : path) (d c : char)
    (m m' : fsmap) (u : unit) :
  convert_fallback rt i out d c m = (Ret u, m') -> exists ob, m' !! out = Some (File ob).
Proof.
  unfold convert_fallback. rewrite bind_run.
  destruct (open_maybe_gzip i m) as [[f | e | code] m0]; [| done | done].
  rewrite bind_run. destruct (open_write_cases rt out m0) as [-> | [e ->]]; [| done].
  rewrite bind_run.
  destruct (read_text rt f (<[out:=File []]> m0)) as [[t | e | code] m1]; [| done | done].
  destruct (copy_rows d c (file_lines t)) as [txt err]. rewrite bind_run.
  destruct (write_text out txt m1) as [[[] | e | code] m2] eqn:Hwr; [| done | done].
  apply write_text_writes in Hwr. destruct err; [done |].
  by intros [_ <-]%pair_eq_inv.
Qed.

Lemma convert_with_pandas_writes (rt : runtime) (i out : path) (d c : char)
    (m m' : fsmap) (df : dataframe) :
  convert_with_pandas rt i out d c m = (Ret df, m') ->
  exists ob, m' !! out = Some (File ob).
Proof.
  unfold convert_with_pandas. rewrite bind_run.
  destruct (import_pandas rt m) as [[pd | e | code] m0]; [| done | done].
  rewrite bind_run.
  destruct (pandas_open rt i m0) as [[bi | e | code] m1]; [| done | done].
  rewrite bind_run. destruct (read_csv pd bi d c) as [e | df0]; [done |].
  rewrite ret_run, bind_run.
  destruct (open_write_cases rt out m1) as [-> | [e ->]]; [| done].
  rewrite bind_run.
  destruct (write_text out _ _) as [[[] | e | code] m2] eqn:Hwr; [| done | done].
  apply write_text_writes in Hwr. by intros [_ <-]%pair_eq_inv.
Qed.

(** X5: whatever its outcome, a run of [main] leaves every path but the
    output path (its second argument) as it was; the input in particular is
    never modified unless it is the output. *)
Theorem main_touches_only_output {F : Type} `{PyNum F} (rt : runtime)
    (argv : list text) (m : fsmap) (q : path) :
  q <> nth 2 argv [] ->
  fs (main (F:=F) rt argv (boot m)).2 !! q = m !! q.
Proof.
  intros Hq. destruct (len argv <? 3) eqn:Hlen.
  { unfold main. by rewrite Hlen, bind_run, print_run, sys_exit_run. }
  destruct (m !! nth 1 argv []) as [nd|] eqn:Hnd.
  2: { unfold main. rewrite Hlen. cbv zeta.
       rewrite bind_run, lift_fs_run, os_path_exists_run. cbn [fst snd boot fs].
       match goal with
       | |- context [negb (match ?x with Some _ => true | None => false end)] =>
           replace x with (@None node) by (symmetry; exact Hnd)
       end.
       unfold negb. cbv iota. by rewrite bind_run, print_run, sys_exit_run. }
  rewrite main_run by (done || by eexists).
  pose proof (keeps_read_preview rt (nth 1 argv []) 20 m) as Hk.
  destruct (read_preview rt (nth 1 argv []) 20 m) as [[sample | e | c] m1];
    cbn [snd] in Hk; subst m1; [| done | done].
  rewrite convert_run. cbv zeta. cbn [fs].
  set (d := detect_delimiter sample).
  pose proof (convert_with_pandas_frame rt (nth 2 argv []) (nth 1 argv []) d comment_char m q Hq)
    as Hfr1.
  destruct (convert_with_pandas rt (nth 1 argv []) (nth 2 argv []) d comment_char m)
    as [[df | e | c] m1]; cbn [fst snd] in *; [done | | done].
  pose proof (convert_fallback_frame rt (nth 1 argv []) (nth 2 argv []) d comment_char m1 q Hq)
    as Hfr2.
  destruct (convert_fallback rt (nth 1 argv []) (nth 2 argv []) d comment_char m1)
    as [[[] | e2 | c2] m2]; cbn [fst snd fs] in *; by rewrite Hfr2.
Qed.

Lemma main_touches_only_output_witness :
  let m : fsmap := {[ py "in.rtab" := File (ascii_bytes "a\tb\n1\t2\n") ]} in
  let argv := [py "rtab_to_csv.py"; py "in.rtab"; py "out.csv"] in
  py "in.rtab" <> nth 2 argv []
  /\ fs (main (F:=float) rt_bare argv (boot m)).2 !! py "in.rtab" = m !! py "in.rtab".
Proof.
  cbv zeta. split; [by vm_compute |].
  apply (main_touches_only_output (F:=float)). by vm_compute.
Defined.

(** X6: an exit status 0 of [main] means that one of the two conversion
    functions returned and that the output path holds a file. *)
Theorem main_success_writes_output {F : Type} `{PyNum F} (rt : runtime)
    (argv : list text) (m : fsmap) :
  let '(r, w') := main (F:=F) rt argv (boot m) in
  exit_status r = 0 ->
  (exists p, (p, true) ∈ calls w')
  /\ exists ob, fs w' !! nth 2 argv [] = Some (File ob).
Proof.
  destruct (len argv <? 3) eqn:Hlen.
  { unfold main. by rewrite Hlen, bind_run, print_run, sys_exit_run. }
  destruct (m !! nth 1 argv []) as [nd|] eqn:Hnd.
  2: { unfold main. rewrite Hlen. cbv zeta.
       rewrite bind_run, lift_fs_run, os_path_exists_run. cbn [fst snd boot fs].
       match goal with
       | |- context [negb (match ?x with Some _ => true | None => false end)] =>
           replace x with (@None node) by (symmetry; exact Hnd)
       end.
       unfold negb. cbv iota. by rewrite bind_run, print_run, sys_exit_run. }
  rewrite main_run by (done || by eexists).
  pose proof (no_exit_read_preview rt (nth 1 argv []) 20 m) as Hx.
  destruct (read_preview rt (nth 1 argv []) 20 m) as [[sample | e | c] m1];
    cbn [fst] in Hx; [| done | by destruct (Hx c)].
  rewrite convert_run. cbv zeta. cbn [fs calls].
  set (d := detect_delimiter sample).
  pose proof (no_exit_convert_with_pandas rt (nth 1 argv []) (nth 2 argv []) d comment_char m1)
    as Hx1.
  destruct (convert_with_pandas rt (nth 1 argv []) (nth 2 argv []) d comment_char m1)
    as [[df | e | c] m2] eqn:Hcwp; cbn [fst snd] in *.
  - intros _. split; [exists Structured; apply list_elem_of_here |].
    cbn [fs]. by eapply convert_with_pandas_writes.
  - pose proof (no_exit_convert_fallback rt (nth 1 argv []) (nth 2 argv []) d comment_char m2)
      as Hx2.
    destruct (convert_fallback rt (nth 1 argv []) (nth 2 argv []) d comment_char m2)
      as [[[] | e2 | c2] m3] eqn:Hcf; cbn [fst snd] in *.
    + intros _. split; [exists Fallback; apply list_elem_of_further, list_elem_of_here |].
      cbn [fs]. by eapply convert_fallback_writes.
    + done.
    + by destruct (Hx2 c2).
  - by destruct (Hx1 c).
Qed.

Lemma main_success_writes_output_witness :
  let m : fsmap := {[ py "in.rtab" := File (ascii_bytes "a\tb\n1\t2\n") ]} in
  let argv := [py "rtab_to_csv.py"; py "in.rtab"; py "out.csv"] in
  exit_status (main (F:=float) rt_bare argv (boot m)).1 = 0
  /\ (exists p, (p, true) ∈ calls (main (F:=float) rt_bare argv (boot m)).2)
  /\ exists ob, fs (main (F:=float) rt_bare argv (boot m)).2 !! nth 2 argv [] = Some (File ob).
Proof.
  cbv zeta.
  pose proof (main_success_writes_output (F:=float) rt_bare
                [py "rtab_to_csv.py"; py "in.rtab"; py "out.csv"]
                {[ py "in.rtab" := File (ascii_bytes "a\tb\n1\t2\n") ]}) as Hm.
  set (run := main (F:=float) rt_bare _ _) in *.
  assert (Hr : exit_status run.1 = 0) by (by vm_compute).
  revert Hm Hr. destruct run as [r w']. cbn [fst snd]. intros Hm Hr.
  split; [exact Hr | exact (Hm Hr)].
Defined.

(** ** Failures *)

Lemma convert_with_pandas_unwritable (rt : runtime) (i out : path) (d c : char)
    (b bs : bytes) (m : fsmap) :
  m !! i = Some (File b) -> logical rt i b = Some bs ->
  writable rt out = false \/ m !! out = Some Dir ->
  exists e, convert_with_pandas rt i out d c m = (Raise e, m).
Proof.
  intros Hi Hlog Hout. unfold convert_with_pandas, import_pandas.
  destruct (pandas rt) as [pd|]; [| eexists; reflexivity].
  rewrite bind_run, ret_run. unfold pandas_open.
  rewrite !bind_run, (open_maybe_gzip_run _ _ _ Hi), (read_bytes_run _ _ _ _ Hi), Hlog.
  destruct (read_csv pd bs d c) as [e | df0].
  { exists e. by rewrite bind_run, raise_run. }
  rewrite bind_run, ret_run, bind_run.
  destruct (open_write_fails rt out m Hout) as [e ->]. by exists e.
Qed.

Lemma convert_fallback_unwritable (rt : runtime) (i out : path) (d c : char)
    (b : bytes) (m : fsmap) :
  m !! i = Some (File b) ->
  writable rt out = false \/ m !! out = Some Dir ->
  exists e, convert_fallback rt i out d c m = (Raise e, m).
Proof.
  intros Hi Hout. unfold convert_fallback.
  rewrite bind_run, (open_maybe_gzip_run _ _ _ Hi), bind_run.
  destruct (open_write_fails rt out m Hout) as [e ->]. by exists e.
Qed.

(** X7: with a readable input and an output path that cannot be opened for
    writing (not allowed, or a directory), both conversion paths are tried
    and fail, [main] ends with [sys.exit(3)] and the file system is as it
    was. *)
Theorem main_unwritable_output {F : Type} `{PyNum F} (rt : runtime)
    (prog inp out : path) (rest : list text) (b bs : bytes) (m : fsmap) :
  m !! inp = Some (File b) ->
  logical rt inp b = Some bs ->
  writable rt out = false \/ m !! out = Some Dir ->
  let '(r, w') := main (F:=F) rt (prog :: inp :: out :: rest) (boot m) in
  r = Exit 3
  /\ fs w' = m
  /\ calls w' = [(Structured, false); (Fallback, false)].
Proof.
  intros Hi Hlog Hout.
  rewrite (main_run3 rt prog inp out rest _ m Hi).
  rewrite (read_preview_run _ _ _ _ _ Hi), Hlog.
  rewrite convert_run. cbv zeta. cbn [fs calls].
  match goal with
  | |- context [convert_with_pandas rt inp out ?d ?c m] =>
      destruct (convert_with_pandas_unwritable rt inp out d c b bs m Hi Hlog Hout)
        as [e ->];
      cbn [fst snd];
      destruct (convert_fallback_unwritable rt inp out d c b m Hi Hout) as [e2 ->]
  end.
  by cbn [fst snd].
Qed.

Lemma main_unwritable_output_witness :
  let m : fsmap := {[ py "in.rtab" := File (ascii_bytes "a\tb\n1\t2\n");
                      py "out" := Dir ]} in
  (m !! py "in.rtab" = Some (File (ascii_bytes "a\tb\n1\t2\n"))
   /\ (writable rt_pandas (py "out") = false \/ m !! py "out" = Some Dir))
  /\ let '(r, w') := main (F:=float) rt_pandas
                       [py "rtab_to_csv.py"; py "in.rtab"; py "out"] (boot m) in
     r = Exit 3 /\ fs w' = m /\ calls w' = [(Structured, false); (Fallback, false)].
Proof.
  cbv zeta. split; [split; [reflexivity | right; reflexivity] |].
  apply (main_unwritable_output (F:=float) rt_pandas _ _ _ []
           (ascii_bytes "a\tb\n1\t2\n") (ascii_bytes "a\tb\n1\t2\n"));
    [reflexivity | reflexivity | right; reflexivity].
Defined.

Lemma read_preview_dir (rt : runtime) (p : path) (n : nat) (m : fsmap) :
  m !! p = Some Dir ->
  read_preview rt p n m = (Raise (Exn IsADirectoryError p), m).
Proof.
  intros Hp. unfold read_preview, open_maybe_gzip, open_read. rewrite bind_run.
  destruct (endswith gz_suffix p); rewrite bind_run; unfold get_state; cbv beta iota;
    by rewrite Hp.
Qed.

(** X8: [main] only tests that the input path exists.  When it is a
    directory, or a [.gz] name whose content is no gzip stream, so that the
    first read fails, the exception of [read_preview] is not handled: the
    run ends with it before any conversion is tried, nothing is printed and
    no file is touched. *)
Theorem main_unreadable_input {F : Type} `{PyNum F} (rt : runtime)
    (prog inp out : path) (rest : list text) (m : fsmap) :
  m !! inp = Some Dir
  \/ (exists b, m !! inp = Some (File b) /\ logical rt inp b = None) ->
  exists e, main (F:=F) rt (prog :: inp :: out :: rest) (boot m) = (Raise e, boot m).
Proof.
  intros [Hdir | (b & Hb & Hlog)].
  - rewrite (main_run3 rt prog inp out rest _ m Hdir), (read_preview_dir _ _ _ _ Hdir).
    by eexists.
  - rewrite (main_run3 rt prog inp out rest _ m Hb), (read_preview_run _ _ _ _ _ Hb), Hlog.
    by eexists.
Qed.

Lemma main_unreadable_input_witness :
  let m : fsmap := {[ py "in.gz" := File (ascii_bytes "a\tb\n") ]} in
  (exists b, m !! py "in.gz" = Some (File b) /\ logical rt_bare (py "in.gz") b = None)
  /\ exists e, main (F:=float) rt_bare [py "rtab_to_csv.py"; py "in.gz"; py "out.csv"] (boot m)
               = (Raise e, boot m).
Proof.
  cbv zeta.
  assert (Hb : exists b, ({[ py "in.gz" := File (ascii_bytes "a\tb\n") ]} : fsmap) !! py "in.gz"
                         = Some (File b) /\ logical rt_bare (py "in.gz") b = None).
  { exists (ascii_bytes "a\tb\n"). split; reflexivity. }
  split; [exact Hb |].
  apply (main_unreadable_input (F:=float) rt_bare _ _ _ []). by right.
Defined.

(** X9: converting a file onto itself by the fallback path loses it: the
    output is opened, hence emptied, before the first line is read, so no
    row is read or written and the call returns with the file empty. *)
Theorem convert_fallback_in_place (rt : runtime) (p : path) (d c : char)
    (b : bytes) (m : fsmap) :
  m !! p = Some (File b) ->
  writable rt p = true ->
  (endswith gz_suffix p = true -> gunzip rt [] = Some []) ->
  convert_fallback rt p p d c m = (Ret tt, <[p := File []]> m).
Proof.
  intros Hp Hw Hgz. unfold convert_fallback.
  rewrite bind_run, (open_maybe_gzip_run _ _ _ Hp).
  rewrite bind_run, (open_write_run rt p m) by (done || by rewrite Hp).
  assert (Hp' : <[p := File []]> m !! p = Some (File [])) by apply lookup_insert_eq.
  rewrite bind_run, (read_text_run _ _ _ _ Hp').
  assert (Hlog : logical rt p [] = Some []).
  { unfold logical. destruct (endswith gz_suffix p); auto. }
  rewrite Hlog. cbn [copy_rows Csv.reader Csv.reader_from file_lines file_lines_from
                     universal_newlines utf8_decode utf8_decode_from utf8_idle u_need].
  by rewrite <- (insert_insert_eq m p (File []) (File [])) at 2.
Qed.

Lemma convert_fallback_in_place_witness :
  let m : fsmap := {[ py "t.rtab" := File (ascii_bytes "a\tb\n1\t2\n") ]} in
  (m !! py "t.rtab" = Some (File (ascii_bytes "a\tb\n1\t2\n"))
   /\ writable rt_bare (py "t.rtab") = true)
  /\ convert_fallback rt_bare (py "t.rtab") (py "t.rtab") Ch.tab Ch.hash m
     = (Ret tt, <[py "t.rtab" := File []]> m).
Proof.
  cbv zeta. split; [split; reflexivity |].
  apply (convert_fallback_in_place rt_bare _ _ _ (ascii_bytes "a\tb\n1\t2\n"));
    [reflexivity | reflexivity | intros Hgz; by vm_compute in Hgz].
Defined.

(** ** UTF-8 *)

Lemma is_scalar_spec (c : char) :
  is_scalar c = true <-> (c < 55296 \/ 57344 <= c < 1114112)%N.
Proof.
  unfold is_scalar. rewrite orb_true_iff, andb_true_iff, !N.ltb_lt, N.leb_le. tauto.
Qed.

Lemma utf8_encode_char_scalar (c : char) :
  is_scalar c = true -> is_Some (utf8_encode_char c).
Proof.
  intros Hc%is_scalar_spec. unfold utf8_encode_char.
  destruct (c <? 128)%N; [by eexists |].
  destruct (c <? 2048)%N; [by eexists |].
  destruct ((55296 <=? c) && (c <=? 57343))%N eqn:Hs.
  { apply andb_true_iff in Hs as [H1%N.leb_le H2%N.leb_le]. lia. }
  destruct (c <? 65536)%N; [by eexists |].
  destruct (c <? 1114112)%N eqn:Hm; [by eexists |].
  apply N.ltb_ge in Hm. lia.
Qed.

Lemma utf8_encode_scalars (s : text) :
  Forall (fun c => is_scalar c = true) s -> is_Some (utf8_encode s).
Proof.
  induction 1 as [|c s Hc _ IH]; cbn [utf8_encode]; [by eexists |].
  destruct (utf8_encode_char_scalar c Hc) as [b ->], IH as [bs ->]. by eexists.
Qed.

Lemma lor_shift6 (a b : N) :
  N.lor (N.shiftl a 6) (N.land b 63) = (a * 64 + b mod 64)%N.
Proof.
  assert (Hdisj : N.land (N.shiftl a 6) (N.land b 63) = 0%N).
  { apply N.bits_inj. intros n. rewrite !N.land_spec, N.bits_0.
    destruct (N.lt_ge_cases n 6) as [Hn | Hn].
    - by rewrite N.shiftl_spec_low.
    - change 63%N with (N.ones 6). rewrite (N.ones_spec_high 6 n Hn).
      by rewrite !andb_false_r. }
  rewrite <- (N.lxor_lor _ _ Hdisj), <- (N.add_nocarry_lxor _ _ Hdisj).
  rewrite N.shiftl_mul_pow2. change 63%N with (N.ones 6). by rewrite N.land_ones.
Qed.

Lemma land_low (b : N) (k : N) : N.land b (N.ones k) = (b mod 2 ^ k)%N.
Proof. apply N.land_ones. Qed.

Ltac scalar_arith :=
  apply is_scalar_spec; zify; Z.to_euclidean_division_equations; lia.

Lemma utf8_lead_open (b : N) :
  Forall (fun c => is_scalar c = true) (utf8_lead b).1 /\ utf8_open (utf8_lead b).2.
Proof.
  unfold utf8_lead.
  destruct (b <? 128)%N eqn:H1.
  { apply N.ltb_lt in H1. split; [| done]. repeat constructor. scalar_arith. }
  destruct ((194 <=? b) && (b <=? 223))%N eqn:H2.
  { apply andb_true_iff in H2 as [Ha%N.leb_le Hb%N.leb_le]. split; [constructor |].
    unfold utf8_open; cbn [u_need u_acc u_lo u_hi snd]. intros x Hx. change 31%N with (N.ones 5). rewrite land_low.
    change (2 ^ 5)%N with 32%N. scalar_arith. }
  destruct (b =? 224)%N eqn:H3.
  { apply N.eqb_eq in H3 as ->. split; [constructor |].
    unfold utf8_open; cbn [u_need u_acc u_lo u_hi snd]. intros x x2 Hx Hx2. change (N.land 224 15) with 0%N. scalar_arith. }
  destruct (b =? 237)%N eqn:H4.
  { apply N.eqb_eq in H4 as ->. split; [constructor |].
    unfold utf8_open; cbn [u_need u_acc u_lo u_hi snd]. intros x x2 Hx Hx2. change (N.land 237 15) with 13%N. scalar_arith. }
  destruct ((225 <=? b) && (b <=? 239))%N eqn:H5.
  { apply andb_true_iff in H5 as [Ha%N.leb_le Hb%N.leb_le]. apply N.eqb_neq in H4.
    split; [constructor |].
    unfold utf8_open; cbn [u_need u_acc u_lo u_hi snd]. intros x x2 Hx Hx2. change 15%N with (N.ones 4). rewrite land_low.
    change (2 ^ 4)%N with 16%N. scalar_arith. }
  destruct (b =? 240)%N eqn:H6.
  { apply N.eqb_eq in H6 as ->. split; [constructor |].
    unfold utf8_open; cbn [u_need u_acc u_lo u_hi snd]. intros x x2 x3 Hx Hx2 Hx3. change (N.land 240 7) with 0%N. scalar_arith. }
  destruct (b =? 244)%N eqn:H7.
  { apply N.eqb_eq in H7 as ->. split; [constructor |].
    unfold utf8_open; cbn [u_need u_acc u_lo u_hi snd]. intros x x2 x3 Hx Hx2 Hx3. change (N.land 244 7) with 4%N. scalar_arith. }
  destruct ((241 <=? b) && (b <=? 243))%N eqn:H8.
  { apply andb_true_iff in H8 as [Ha%N.leb_le Hb%N.leb_le]. split; [constructor |].
    unfold utf8_open; cbn [u_need u_acc u_lo u_hi snd]. intros x x2 x3 Hx Hx2 Hx3. change 7%N with (N.ones 3). rewrite land_low.
    change (2 ^ 3)%N with 8%N. scalar_arith. }
  split; [| done]. by repeat constructor.
Qed.

Lemma utf8_decode_from_scalars (bs : bytes) (st : utf8_state) :
  utf8_open st -> Forall (fun c => is_scalar c = true) (utf8_decode_from st bs).
Proof.
  revert st. induction bs as [|b bs IH]; intros st Hst; cbn [utf8_decode_from].
  { destruct (u_need st); by repeat constructor. }
  pose proof (utf8_lead_open b) as [Hout Hnext].
  destruct (u_need st) as [|n] eqn:Hn.
  { destruct (utf8_lead b) as [out st']. apply Forall_app. split; [done | by apply IH]. }
  destruct ((u_lo st <=? b) && (b <=? u_hi st))%N eqn:Hr.
  - apply andb_true_iff in Hr as [Ha%N.leb_le Hb%N.leb_le].
    rewrite lor_shift6. unfold utf8_open in Hst. rewrite Hn in Hst.
    destruct n as [|[|[|n]]].
    + constructor; [by apply Hst | by apply IH].
    + apply IH. unfold utf8_open. cbn. intros x Hx. by apply Hst.
    + apply IH. unfold utf8_open. cbn. intros x x2 Hx Hx2. by apply Hst.
    + done.
  - destruct (utf8_lead b) as [out st']. constructor; [done |].
    apply Forall_app. split; [done | by apply IH].
Qed.

Lemma utf8_decode_scalars (bs : bytes) :
  Forall (fun c => is_scalar c = true) (utf8_decode bs).
Proof. by apply utf8_decode_from_scalars. Qed.

Lemma utf8_lead_length (b : N) :
  (length (utf8_lead b).1 + (match u_need (utf8_lead b).2 with O => 0 | S _ => 1 end) <= 1)%nat.
Proof.
  unfold utf8_lead. cbv zeta.
  repeat match goal with
         | |- context [if ?c then _ else _] =>
             match type of c with bool => destruct c end
         end;
    cbn [fst snd length u_need utf8_idle]; lia.
Qed.

Lemma utf8_decode_from_length (bs : bytes) (st : utf8_state) :
  (length (utf8_decode_from st bs)
   <= length bs + match u_need st with O => 0 | S _ => 1 end)%nat.
Proof.
  revert st. induction bs as [|b bs IH]; intros st; cbn [utf8_decode_from length].
  { destruct (u_need st); cbn; lia. }
  pose proof (utf8_lead_length b) as Hl.
  destruct (u_need st) as [|n].
  { destruct (utf8_lead b) as [out st']. cbn [fst snd] in Hl. rewrite length_app.
    specialize (IH st'). lia. }
  destruct ((u_lo st <=? b) && (b <=? u_hi st))%N.
  - destruct n as [|n].
    + cbn [length]. specialize (IH utf8_idle). cbn in IH. lia.
    + match goal with |- (length (utf8_decode_from ?s _) <= _)%nat => specialize (IH s) end.
      cbn in IH. lia.
  - destruct (utf8_lead b) as [out st']. cbn [fst snd length] in *. rewrite length_app.
    specialize (IH st'). lia.
Qed.

Lemma utf8_decode_length (bs : bytes) : (length (utf8_decode bs) <= length bs)%nat.
Proof. pose proof (utf8_decode_from_length bs utf8_idle) as H. cbn in H. unfold utf8_decode. lia. Qed.

Lemma universal_newlines_length (s : text) :
  (length (universal_newlines s) <= length s)%nat.
Proof.
  assert (Hboth : forall s, (length (universal_newlines s) <= length s)%nat
                  /\ forall c, (length (universal_newlines (c :: s)) <= S (length s))%nat).
  { clear s. induction s as [|c' s [IH1 IH2]]; split.
    - done.
    - intros c. cbn. destruct (N.eqb c Ch.cr); cbn; lia.
    - apply IH2.
    - intros c. cbn [universal_newlines]. destruct (N.eqb c Ch.cr).
      + destruct (N.eqb c' Ch.lf); cbn [length]; [lia |]. apply le_n_S, (IH2 c').
      + cbn [length]. apply le_n_S, (IH2 c'). }
  apply Hboth.
Qed.

(** ** The reader on any lines of a file *)

Section ReaderAny.
Variable d : char.
Variable P : char -> Prop.

Lemma process_char_any (rs : Csv.reader_state) (c : option char) :
  Csv.state rs <> Csv.EAT_CRNL ->
  chars_ok P rs ->
  (forall x, c = Some x -> P x) ->
  (Csv.parse_process_char d rs c = inl Csv.field_too_large
   /\ (Csv.field_limit <= Csv.field_len rs)%N /\ c <> None)
  \/ exists rs',
       Csv.parse_process_char d rs c = inr rs'
       /\ chars_ok P rs'
       /\ (Csv.field_len rs' <= Csv.field_len rs + 1)%N
       /\ (c = None -> Csv.field_len rs' <= Csv.field_len rs)%N
       /\ (Csv.state rs' = Csv.EAT_CRNL ->
           exists x, c = Some x /\ Csv.is_newline x = true).
Proof.
  intros Hst [Hfs Hf] Hc. destruct rs as [st fl f n].
  cbn [Csv.state Csv.field Csv.fields Csv.field_len] in *.
  assert (Hsave : Forall (Forall P) (fl ++ [f])).
  { apply Forall_app. split; [done | by constructor]. }
  unfold Csv.parse_process_char, Csv.parse_add_char, Csv.parse_save_field, Csv.set_state.
  cbn [Csv.state Csv.field Csv.fields Csv.field_len].
  destruct (Csv.field_limit <=? n)%N eqn:Hlim;
    [apply N.leb_le in Hlim | apply N.leb_gt in Hlim].
  all: destruct st; try done; destruct c as [x|];
    try (specialize (Hc x eq_refl);
         assert (Hadd : Forall P (f ++ [x])) by (apply Forall_app; split; [done | by constructor]));
    repeat match goal with
           | |- context [if ?b then _ else _] =>
               match type of b with bool => destruct b eqn:? end
           end;
    first [ left; split; [reflexivity | split; [done | done]]
          | right; eexists; split; [reflexivity |];
            unfold chars_ok; cbn [Csv.state Csv.field Csv.fields Csv.field_len];
            split; [split; first [done | by constructor] |];
            split; [lia |]; split; [first [done | intros; lia] |];
            intros Heat; first [done | by eexists] ].
Qed.

Lemma process_eol_eat (rs : Csv.reader_state) :
  Csv.state rs = Csv.EAT_CRNL ->
  Csv.parse_process_char d rs None = inr (Csv.set_state Csv.START_RECORD rs).
Proof. intros Hst. unfold Csv.parse_process_char. by rewrite Hst. Qed.

Lemma feed_chars_any (body : text) (rs : Csv.reader_state) :
  Csv.state rs <> Csv.EAT_CRNL -> chars_ok P rs ->
  Forall P body -> Forall (fun c => Csv.is_newline c = false) body ->
  (Csv.feed_chars d rs body = inl Csv.field_too_large
   /\ (Csv.field_limit < Csv.field_len rs + N.of_nat (length body))%N)
  \/ exists rs',
       Csv.feed_chars d rs body = inr rs'
       /\ chars_ok P rs'
       /\ (Csv.field_len rs' <= Csv.field_len rs + N.of_nat (length body))%N
       /\ Csv.state rs' <> Csv.EAT_CRNL.
Proof.
  revert rs. induction body as [|c body IH]; intros rs Hst Hrs HP Hnl.
  { right. exists rs. cbn. repeat split; try done; try apply Hrs. lia. }
  apply Forall_cons in HP as [Hc HP]. apply Forall_cons in Hnl as [Hcn Hnl].
  cbn [Csv.feed_chars length].
  destruct (process_char_any rs (Some c) Hst Hrs) as [(-> & Hlim & _) | (rs1 & -> & Hrs1 & Hlen & _ & Heat)].
  { by intros x [= <-]. }
  { left. split; [done | lia]. }
  assert (Hst1 : Csv.state rs1 <> Csv.EAT_CRNL).
  { intros (x & [= <-] & Hx)%Heat. congruence. }
  destruct (IH rs1 Hst1 Hrs1 HP Hnl) as [(-> & Hlim) | (rs' & -> & Hrs' & Hlen' & Hst')].
  - left. split; [done | lia].
  - right. exists rs'. repeat split; try done; try apply Hrs'. lia.
Qed.

Lemma process_eol_any (rs : Csv.reader_state) :
  chars_ok P rs ->
  exists rs',
    Csv.parse_process_char d rs None = inr rs'
    /\ chars_ok P rs'
    /\ (Csv.field_len rs' <= Csv.field_len rs)%N
    /\ Csv.state rs' <> Csv.EAT_CRNL.
Proof.
  intros Hrs.
  assert (Hdec : Csv.state rs = Csv.EAT_CRNL \/ Csv.state rs <> Csv.EAT_CRNL)
    by (destruct (Csv.state rs); (by left) || by right).
  destruct Hdec as [Heat | Hst].
  - rewrite (process_eol_eat rs Heat). eexists. split; [done |].
    unfold chars_ok, Csv.set_state. cbn [Csv.state Csv.field Csv.fields Csv.field_len].
    split; [done |]. split; [lia | done].
  - destruct (process_char_any rs None Hst Hrs) as [(_ & _ & Hn) | (rs' & -> & Hrs' & _ & Hlen & Heat)];
      [done | done |].
    exists rs'. split; [done |]. split; [done |]. split; [by apply Hlen |].
    by intros (x & ? & _)%Heat.
Qed.

Lemma feed_line_any (l : text) (rs : Csv.reader_state) :
  Csv.state rs <> Csv.EAT_CRNL -> chars_ok P rs ->
  Forall P l -> file_line l ->
  (Csv.feed_line d rs l = inl Csv.field_too_large
   /\ (Csv.field_limit < Csv.field_len rs + N.of_nat (length l))%N)
  \/ exists rs',
       Csv.feed_line d rs l = inr rs'
       /\ chars_ok P rs'
       /\ (Csv.field_len rs' <= Csv.field_len rs + N.of_nat (length l))%N
       /\ Csv.state rs' <> Csv.EAT_CRNL.
Proof.
  intros Hst Hrs HP Hl. unfold file_line in Hl. unfold Csv.feed_line.
  destruct (chomp_cases l) as [Heq | Heq].
  - rewrite Heq in HP |- *. apply Forall_app in HP as [HPb HPlf].
    apply Forall_cons in HPlf as [HPlf _].
    rewrite feed_chars_app, length_app. cbn [length].
    destruct (feed_chars_any (chomp l) rs Hst Hrs HPb Hl)
      as [(-> & Hlim) | (rs1 & -> & Hrs1 & Hlen1 & Hst1)].
    { left. split; [done | lia]. }
    cbn [Csv.feed_chars].
    destruct (process_char_any rs1 (Some Ch.lf) Hst1 Hrs1)
      as [(-> & Hlim & _) | (rs2 & -> & Hrs2 & Hlen2 & _ & _)].
    { by intros x [= <-]. }
    { left. split; [done | lia]. }
    destruct (process_eol_any rs2 Hrs2) as (rs' & -> & Hrs' & Hlen' & Hst').
    right. exists rs'. repeat split; try done; try apply Hrs'. lia.
  - rewrite Heq in Hl.
    destruct (feed_chars_any l rs Hst Hrs HP Hl)
      as [(-> & Hlim) | (rs1 & -> & Hrs1 & Hlen1 & Hst1)].
    { left. split; [done | lia]. }
    destruct (process_eol_any rs1 Hrs1) as (rs' & -> & Hrs' & Hlen' & Hst').
    right. exists rs'. repeat split; try done; try apply Hrs'. lia.
Qed.

Lemma reader_from_any (lines : list text) (rs : Csv.reader_state) :
  Csv.state rs <> Csv.EAT_CRNL -> chars_ok P rs ->
  Forall (Forall P) lines -> Forall file_line lines ->
  Forall (Forall (Forall P)) (Csv.reader_from d rs lines).1
  /\ ((Csv.reader_from d rs lines).2 = None
      \/ (Csv.reader_from d rs lines).2 = Some Csv.field_too_large)
  /\ ((Csv.field_len rs + N.of_nat (length (concat lines)) <= Csv.field_limit)%N ->
      (Csv.reader_from d rs lines).2 = None).
Proof.
  revert rs. induction lines as [|l lines IH]; intros rs Hst Hrs HP Hl.
  { cbn [Csv.reader_from].
    assert (Hsave : Forall (Forall P) (Csv.fields (Csv.parse_save_field rs))).
    { destruct Hrs. cbn. apply Forall_app. split; [done | by constructor]. }
    destruct (Csv.state rs); try destruct (Csv.field_len rs =? 0)%N;
      cbn [fst snd]; (split; [by repeat constructor | split; [by left | done]]). }
  apply Forall_cons in HP as [HPl HP]. apply Forall_cons in Hl as [Hll Hl].
  cbn [Csv.reader_from concat]. rewrite length_app.
  destruct (feed_line_any l rs Hst Hrs HPl Hll)
    as [(-> & Hlim) | (rs1 & -> & Hrs1 & Hlen1 & Hst1)].
  { cbn [fst snd]. split; [constructor |]. split; [by right | lia]. }
  destruct (Csv.state rs1) eqn:Hs1.
  1: { assert (Hreset : chars_ok P Csv.parse_reset) by (split; constructor).
       destruct (IH Csv.parse_reset) as (Hrows & Herr & Hnone); try done.
       destruct (Csv.reader_from d Csv.parse_reset lines) as [rows err].
       cbn [fst snd] in *. split; [constructor; [by destruct Hrs1 | done] |].
       split; [done |]. intros Hlim. apply Hnone. cbn. lia. }
  all: assert (Hne : Csv.state rs1 <> Csv.EAT_CRNL) by (by rewrite Hs1);
    try (by destruct Hst1);
    destruct (IH rs1 Hne Hrs1 HP Hl) as (Hrows & Herr & Hnone);
    (split; [done |]); (split; [done |]); intros Hlim; apply Hnone; lia.
Qed.
End ReaderAny.

(** ** The writer *)

Lemma Forall_list_filter {A} (P : A -> Prop) (f : A -> bool) (l : list A) :
  Forall P l -> Forall P (List.filter f l).
Proof.
  induction 1 as [|x l Hx _ IH]; cbn [List.filter]; [constructor |].
  destruct (f x); [by constructor | done].
Qed.

Section Writer.
Variable P : char -> Prop.
Hypothesis P_comma : P Ch.comma.
Hypothesis P_dquote : P Ch.dquote.
Hypothesis P_cr : P Ch.cr.
Hypothesis P_lf : P Ch.lf.

Lemma join_with_chars (sep : text) (parts : list text) :
  Forall P sep -> Forall (Forall P) parts -> Forall P (join_with sep parts).
Proof.
  intros Hsep. induction 1 as [|p ps Hp Hps IH]; [constructor |].
  cbn [join_with]. destruct ps as [|q ps]; [done |].
  apply Forall_app. split; [done |]. apply Forall_app. by split.
Qed.

Lemma double_quotes_chars (s : text) : Forall P s -> Forall P (Csv.double_quotes s).
Proof.
  induction 1 as [|c s Hc Hs IH]; cbn [Csv.double_quotes]; [constructor |].
  destruct (N.eqb c Ch.dquote); repeat constructor; done.
Qed.

Lemma write_field_chars (s : text) : Forall P s -> Forall P (Csv.write_field s).
Proof.
  intros Hs. unfold Csv.write_field. destruct (Csv.needs_quotes s); [| done].
  apply Forall_app. split; [by repeat constructor |].
  apply Forall_app. split; [by apply double_quotes_chars | by repeat constructor].
Qed.

Lemma writerow_chars (row : list text) :
  Forall (Forall P) row -> Forall P (Csv.writerow row).
Proof.
  intros Hrow. unfold Csv.writerow.
  assert (Hrec : Forall P (join_with [Ch.comma] (map Csv.write_field row))).
  { apply join_with_chars; [by repeat constructor |].
    apply Forall_map. eapply Forall_impl; [exact Hrow |]. apply write_field_chars. }
  assert (Hterm : Forall P Csv.lineterminator) by (by repeat constructor).
  destruct row as [|f row], (join_with [Ch.comma] _) as [|c rec];
    try (apply Forall_app; split; done).
  apply Forall_app. split; [by repeat constructor | done].
Qed.

Lemma copy_rows_chars (d comment : char) (lines : list text) :
  Forall (Forall P) lines -> Forall file_line lines ->
  Forall P (copy_rows d comment lines).1
  /\ ((copy_rows d comment lines).2 = None
      \/ (copy_rows d comment lines).2 = Some Csv.field_too_large)
  /\ ((N.of_nat (length (concat lines)) <= Csv.field_limit)%N ->
      (copy_rows d comment lines).2 = None).
Proof.
  intros HP Hl. unfold copy_rows, Csv.reader.
  assert (Hreset : chars_ok P Csv.parse_reset) by (split; constructor).
  destruct (reader_from_any d P lines Csv.parse_reset) as (Hrows & Herr & Hnone);
    try done.
  destruct (Csv.reader_from d Csv.parse_reset lines) as [rows err]. cbn [fst snd] in *.
  split; [| split; [done | done]].
  apply Forall_concat, Forall_map. unfold retained_rows.
  apply Forall_list_filter. eapply Forall_impl; [exact Hrows |]. apply writerow_chars.
Qed.
End Writer.

(** The lines of a file read with universal newlines. *)
Lemma file_lines_file_line (t0 : text) :
  Forall file_line (file_lines (universal_newlines t0)).
Proof.
  pose proof (file_lines_from_shape [] (universal_newlines t0) (List.Forall_nil _)) as Hshape.
  pose proof (file_lines_from_chars (fun c => c <> Ch.cr) [] (universal_newlines t0)
                (List.Forall_nil _) (universal_newlines_no_cr t0)) as Hcr.
  fold (file_lines (universal_newlines t0)) in Hshape, Hcr.
  induction (file_lines (universal_newlines t0)) as [|l ls IH]; [constructor |].
  apply Forall_cons in Hshape as [[_ Hlf] Hshape]. apply Forall_cons in Hcr as [Hc Hcr].
  constructor; [| by apply IH].
  unfold file_line. apply (chomp_Forall _ l) in Hc.
  pose proof (conj Hlf Hc) as Hall%Forall_and.
  eapply Forall_impl; [exact Hall |]. intros c [H1%N.eqb_neq H2%N.eqb_neq].
  unfold Csv.is_newline. by rewrite H1, H2.
Qed.

(** What the loop of [convert_fallback] makes of the text of any file. *)
Lemma copy_rows_of_file (d comment : char) (bs : bytes) :
  let r := copy_rows d comment (file_lines (universal_newlines (utf8_decode bs))) in
  is_Some (utf8_encode r.1)
  /\ (r.2 = None \/ r.2 = Some Csv.field_too_large)
  /\ ((N.of_nat (length bs) <= Csv.field_limit)%N -> r.2 = None).
Proof.
  cbv zeta. set (t := universal_newlines (utf8_decode bs)).
  assert (Ht : Forall (fun c => is_scalar c = true) t).
  { apply universal_newlines_chars; [done | apply utf8_decode_scalars]. }
  destruct (copy_rows_chars (fun c => is_scalar c = true) eq_refl eq_refl eq_refl eq_refl
              d comment (file_lines t)) as (Hout & Herr & Hnone).
  { by apply file_lines_from_chars. }
  { apply file_lines_file_line. }
  split; [by apply utf8_encode_scalars |]. split; [done |].
  intros Hlen. apply Hnone. rewrite concat_file_lines.
  pose proof (universal_newlines_length (utf8_decode bs)).
  pose proof (utf8_decode_length bs). fold t in H. lia.
Qed.

(** X10: on a readable input and a writable output that is another path,
    [convert_fallback] always leaves a file at the output path, and the
    only exception it can end with is the reader's field-size error; it
    cannot end with one when the input is within 131072 bytes.  Text decoded
    with [errors=replace] is always accepted by the UTF-8 encoder of the
    output, and a file object never yields a line end inside a line. *)
Theorem convert_fallback_outcome (rt : runtime) (inp out : path) (d c : char)
    (b bs : bytes) (m : fsmap) :
  m !! inp = Some (File b) -> inp <> out ->
  m !! out <> Some Dir -> writable rt out = true ->
  logical rt inp b = Some bs ->
  exists r ob,
    convert_fallback rt inp out d c m = (r, <[out := File ob]> m)
    /\ (r = Ret tt \/ r = Raise Csv.field_too_large)
    /\ ((N.of_nat (length bs) <= Csv.field_limit)%N -> r = Ret tt).
Proof.
  intros Hin Hne Hout Hw Hlog.
  rewrite (convert_fallback_run rt inp out d c b bs m Hin Hne Hout Hw Hlog).
  destruct (copy_rows_of_file d c bs) as ([ob Henc] & Herr & Hnone). cbv zeta in *.
  destruct (copy_rows d c _) as [txt err]. cbn [fst snd] in *. rewrite Henc.
  eexists _, ob. rewrite insert_insert_eq. split; [reflexivity |]. split.
  - destruct Herr as [-> | ->]; [by left | by right].
  - intros Hlen. by rewrite Hnone.
Qed.

Lemma convert_fallback_outcome_witness :
  let m : fsmap := {[ py "in.rtab" := File (ascii_bytes "a\tb\n1\t2\n") ]} in
  (m !! py "in.rtab" = Some (File (ascii_bytes "a\tb\n1\t2\n"))
   /\ py "in.rtab" <> py "out.csv"
   /\ m !! py "out.csv" <> Some Dir
   /\ writable rt_bare (py "out.csv") = true
   /\ logical rt_bare (py "in.rtab") (ascii_bytes "a\tb\n1\t2\n")
      = Some (ascii_bytes "a\tb\n1\t2\n"))
  /\ exists r ob,
       convert_fallback rt_bare (py "in.rtab") (py "out.csv") Ch.tab Ch.hash m
       = (r, <[py "out.csv" := File ob]> m)
       /\ (r = Ret tt \/ r = Raise Csv.field_too_large)
       /\ ((N.of_nat (length (ascii_bytes "a\tb\n1\t2\n")) <= Csv.field_limit)%N -> r = Ret tt).
Proof.
  cbv zeta. split; [repeat split; by vm_compute |].
  apply (convert_fallback_outcome rt_bare _ _ _ _ (ascii_bytes "a\tb\n1\t2\n"));
    by vm_compute.
Defined.

(** The structured path leaves the file system as it was or with a file at
    the output path. *)
Lemma convert_with_pandas_fs (rt : runtime) (i out : path) (d c : char) (m : fsmap) :
  (convert_with_pandas rt i out d c m).2 = m
  \/ exists ob, (convert_with_pandas rt i out d c m).2 = <[out := File ob]> m.
Proof.
  unfold convert_with_pandas. rewrite bind_run.
  pose proof (keeps_import_pandas rt m) as Himp.
  destruct (import_pandas rt m) as [[pd | e | code] m0]; cbn [snd] in Himp; subst m0;
    [| by left | by left].
  rewrite bind_run.
  pose proof (keeps_pandas_open rt i m) as Hopen.
  destruct (pandas_open rt i m) as [[bi | e | code] m0]; cbn [snd] in Hopen; subst m0;
    [| by left | by left].
  rewrite bind_run. destruct (read_csv pd bi d c) as [e | df]; [by left |].
  rewrite ret_run, bind_run.
  destruct (open_write_cases rt out m) as [-> | [e ->]]; [| by left].
  rewrite bind_run. unfold write_text.
  destruct (utf8_encode _) as [ob|].
  - rewrite bind_run. unfold get_state, put_state. cbv beta iota. cbn [snd ret].
    right. exists ob. by rewrite insert_insert_eq.
  - cbn [snd raise]. right. by eexists.
Qed.

(** X11: [main] returns (exit status 0) and leaves a file at the output
    path for every input file of at most 131072 bytes (after decompression),
    whatever pandas does, provided the output path is another path and can
    be opened for writing. *)
Theorem main_converts_small_input {F : Type} `{PyNum F} (rt : runtime)
    (prog inp out : path) (rest : list text) (b bs : bytes) (m : fsmap) :
  m !! inp = Some (File b) ->
  logical rt inp b = Some bs ->
  (N.of_nat (length bs) <= Csv.field_limit)%N ->
  inp <> out -> m !! out <> Some Dir -> writable rt out = true ->
  exists w' ob,
    main (F:=F) rt (prog :: inp :: out :: rest) (boot m) = (Ret tt, w')
    /\ fs w' = <[out := File ob]> m.
Proof.
  intros Hi Hlog Hlen Hne Hout Hw.
  rewrite (main_run3 rt prog inp out rest _ m Hi).
  rewrite (read_preview_run _ _ _ _ _ Hi), Hlog.
  rewrite convert_run. cbv zeta. cbn [fs calls stdout].
  match goal with
  | |- context [convert_with_pandas rt inp out ?d0 ?c0 m] => set (d := d0); set (c := c0)
  end.
  pose proof (convert_with_pandas_writes rt inp out d c m) as Hwr.
  pose proof (convert_with_pandas_fs rt inp out d c m) as Hfs.
  pose proof (no_exit_convert_with_pandas rt inp out d c m) as Hx.
  destruct (convert_with_pandas rt inp out d c m) as [[df | e | code] m1];
    cbn [fst snd] in *.
  - destruct (Hwr m1 df eq_refl) as [ob Hob].
    destruct Hfs as [-> | [ob' ->]].
    + eexists _, ob. split; [reflexivity |]. cbn [fs].
      symmetry. by apply insert_id.
    + eexists _, ob'. by split.
  - assert (Hi1 : m1 !! inp = Some (File b)).
    { destruct Hfs as [-> | [ob' ->]]; [done | by rewrite lookup_insert_ne]. }
    assert (Hout1 : m1 !! out <> Some Dir).
    { destruct Hfs as [-> | [ob' ->]]; [done | by rewrite lookup_insert_eq]. }
    rewrite (convert_fallback_run rt inp out d c b bs m1 Hi1 Hne Hout1 Hw Hlog).
    destruct (copy_rows_of_file d c bs) as ([ob Henc] & _ & Hnone).
    cbv zeta in Henc, Hnone. specialize (Hnone Hlen).
    destruct (copy_rows d c _) as [txt err]. cbn [fst snd] in Henc, Hnone.
    rewrite Henc, Hnone. cbn [fst snd].
    eexists _, ob. split; [reflexivity |]. cbn [fs]. rewrite insert_insert_eq.
    destruct Hfs as [-> | [ob' ->]]; [done | by rewrite insert_insert_eq].
  - by destruct (Hx code).
Qed.

Lemma main_converts_small_input_witness :
  let m : fsmap := {[ py "in.rtab" := File (ascii_bytes "a\tb\n1\t2\n") ]} in
  (m !! py "in.rtab" = Some (File (ascii_bytes "a\tb\n1\t2\n"))
   /\ logical rt_pandas (py "in.rtab") (ascii_bytes "a\tb\n1\t2\n")
      = Some (ascii_bytes "a\tb\n1\t2\n")
   /\ (N.of_nat (length (ascii_bytes "a\tb\n1\t2\n")) <= Csv.field_limit)%N
   /\ py "in.rtab" <> py "out.csv"
   /\ m !! py "out.csv" <> Some Dir
   /\ writable rt_pandas (py "out.csv") = true)
  /\ exists w' ob,
       main (F:=float) rt_pandas [py "rtab_to_csv.py"; py "in.rtab"; py "out.csv"] (boot m)
       = (Ret tt, w')
       /\ fs w' = <[py "out.csv" := File ob]> m.
Proof.
  cbv zeta. split; [repeat split; by vm_compute |].
  apply (main_converts_small_input (F:=float) rt_pandas _ _ _ []
           (ascii_bytes "a\tb\n1\t2\n") (ascii_bytes "a\tb\n1\t2\n")); by vm_compute.
Defined.

(** ** Tables without quotes and commas *)

Lemma split_on_from_cons (d : char) (cur s : text) :
  exists f fs, split_on_from d cur s = f :: fs.
Proof.
  revert cur. induction s as [|c s IH]; intros cur; cbn [split_on_from]; [by eexists _, _ |].
  destruct (N.eqb c d); [by eexists _, _ | apply IH].
Qed.

Lemma join_split_on_from (d : char) (cur s : text) :
  join_with [Ch.comma] (split_on_from d cur s) = cur ++ map (to_comma d) s.
Proof.
  revert cur. induction s as [|c s IH]; intros cur; cbn [split_on_from map].
  { cbn. by rewrite app_nil_r. }
  unfold to_comma at 1. destruct (N.eqb c d).
  - specialize (IH []). destruct (split_on_from_cons d [] s) as (f & fs & Heq).
    rewrite Heq in IH |- *. cbn [join_with]. cbn [join_with] in IH. by rewrite IH.
  - rewrite IH. by rewrite <- app_assoc.
Qed.

Lemma split_on_from_chars (P : char -> Prop) (d : char) (cur s : text) :
  Forall P cur -> Forall P s -> Forall (Forall P) (split_on_from d cur s).
Proof.
  revert cur. induction s as [|c s IH]; intros cur Hcur Hs; cbn [split_on_from].
  { by repeat constructor. }
  apply Forall_cons in Hs as [Hc Hs]. destruct (N.eqb c d).
  - constructor; [done |]. by apply IH.
  - apply IH; [| done]. apply Forall_app. split; [done | by constructor].
Qed.

Lemma write_field_bare (s : text) :
  Forall (fun c => is_bare c = true) s -> Csv.write_field s = s.
Proof.
  intros Hs. unfold Csv.write_field.
  assert (Hq : Csv.needs_quotes s = false); [| by rewrite Hq].
  unfold Csv.needs_quotes. induction Hs as [|c s Hc Hs IH]; [done |].
  cbn [existsb]. rewrite IH. unfold is_bare in Hc.
  apply andb_prop in Hc as [[[H1 H2]%andb_prop H3]%andb_prop H4].
  apply negb_true_iff in H1, H2, H3, H4. by rewrite H1, H2, H3, H4.
Qed.

Lemma writerow_nonempty (row : list text) (r : char) (rec : text) :
  join_with [Ch.comma] (map Csv.write_field row) = r :: rec ->
  Csv.writerow row = (r :: rec) ++ Csv.lineterminator.
Proof. intros Hrec. unfold Csv.writerow. rewrite Hrec. by destruct row. Qed.

Lemma writerow_bare (d : char) (l : text) :
  Forall (fun c => is_bare c = true) (chomp l) ->
  Csv.writerow (line_fields d l) = map (to_comma d) (chomp l) ++ Csv.lineterminator.
Proof.
  intros Hl. unfold line_fields. destruct (chomp l) as [|c body] eqn:Hbody; [done |].
  assert (Hmap : map Csv.write_field (split_on d (c :: body)) = split_on d (c :: body)).
  { pose proof (split_on_from_chars _ d [] (c :: body) (List.Forall_nil _) Hl) as Hf.
    fold (split_on d (c :: body)) in Hf.
    induction Hf as [|f fs Hf _ IH]; [done |]. cbn [map].
    by rewrite (write_field_bare f Hf), IH. }
  apply writerow_nonempty. rewrite Hmap. unfold split_on.
  by rewrite join_split_on_from.
Qed.

(** X12: on an input without double quotes and commas, whose lines fit the
    field limit, the fallback path writes, for each line whose first field
    does not start with the comment character after leading whitespace, the
    line with every delimiter replaced by a comma and ended by [\r\n]; the
    other lines are dropped. *)
Theorem convert_fallback_plain_table (rt : runtime) (inp out : path) (d c : char)
    (b bs : bytes) (m : fsmap) :
  let lines := file_lines (universal_newlines (utf8_decode bs)) in
  let kept := List.filter (fun l => negb (is_comment_row c (line_fields d l))) lines in
  m !! inp = Some (File b) -> inp <> out ->
  m !! out <> Some Dir -> writable rt out = true ->
  logical rt inp b = Some bs ->
  forallb (fun x => negb (N.eqb x Ch.dquote) && negb (N.eqb x Ch.comma))
          (utf8_decode bs) = true ->
  forallb (fun l => (N.of_nat (length l) <=? Csv.field_limit)%N) lines = true ->
  exists ob,
    convert_fallback rt inp out d c m = (Ret tt, <[out := File ob]> m)
    /\ utf8_encode (concat (map (fun l => map (to_comma d) (chomp l) ++ Csv.lineterminator)
                                kept)) = Some ob.
Proof.
  intros lines kept Hin Hne Hout Hw Hlog Hchars Hlen.
  rewrite (convert_fallback_run rt inp out d c b bs m Hin Hne Hout Hw Hlog).
  fold lines. destruct (copy_rows_of_file d c bs) as ([ob Henc] & _ & _).
  cbv zeta in Henc. fold lines in Henc.
  apply forallb_Forall in Hchars.
  assert (Hsimple : forallb simple_line lines = true).
  { apply file_lines_simple; [| done]. apply forallb_Forall.
    eapply Forall_impl; [exact Hchars |]. by intros x [? _]%andb_prop. }
  assert (Hbare : Forall (fun l => Forall (fun x => is_bare x = true) (chomp l)) lines).
  { set (Q := fun x : char => x <> Ch.dquote /\ x <> Ch.comma).
    assert (HQ : Forall (Forall Q) lines).
    { apply file_lines_from_chars; [constructor |].
      apply universal_newlines_chars; [done |].
      eapply Forall_impl; [exact Hchars |].
      intros x [H1%negb_true_iff H2%negb_true_iff]%andb_prop.
      split; by apply N.eqb_neq. }
    pose proof (file_lines_file_line (utf8_decode bs)) as Hfl. fold lines in Hfl.
    pose proof (conj HQ Hfl) as Hall%Forall_and.
    eapply Forall_impl; [exact Hall |]. intros l [Hq Hnl].
    apply (chomp_Forall Q) in Hq. unfold file_line in Hnl.
    pose proof (conj Hq Hnl) as Hboth%Forall_and.
    eapply Forall_impl; [exact Hboth |]. intros x [[H1 H2] H3].
    unfold Csv.is_newline in H3. apply orb_false_elim in H3 as [H3 H4].
    apply N.eqb_neq in H1, H2. unfold is_bare. by rewrite H1, H2, H3, H4. }
  assert (Hcopy : copy_rows d c lines
                  = (concat (map (fun l => map (to_comma d) (chomp l) ++ Csv.lineterminator)
                                 kept), None)).
  { unfold copy_rows. rewrite (reader_simple d _ Hsimple), retained_rows_map.
    fold kept. f_equal. f_equal. rewrite map_map. apply map_ext_in.
    intros l Hl. apply writerow_bare.
    apply List.filter_In in Hl as [Hl _].
    by apply (proj1 (List.Forall_forall _ _) Hbare). }
  rewrite Hcopy in Henc |- *. cbn [fst] in Henc. rewrite Henc.
  exists ob. by rewrite insert_insert_eq.
Qed.

Lemma convert_fallback_plain_table_witness :
  let m : fsmap := {[ py "in.rtab" := File (ascii_bytes "a\tb\n# c\n\n1\t2\n") ]} in
  let bs := ascii_bytes "a\tb\n# c\n\n1\t2\n" in
  let lines := file_lines (universal_newlines (utf8_decode bs)) in
  (m !! py "in.rtab" = Some (File bs)
   /\ py "in.rtab" <> py "out.csv"
   /\ m !! py "out.csv" <> Some Dir
   /\ writable rt_bare (py "out.csv") = true
   /\ logical rt_bare (py "in.rtab") bs = Some bs
   /\ forallb (fun x => negb (N.eqb x Ch.dquote) && negb (N.eqb x Ch.comma))
              (utf8_decode bs) = true
   /\ forallb (fun l => (N.of_nat (length l) <=? Csv.field_limit)%N) lines = true)
  /\ exists ob,
       convert_fallback rt_bare (py "in.rtab") (py "out.csv") Ch.tab Ch.hash m
       = (Ret tt, <[py "out.csv" := File ob]> m)
       /\ utf8_encode
            (concat (map (fun l => map (to_comma Ch.tab) (chomp l) ++ Csv.lineterminator)
                         (List.filter
                            (fun l => negb (is_comment_row Ch.hash (line_fields Ch.tab l)))
                            lines))) = Some ob.
Proof.
  cbv zeta. split; [repeat split; by vm_compute |].
  apply (convert_fallback_plain_table rt_bare _ _ _ _
           (ascii_bytes "a\tb\n# c\n\n1\t2\n") (ascii_bytes "a\tb\n# c\n\n1\t2\n"));
    by vm_compute.
Defined.

(** ** What stripping leaves *)

Lemma drop_while_head {A} (p : A -> bool) (l : list A) :
  match drop_while p l with [] => True | x :: _ => p x = false end.
Proof.
  induction l as [|x l IH]; cbn [drop_while]; [done |].
  by destruct (p x) eqn:Hx.
Qed.

Lemma drop_while_split {A} (p : A -> bool) (l : list A) :
  exists pre, l = pre ++ drop_while p l /\ forallb p pre = true.
Proof.
  induction l as [|x l (pre & IH & Hpre)]; [by exists [] |]. cbn [drop_while].
  destruct (p x) eqn:Hx; [| by exists []].
  exists (x :: pre). cbn [app forallb]. rewrite Hx, Hpre. split; [| done].
  by rewrite <- IH.
Qed.

Lemma forallb_rev {A} (p : A -> bool) (l : list A) :
  forallb p l = true -> forallb p (rev l) = true.
Proof.
  rewrite !forallb_forall. intros Hl x Hx. apply Hl. by apply in_rev.
Qed.

(** [s.strip()] is [s] without a run of whitespace at each end, and has no
    whitespace at either end. *)
Lemma strip_spec (s : text) :
  (exists pre post,
     s = pre ++ strip s ++ post
     /\ forallb is_space pre = true /\ forallb is_space post = true)
  /\ edge_free (strip s).
Proof.
  unfold strip, rstrip, lstrip.
  destruct (drop_while_split is_space s) as (pre & Hs & Hpre).
  set (t := drop_while is_space s) in *.
  destruct (drop_while_split is_space (rev t)) as (q & Ht & Hq).
  assert (Ht' : t = rev (drop_while is_space (rev t)) ++ rev q).
  { rewrite <- rev_app_distr, <- Ht. by rewrite rev_involutive. }
  split.
  - exists pre, (rev q). split; [by rewrite <- Ht' | split; [done | by apply forallb_rev]].
  - split.
    + pose proof (drop_while_head is_space s) as Hhead. fold t in Hhead.
      destruct (rev (drop_while is_space (rev t))) as [|x r]; [done |].
      rewrite Ht' in Hhead. exact Hhead.
    + rewrite rev_involutive. apply drop_while_head.
Qed.

Lemma strip_label_spec (l : label) : stripped_of l (strip_label l).
Proof. destruct l as [s | n]; cbn [strip_label stripped_of]; [apply strip_spec | done]. Qed.

(** X13: when [convert_with_pandas] returns on an input file, pandas was
    imported and [read_csv] parsed the content of that file; the frame
    returned has the rows [read_csv] gave and, for its columns, each string
    label without the whitespace that stood at its two ends (none is left
    there) and every other label as it was; and the output file holds the
    rendering of the frame returned.  [read_csv] and [to_csv] are whatever
    the runtime provides. *)
Theorem convert_with_pandas_result (rt : runtime) (i out : path) (d c : char)
    (b bs : bytes) (m m' : fsmap) (df : dataframe) :
  m !! i = Some (File b) ->
  logical rt i b = Some bs ->
  convert_with_pandas rt i out d c m = (Ret df, m') ->
  exists pd df0 ob,
    pandas rt = Some pd
    /\ read_csv pd bs d c = inr df0
    /\ df_rows df = df_rows df0
    /\ Forall2 stripped_of (df_columns df0) (df_columns df)
    /\ utf8_encode (to_csv pd df) = Some ob
    /\ m' = <[out := File ob]> m.
Proof.
  intros Hi Hlog. unfold convert_with_pandas, import_pandas.
  destruct (pandas rt) as [pd|]; [| done].
  rewrite bind_run, ret_run. unfold pandas_open.
  rewrite !bind_run, (open_maybe_gzip_run _ _ _ Hi), (read_bytes_run _ _ _ _ Hi), Hlog.
  destruct (read_csv pd bs d c) as [e | df0] eqn:Hread;
    [by rewrite bind_run, raise_run |].
  rewrite bind_run, ret_run, bind_run.
  destruct (open_write_cases rt out m) as [-> | [e ->]]; [| done].
  rewrite bind_run. unfold write_text.
  destruct (utf8_encode _) as [ob|] eqn:Henc; [| done].
  rewrite bind_run. unfold get_state, put_state. cbv beta iota. rewrite ret_run.
  intros [[= <-] <-]%pair_eq_inv.
  exists pd, df0, ob. cbn [df_rows df_columns].
  split; [done |]. split; [done |]. split; [done |].
  split; [| split; [done | by rewrite insert_insert_eq]].
  clear. induction (df_columns df0) as [|l ls IH]; cbn [map]; constructor;
    [apply strip_label_spec | exact IH].
Qed.

Lemma convert_with_pandas_result_witness :
  let m : fsmap := {[ py "in.rtab" := File (ascii_bytes " a \tb\n1\t2\n") ]} in
  let run := convert_with_pandas rt_pandas (py "in.rtab") (py "out.csv") Ch.tab Ch.hash m in
  (m !! py "in.rtab" = Some (File (ascii_bytes " a \tb\n1\t2\n"))
   /\ logical rt_pandas (py "in.rtab") (ascii_bytes " a \tb\n1\t2\n")
      = Some (ascii_bytes " a \tb\n1\t2\n"))
  /\ exists df m',
       run = (Ret df, m')
       /\ exists pd df0 ob,
            pandas rt_pandas = Some pd
            /\ read_csv pd (ascii_bytes " a \tb\n1\t2\n") Ch.tab Ch.hash = inr df0
            /\ df_rows df = df_rows df0
            /\ Forall2 stripped_of (df_columns df0) (df_columns df)
            /\ utf8_encode (to_csv pd df) = Some ob
            /\ m' = <[py "out.csv" := File ob]> m.
Proof.
  cbv zeta. split; [split; reflexivity |].
  set (run := convert_with_pandas rt_pandas _ _ _ _ _).
  assert (Hrun : run = (run.1, run.2)) by (by destruct run).
  assert (Hret : exists df, run.1 = Ret df) by (vm_compute; by eexists).
  destruct Hret as [df Hdf]. rewrite Hdf in Hrun.
  exists df, run.2. split; [exact Hrun |].
  refine (convert_with_pandas_result rt_pandas (py "in.rtab") (py "out.csv") Ch.tab Ch.hash
            (ascii_bytes " a \tb\n1\t2\n") (ascii_bytes " a \tb\n1\t2\n")
            {[ py "in.rtab" := File (ascii_bytes " a \tb\n1\t2\n") ]} run.2 df _ _ Hrun);
    reflexivity.
Defined.

(** ** Converting a file onto itself *)

Lemma convert_with_pandas_absent (rt : runtime) (i out : path) (d c : char) (m : fsmap) :
  pandas rt = None ->
  exists e, convert_with_pandas rt i out d c m = (Raise e, m).
Proof.
  intros Hpd. unfold convert_with_pandas, import_pandas. rewrite Hpd, bind_run, raise_run.
  by eexists.
Qed.

(** X14: when pandas is not installed, running [main] with the same path as
    input and output ends with exit status 0 and leaves that file empty: the
    structured path fails on the import, and the fallback path empties the
    file before it reads it. *)
Theorem main_in_place_without_pandas {F : Type} `{PyNum F} (rt : runtime)
    (prog p : path) (rest : list text) (b bs : bytes) (m : fsmap) :
  m !! p = Some (File b) ->
  logical rt p b = Some bs ->
  pandas rt = None ->
  writable rt p = true ->
  (endswith gz_suffix p = true -> gunzip rt [] = Some []) ->
  exists w',
    main (F:=F) rt (prog :: p :: p :: rest) (boot m) = (Ret tt, w')
    /\ fs w' = <[p := File []]> m
    /\ calls w' = [(Structured, false); (Fallback, true)].
Proof.
  intros Hp Hlog Hpd Hw Hgz.
  rewrite (main_run3 rt prog p p rest _ m Hp).
  rewrite (read_preview_run _ _ _ _ _ Hp), Hlog.
  rewrite convert_run. cbv zeta. cbn [fs calls stdout].
  match goal with
  | |- context [convert_with_pandas rt p p ?d0 ?c0 m] => set (d := d0); set (c := c0)
  end.
  destruct (convert_with_pandas_absent rt p p d c m Hpd) as [e ->]. cbn [fst snd].
  assert (Hcf : convert_fallback rt p p d c m = (Ret tt, <[p := File []]> m)).
  { unfold convert_fallback.
    rewrite bind_run, (open_maybe_gzip_run _ _ _ Hp).
    rewrite bind_run, (open_write_run rt p m) by (done || by rewrite Hp).
    assert (Hp' : <[p := File []]> m !! p = Some (File [])) by apply lookup_insert_eq.
    rewrite bind_run, (read_text_run _ _ _ _ Hp').
    assert (Hempty : logical rt p [] = Some []).
    { unfold logical. destruct (endswith gz_suffix p); auto. }
    rewrite Hempty.
    cbn [copy_rows Csv.reader Csv.reader_from file_lines file_lines_from
         universal_newlines utf8_decode utf8_decode_from utf8_idle u_need].
    by rewrite <- (insert_insert_eq m p (File []) (File [])) at 2. }
  rewrite Hcf. cbn [fst snd]. eexists. split; [reflexivity |]. by split.
Qed.

Lemma main_in_place_without_pandas_witness :
  let m : fsmap := {[ py "t.rtab" := File (ascii_bytes "a\tb\n1\t2\n") ]} in
  (m !! py "t.rtab" = Some (File (ascii_bytes "a\tb\n1\t2\n"))
   /\ logical rt_bare (py "t.rtab") (ascii_bytes "a\tb\n1\t2\n")
      = Some (ascii_bytes "a\tb\n1\t2\n")
   /\ pandas rt_bare = None
   /\ writable rt_bare (py "t.rtab") = true)
  /\ exists w',
       main (F:=float) rt_bare [py "rtab_to_csv.py"; py "t.rtab"; py "t.rtab"] (boot m)
       = (Ret tt, w')
       /\ fs w' = <[py "t.rtab" := File []]> m
       /\ calls w' = [(Structured, false); (Fallback, true)].
Proof.
  cbv zeta. split; [repeat split; reflexivity |].
  apply (main_in_place_without_pandas (F:=float) rt_bare _ _ []
           (ascii_bytes "a\tb\n1\t2\n") (ascii_bytes "a\tb\n1\t2\n"));
    [reflexivity | reflexivity | reflexivity | reflexivity | intros Hgz; by vm_compute in Hgz].
Defined.
